(** * PptGen: template extraction, outline normalisation and slide placement

    A shallow embedding of the text-to-deck generator
    ([src/services/presentationGenerator.ts], its near-duplicate and the
    server-side [templateAnalyzer.js]) together with the properties its
    specification states about it.

    Modelling conventions.
    - A JavaScript string is the list of its UTF-16 code units ([jsString]).
    - A JavaScript number that holds a slide coordinate is an exact rational
      ([Q]); the clamps and comparisons of the source are the ones written
      here, rounding apart.
    - A thrown [Error] is its message; a function that can throw returns
      [outcome A], the sum of a message and a value.
    - Built-ins of the language (regular expressions, [JSON.parse],
      [String.prototype] methods) are embedded in module [JS]; collaborators
      outside the repository (the archive reader, the deck emitter, the
      model provider) appear as data: what they return is an input, what
      they receive is recorded. *)

From Stdlib Require Import List NArith ZArith QArith Qabs Qminmax String Ascii Bool Lia.
Import ListNotations.

Close Scope Q_scope.
Set Implicit Arguments.
Set Warnings "-register-all".

(* ===================================================================== *)
(** * The JavaScript built-ins the generator relies on *)
(* ===================================================================== *)

Module JS.

(** ** Strings *)

Definition jsString := list N.

(** A source literal, code unit by code unit. *)
Definition js (s : string) : jsString :=
  map N_of_ascii (list_ascii_of_string s).

(** A source literal in which the apostrophe stands for the double quote
    (code unit 34), so that XML attributes and JSON texts stay readable. *)
Definition jq (s : string) : jsString :=
  map (fun c => if N.eqb c 39 then 34%N else c) (js s).

Fixpoint eqs (a b : jsString) : bool :=
  match a, b with
  | [], [] => true
  | x :: a', y :: b' => N.eqb x y && eqs a' b'
  | _, _ => false
  end.

Definition between (lo hi c : N) : bool := N.leb lo c && N.leb c hi.

(** [\d] *)
Definition is_digit (c : N) : bool := between 48 57 c.

(** [\w]: [A-Za-z0-9_] *)
Definition is_word (c : N) : bool :=
  between 65 90 c || between 97 122 c || is_digit c || N.eqb c 95.

(** [\s], which is also what [trim] removes: WhiteSpace and LineTerminator. *)
Definition is_space (c : N) : bool :=
  between 9 13 c || N.eqb c 32 || N.eqb c 160 || N.eqb c 5760
  || between 8192 8202 c || N.eqb c 8232 || N.eqb c 8233 || N.eqb c 8239
  || N.eqb c 8287 || N.eqb c 12288 || N.eqb c 65279.

(** [[\s\S]] *)
Definition any_unit (c : N) : bool := is_space c || negb (is_space c).

(** Canonicalisation under the [i] flag (no [u] flag). Every pattern that
    carries the flag in the sources is ASCII, and a code unit above 127
    never canonicalises to an ASCII one, so only the ASCII letters move. *)
Definition canonicalize (c : N) : bool * N :=
  if between 97 122 c then (true, (c - 32)%N) else (false, c).

Definition canon (c : N) : N := snd (canonicalize c).

(** [String.prototype.toLowerCase], on Basic Latin and Latin-1; the case
    tables above U+00FF are not part of the model. *)
Definition lower_unit (c : N) : N :=
  if between 65 90 c then (c + 32)%N
  else if between 192 222 c && negb (N.eqb c 215) then (c + 32)%N
  else c.

Definition toLowerCase (s : jsString) : jsString := map lower_unit s.

(** [s.startsWith(p)], returning what follows the prefix. *)
Fixpoint strip_prefix (p s : jsString) : option jsString :=
  match p, s with
  | [], _ => Some s
  | x :: p', y :: s' => if N.eqb x y then strip_prefix p' s' else None
  | _ :: _, [] => None
  end.

Definition startsWith (s p : jsString) : bool :=
  match strip_prefix p s with Some _ => true | None => false end.

Definition endsWith (s p : jsString) : bool := startsWith (rev s) (rev p).

(** [s.includes(p)] *)
Fixpoint includes (s p : jsString) : bool :=
  startsWith s p || match s with [] => false | _ :: s' => includes s' p end.

Fixpoint trimStart (s : jsString) : jsString :=
  match s with
  | c :: s' => if is_space c then trimStart s' else s
  | [] => []
  end.

Fixpoint trimEnd (s : jsString) : jsString :=
  match s with
  | [] => []
  | c :: s' =>
      match trimEnd s' with
      | [] => if is_space c then [] else [c]
      | r => c :: r
      end
  end.

(** [s.trim()] *)
Definition trim (s : jsString) : jsString := trimEnd (trimStart s).

(** [s.substring(0, n)] *)
Definition substring0 (n : nat) (s : jsString) : jsString := firstn n s.

(** [parts.join(sep)] on strings. *)
Fixpoint join (sep : jsString) (parts : list jsString) : jsString :=
  match parts with
  | [] => []
  | [p] => p
  | p :: rest => p ++ sep ++ join sep rest
  end.

(** [s.split(sep).pop()] for a one-unit separator: what follows the last
    separator. *)
Fixpoint last_segment (sep : N) (s : jsString) : jsString :=
  match s with
  | [] => []
  | c :: s' =>
      if existsb (N.eqb sep) s' then last_segment sep s'
      else if N.eqb c sep then s' else s
  end.

(** [parseInt(d)] on a run of decimal digits, as [(\d+)] captures it. *)
Definition parseInt (d : jsString) : N :=
  fold_left (fun acc c => (10 * acc + (c - 48))%N) d 0%N.

(** ** Regular expressions

    A backtracking matcher with the priorities of the language: the left
    alternative first, a greedy star longest first, a lazy star shortest
    first. Every quantifier of the sources ranges over a character class,
    so the stars take a class. *)

Inductive regex : Type :=
| Chr (p : N -> bool)
| Eps
| Seq (r1 r2 : regex)
| Alt (r1 r2 : regex)
| Star (p : N -> bool)
| LazyStar (p : N -> bool)
| Group (i : nat) (r : regex)
| Eos.

Definition captures := list (nat * jsString).

Definition cont := jsString -> captures -> option (captures * jsString).

Fixpoint star (p : N -> bool) (s : jsString) (c : captures) (k : cont)
  : option (captures * jsString) :=
  match s with
  | a :: s' =>
      if p a then
        match star p s' c k with
        | Some r => Some r
        | None => k s c
        end
      else k s c
  | [] => k s c
  end.

Fixpoint lazy_star (p : N -> bool) (s : jsString) (c : captures) (k : cont)
  : option (captures * jsString) :=
  match k s c with
  | Some r => Some r
  | None =>
      match s with
      | a :: s' => if p a then lazy_star p s' c k else None
      | [] => None
      end
  end.

Fixpoint run (r : regex) (s : jsString) (c : captures) (k : cont)
  : option (captures * jsString) :=
  match r with
  | Chr p =>
      match s with
      | a :: s' => if p a then k s' c else None
      | [] => None
      end
  | Eps => k s c
  | Seq r1 r2 => run r1 s c (fun s' c' => run r2 s' c' k)
  | Alt r1 r2 =>
      match run r1 s c k with
      | Some x => Some x
      | None => run r2 s c k
      end
  | Star p => star p s c k
  | LazyStar p => lazy_star p s c k
  | Group i r' =>
      run r' s c
        (fun s' c' => k s' ((i, firstn (List.length s - List.length s') s) :: c'))
  | Eos => match s with [] => k s c | _ :: _ => None end
  end.

Definition accept : cont := fun s c => Some (c, s).

(** One match attempt at the start of [s]: captures and what follows. *)
Definition exec_at (r : regex) (s : jsString) : option (captures * jsString) :=
  run r s [] accept.

Record found := {
  before : jsString;
  matched : jsString;
  groups : captures;
  after : jsString
}.

(** [s.match(r)] without the [g] flag: the leftmost match. *)
Fixpoint search (r : regex) (s : jsString) : option found :=
  match exec_at r s with
  | Some (c, rest) =>
      Some {| before := []; matched := firstn (List.length s - List.length rest) s;
              groups := c; after := rest |}
  | None =>
      match s with
      | [] => None
      | a :: s' =>
          match search r s' with
          | Some f =>
              Some {| before := a :: before f; matched := matched f;
                      groups := groups f; after := after f |}
          | None => None
          end
      end
  end.

(** [m[i]] of a match: [None] is [undefined]. *)
Fixpoint group (i : nat) (c : captures) : option jsString :=
  match c with
  | [] => None
  | (j, v) :: c' => if Nat.eqb i j then Some v else group i c'
  end.

Definition test (r : regex) (s : jsString) : bool :=
  match search r s with Some _ => true | None => false end.

(** The left-to-right scan behind the [g] flag: the string cut into the
    units no match covers and the successive matches. [skip] counts the
    units of the current match still to pass. *)
Inductive piece : Type :=
| Unit (c : N)
| Hit (text : jsString) (caps : captures).

Fixpoint scan (r : regex) (skip : nat) (s : jsString) : list piece :=
  match s with
  | [] =>
      match skip with
      | O =>
          match exec_at r [] with
          | Some (c, _) => [Hit [] c]
          | None => []
          end
      | S _ => []
      end
  | a :: s' =>
      match skip with
      | S n => scan r n s'
      | O =>
          match exec_at r s with
          | Some (c, rest) =>
              match List.length s - List.length rest with
              | O => Hit [] c :: Unit a :: scan r 0 s'
              | S n => Hit (firstn (S n) s) c :: scan r n s'
              end
          | None => Unit a :: scan r 0 s'
          end
      end
  end.

(** [s.replace(r, by)] with the [g] flag and a replacement free of [$]. *)
Definition replace_all (r : regex) (by_ : jsString) (s : jsString) : jsString :=
  flat_map (fun p => match p with Unit c => [c] | Hit _ _ => by_ end)
           (scan r 0 s).

(** [[...s.matchAll(r)]]: the captures of each match. *)
Definition matchAll (r : regex) (s : jsString) : list captures :=
  flat_map (fun p => match p with Unit _ => [] | Hit _ c => [c] end)
           (scan r 0 s).

(** Pattern builders. *)
Definition unit_is (x : N) : N -> bool := N.eqb x.
Definition unit_ci (x : N) : N -> bool := fun c => N.eqb (canon x) (canon c).
Definition none_of (x : N) : N -> bool := fun c => negb (N.eqb x c).

Fixpoint seq_of (l : list regex) : regex :=
  match l with
  | [] => Eps
  | [r] => r
  | r :: l' => Seq r (seq_of l')
  end.

(** A run of literal units. *)
Definition lit (s : jsString) : regex := seq_of (map (fun x => Chr (unit_is x)) s).

(** The same under the [i] flag. *)
Definition lit_ci (s : jsString) : regex := seq_of (map (fun x => Chr (unit_ci x)) s).

(** [p+], [p?] on a class, [r?] on a group, [p{n}]. *)
Definition plus (p : N -> bool) : regex := Seq (Chr p) (Star p).
Definition opt (r : regex) : regex := Alt r Eps.
Definition times (n : nat) (p : N -> bool) : regex := seq_of (repeat (Chr p) n).

(** ** Thrown errors *)

(** What a call yields: the message of the error it throws, or its result. *)
Definition outcome (A : Type) : Type := (jsString + A)%type.

Definition throw {A : Type} (message : jsString) : outcome A := inl message.
Definition ret {A : Type} (a : A) : outcome A := inr a.

Definition bind {A B : Type} (m : outcome A) (f : A -> outcome B) : outcome B :=
  match m with
  | inl e => inl e
  | inr a => f a
  end.

(** ** Values, as [JSON.parse] builds them

    An array keeps the named properties an assignment may add to it; an
    absent property ([undefined]) is [None]. *)

Inductive value : Type :=
| VNull
| VBool (b : bool)
| VNum (q : Q)
| VStr (s : jsString)
| VArr (items : list value) (named : list (jsString * value))
| VObj (props : list (jsString * value)).

Fixpoint assoc (k : jsString) (ps : list (jsString * value)) : option value :=
  match ps with
  | [] => None
  | (k', v) :: ps' => if eqs k k' then Some v else assoc k ps'
  end.

(** [CreateDataProperty]: an existing key keeps its place and takes the
    new value, a new key goes last. *)
Fixpoint assoc_set (k : jsString) (v : value) (ps : list (jsString * value))
  : list (jsString * value) :=
  match ps with
  | [] => [(k, v)]
  | (k', v') :: ps' =>
      if eqs k k' then (k', v) :: ps' else (k', v') :: assoc_set k v ps'
  end.

(** [v.k] for a name that no prototype defines ([title], [slides], [type],
    [content]): the own property of an object or array, [undefined] on a
    primitive. Reading a property of [null] throws and is not a [get]. *)
Definition get (k : jsString) (v : value) : option value :=
  match v with
  | VObj ps => assoc k ps
  | VArr _ ps => assoc k ps
  | _ => None
  end.

(** The smallest magnitude that does not round to zero lies above 2^-1075. *)
Definition rounds_to_zero (q : Q) : bool :=
  Qle_bool (Qabs q) (1 # (2 ^ 1075))%Q.

(** [ToBoolean] *)
Definition truthy (v : value) : bool :=
  match v with
  | VNull => false
  | VBool b => b
  | VNum q => negb (rounds_to_zero q)
  | VStr s => match s with [] => false | _ :: _ => true end
  | VArr _ _ => true
  | VObj _ => true
  end.

Definition truthy_opt (v : option value) : bool :=
  match v with Some x => truthy x | None => false end.

(** [Array.isArray] *)
Definition isArray (v : option value) : bool :=
  match v with Some (VArr _ _) => true | _ => false end.

(** ** [JSON.parse] *)

Definition is_json_ws (c : N) : bool :=
  N.eqb c 9 || N.eqb c 10 || N.eqb c 13 || N.eqb c 32.

Fixpoint skip_ws (s : jsString) : jsString :=
  match s with
  | c :: s' => if is_json_ws c then skip_ws s' else s
  | [] => []
  end.

Definition hex_digit (c : N) : option N :=
  if is_digit c then Some (c - 48)%N
  else if between 65 70 c then Some (c - 55)%N
  else if between 97 102 c then Some (c - 87)%N
  else None.

Definition hex4 (a b c d : N) : option N :=
  match hex_digit a, hex_digit b, hex_digit c, hex_digit d with
  | Some x, Some y, Some z, Some w => Some (((x * 16 + y) * 16 + z) * 16 + w)%N
  | _, _, _, _ => None
  end.

(** [s] without its first unit when that unit is [x]. *)
Definition after_unit (x : N) (s : jsString) : option jsString :=
  match s with
  | a :: r => if N.eqb a x then Some r else None
  | [] => None
  end.

(** The unit a one-letter escape stands for. *)
Definition escape (e : N) : option N :=
  if N.eqb e 34 then Some 34%N else if N.eqb e 92 then Some 92%N
  else if N.eqb e 47 then Some 47%N else if N.eqb e 98 then Some 8%N
  else if N.eqb e 102 then Some 12%N else if N.eqb e 110 then Some 10%N
  else if N.eqb e 114 then Some 13%N else if N.eqb e 116 then Some 9%N
  else None.

(** The units of a string literal after its opening quote, and what
    follows the closing one. *)
Fixpoint parse_string (s : jsString) : option (jsString * jsString) :=
  match s with
  | [] => None
  | c :: rest =>
      if N.eqb c 34 then Some ([], rest)
      else if N.eqb c 92 then
        match rest with
        | [] => None
        | e :: rest1 =>
            if N.eqb e 117 then
              match rest1 with
              | a :: b :: c' :: d :: rest2 =>
                  match hex4 a b c' d, parse_string rest2 with
                  | Some u, Some (t, r) => Some (u :: t, r)
                  | _, _ => None
                  end
              | _ => None
              end
            else
              match escape e, parse_string rest1 with
              | Some u, Some (t, r) => Some (u :: t, r)
              | _, _ => None
              end
        end
      else if N.ltb c 32 then None
      else
        match parse_string rest with
        | Some (t, r) => Some (c :: t, r)
        | None => None
        end
  end.

Fixpoint digits (s : jsString) : jsString * jsString :=
  match s with
  | c :: s' =>
      if is_digit c then let (d, r) := digits s' in (c :: d, r) else ([], s)
  | [] => ([], [])
  end.

(** A run of one digit or more. *)
Definition digits1 (s : jsString) : option (jsString * jsString) :=
  match digits s with
  | ([], _) => None
  | (d, r) => Some (d, r)
  end.

Definition pow10 (m : Z) (e : Z) : Q :=
  match e with
  | Zneg p => (m # (10 ^ p))%Q
  | _ => ((m * 10 ^ e)%Z # 1)%Q
  end.

(** The integer part: a lone zero, or digits. *)
Definition int_part (s : jsString) : option (jsString * jsString) :=
  match after_unit 48 s with
  | Some r => Some ([48%N], r)
  | None => digits1 s
  end.

(** The fraction, when there is one: a point and digits. *)
Definition frac_part (s : jsString) : option (jsString * jsString) :=
  match after_unit 46 s with
  | Some r => digits1 r
  | None => Some ([], s)
  end.

(** The exponent, when there is one: [e] or [E], a sign, digits. *)
Definition exp_part (s : jsString) : option (Z * jsString) :=
  match s with
  | e :: r =>
      if N.eqb e 101 || N.eqb e 69 then
        let (eneg, r1) :=
          match after_unit 45 r, after_unit 43 r with
          | Some r', _ => (true, r')
          | None, Some r' => (false, r')
          | None, None => (false, r)
          end in
        match digits1 r1 with
        | Some (d, r2) =>
            let n := Z.of_N (parseInt d) in
            Some ((if eneg then - n else n)%Z, r2)
        | None => None
        end
      else Some (0%Z, s)
  | [] => Some (0%Z, s)
  end.

(** A number token: an optional minus, an integer part without a leading
    zero, an optional fraction, an optional exponent. *)
Definition parse_number (s : jsString) : option (Q * jsString) :=
  let (neg, s1) :=
    match after_unit 45 s with Some r => (true, r) | None => (false, s) end in
  match int_part s1 with
  | None => None
  | Some (i, s2) =>
      match frac_part s2 with
      | None => None
      | Some (f, s3) =>
          match exp_part s3 with
          | None => None
          | Some (e, s4) =>
              let m := Z.of_N (parseInt (i ++ f)) in
              let m := if neg then (- m)%Z else m in
              Some (pow10 m (e - Z.of_nat (List.length f)), s4)
          end
      end
  end.

(** One level of the grammar, the levels below being given: a value at the
    head of [s] (white space already passed) and what follows it. *)
Definition value_step
    (elements : jsString -> list value -> option (value * jsString))
    (members : jsString -> list (jsString * value) -> option (value * jsString))
    (s : jsString) : option (value * jsString) :=
  match s with
  | [] => None
  | a :: r =>
      if N.eqb a 123 then
        match after_unit 125 (skip_ws r) with
        | Some r' => Some (VObj [], r')
        | None => members (skip_ws r) []
        end
      else if N.eqb a 91 then
        match after_unit 93 (skip_ws r) with
        | Some r' => Some (VArr [] [], r')
        | None => elements (skip_ws r) []
        end
      else if N.eqb a 34 then
        match parse_string r with
        | Some (t, r') => Some (VStr t, r')
        | None => None
        end
      else
        match strip_prefix (js "true") s, strip_prefix (js "false") s,
              strip_prefix (js "null") s with
        | Some r', _, _ => Some (VBool true, r')
        | None, Some r', _ => Some (VBool false, r')
        | None, None, Some r' => Some (VNull, r')
        | None, None, None =>
            match parse_number s with
            | Some (q, r') => Some (VNum q, r')
            | None => None
            end
        end
  end.

(** The elements of an array from the first one on, up to the closing
    bracket; [acc] holds the elements read so far, last first. *)
Definition elements_step
    (val : jsString -> option (value * jsString))
    (elements : jsString -> list value -> option (value * jsString))
    (s : jsString) (acc : list value) : option (value * jsString) :=
  match val s with
  | Some (v, r) =>
      match after_unit 44 (skip_ws r), after_unit 93 (skip_ws r) with
      | Some r', _ => elements (skip_ws r') (v :: acc)
      | None, Some r' => Some (VArr (rev (v :: acc)) [], r')
      | None, None => None
      end
  | None => None
  end.

(** The members of an object from the first one on, up to the closing
    brace; [acc] holds the properties defined so far. *)
Definition members_step
    (val : jsString -> option (value * jsString))
    (members : jsString -> list (jsString * value) -> option (value * jsString))
    (s : jsString) (acc : list (jsString * value)) : option (value * jsString) :=
  match after_unit 34 s with
  | None => None
  | Some r =>
      match parse_string r with
      | None => None
      | Some (k, r1) =>
          match after_unit 58 (skip_ws r1) with
          | None => None
          | Some r2 =>
              match val (skip_ws r2) with
              | None => None
              | Some (v, r3) =>
                  match after_unit 44 (skip_ws r3), after_unit 125 (skip_ws r3) with
                  | Some r4, _ => members (skip_ws r4) (assoc_set k v acc)
                  | None, Some r4 => Some (VObj (assoc_set k v acc), r4)
                  | None, None => None
                  end
              end
          end
      end
  end.

(** The parser: [fuel] bounds the depth of the calls, and the length of
    the text is enough of it (lemma [parse_value_enough]). *)
Fixpoint parse_value (fuel : nat) (s : jsString) : option (value * jsString) :=
  match fuel with
  | O => None
  | S f => value_step (parse_elements f) (parse_members f) s
  end
with parse_elements (fuel : nat) (s : jsString) (acc : list value)
  : option (value * jsString) :=
  match fuel with
  | O => None
  | S f => elements_step (parse_value f) (parse_elements f) s acc
  end
with parse_members (fuel : nat) (s : jsString) (acc : list (jsString * value))
  : option (value * jsString) :=
  match fuel with
  | O => None
  | S f => members_step (parse_value f) (parse_members f) s acc
  end.

(** [JSON.parse(text)]: [None] when it throws a [SyntaxError]. *)
Definition JSON_parse (text : jsString) : option value :=
  match parse_value (S (List.length text)) (skip_ws text) with
  | Some (v, r) => match skip_ws r with [] => Some v | _ :: _ => None end
  | None => None
  end.

End JS.

(* ===================================================================== *)
(** * The data model ([TemplateData], [PresentationStructure]) *)
(* ===================================================================== *)

Import JS.

(** A placeholder box, in inches. *)
Module Box.
Record t := { x : Q; y : Q; w : Q; h : Q }.
End Box.

Module Colors.
Record t := {
  primary : jsString;
  secondary : jsString;
  accent : jsString;
  text : jsString;
  background : jsString
}.
End Colors.

Module Fonts.
Record t := { title : jsString; body : jsString }.
End Fonts.

Module Layout.
Record t := {
  name : jsString;
  titleBox : option Box.t;
  contentBox : option Box.t
}.
End Layout.

Module SlideSize.
Record t := { width : Q; height : Q }.
End SlideSize.

Module TemplateData.
Record t := {
  colors : Colors.t;
  fonts : Fonts.t;
  layouts : list Layout.t;
  images : list (jsString * jsString);
  slideSize : option SlideSize.t
}.
End TemplateData.

Module SlideContent.
Record t := {
  title : jsString;
  content : list jsString;
  type : jsString;
  notes : option jsString
}.
End SlideContent.

Module PresentationStructure.
Record t := { title : jsString; slides : list SlideContent.t }.
End PresentationStructure.

(** The literals the sources repeat at every fallback. *)
Definition defaultColors : Colors.t :=
  {| Colors.primary := js "#2563eb"; Colors.secondary := js "#7c3aed";
     Colors.accent := js "#059669"; Colors.text := js "#374151";
     Colors.background := js "#ffffff" |}.

Definition defaultFonts : Fonts.t :=
  {| Fonts.title := js "Calibri"; Fonts.body := js "Calibri" |}.

Definition defaultTitleBox : Box.t :=
  {| Box.x := 0.5; Box.y := 0.5; Box.w := 9; Box.h := 1.2 |}%Q.

Definition defaultContentBox : Box.t :=
  {| Box.x := 0.5; Box.y := 2; Box.w := 9; Box.h := 4.5 |}%Q.

Definition defaultTemplateData : TemplateData.t :=
  {| TemplateData.colors := defaultColors;
     TemplateData.fonts := defaultFonts;
     TemplateData.layouts := [];
     TemplateData.images := [];
     TemplateData.slideSize :=
       Some {| SlideSize.width := 10; SlideSize.height := 7.5 |}%Q |}.

(** ** The uploaded archive, as the archive reader presents it *)

(** An entry read as text and as base64. *)
Record payload := { as_text : jsString; as_base64 : jsString }.

(** [loadAsync] either rejects with a message or yields the entries in
    archive order; reading an entry may reject in turn. *)
Inductive upload : Type :=
| Unreadable (message : jsString)
| Archive (files : list (jsString * outcome payload)).

Definition loadAsync (u : upload) : outcome (list (jsString * outcome payload)) :=
  match u with
  | Unreadable m => throw m
  | Archive files => ret files
  end.

(** [zip.file(name)]: [None] is [null]. *)
Fixpoint file (name : jsString) (files : list (jsString * outcome payload))
  : option (outcome payload) :=
  match files with
  | [] => None
  | (n, e) :: files' => if eqs name n then Some e else file name files'
  end.

(** EMU to inches: [parseInt(d) / 914400]. *)
Definition inches (d : jsString) : Q := (Z.of_N (parseInt d) # 914400)%Q.

Definition captured (i : nat) (c : captures) : jsString :=
  match group i c with Some d => d | None => [] end.

(* ===================================================================== *)
(** * [src/services/presentationGenerator.ts] *)
(* ===================================================================== *)

Module Generator.

(** Patterns are quoted with the apostrophe standing for the double quote,
    as in [jq]. *)

(** [<a:off x='(\d+)' y='(\d+)'[\s\S]*?<a:ext cx='(\d+)' cy='(\d+)'] *)
Definition re_position : regex :=
  seq_of [ lit (jq "<a:off x='"); Group 1 (plus is_digit);
           lit (jq "' y='"); Group 2 (plus is_digit); Chr (unit_is 34);
           LazyStar any_unit;
           lit (jq "<a:ext cx='"); Group 3 (plus is_digit);
           lit (jq "' cy='"); Group 4 (plus is_digit); Chr (unit_is 34) ].

(** [<p:sp[^>]*>[\s\S]*?<p:ph[^>]*type='T'[\s\S]*?] followed by the
    position pattern. *)
Definition re_placeholder (T : jsString) : regex :=
  seq_of [ lit (js "<p:sp"); Star (none_of 62); Chr (unit_is 62);
           LazyStar any_unit;
           lit (js "<p:ph"); Star (none_of 62);
           lit (jq "type='" ++ T ++ jq "'");
           LazyStar any_unit; re_position ].

(** The box of a match of the master patterns: no clamp is applied. *)
Definition masterBox (c : captures) : Box.t :=
  {| Box.x := inches (captured 1 c);
     Box.y := inches (captured 2 c);
     Box.w := inches (captured 3 c);
     Box.h := inches (captured 4 c) |}.

Definition or_box (b : option Box.t) (d : Box.t) : option Box.t :=
  match b with Some _ => b | None => Some d end.

(** [extractMasterLayout]: [None] is the [null] of its [catch]. *)
Definition extractMasterLayout (masterXml : jsString) : option Layout.t :=
  let titleBox :=
    match search (re_placeholder (js "title")) masterXml with
    | Some m => Some (masterBox (groups m))
    | None => None
    end in
  let contentBox :=
    match search (re_placeholder (js "body")) masterXml with
    | Some m => Some (masterBox (groups m))
    | None => None
    end in
  Some {| Layout.name := js "Master Layout";
          Layout.titleBox := or_box titleBox defaultTitleBox;
          Layout.contentBox := or_box contentBox defaultContentBox |}.

(** [name='([^']+)'] *)
Definition re_name : regex :=
  seq_of [ lit (jq "name='"); Group 1 (plus (none_of 34)); Chr (unit_is 34) ].

(** [<p:sp[^>]*>([\s\S]*?)<\/p:sp>], with the [g] flag. *)
Definition re_shape : regex :=
  seq_of [ lit (js "<p:sp"); Star (none_of 62); Chr (unit_is 62);
           Group 1 (LazyStar any_unit); lit (js "</p:sp>") ].

(** [<p:ph[^>]*(?:type='([^']+)')?[^>]*>] *)
Definition re_ph : regex :=
  seq_of [ lit (js "<p:ph"); Star (none_of 62);
           opt (seq_of [ lit (jq "type='"); Group 1 (plus (none_of 34));
                         Chr (unit_is 34) ]);
           Star (none_of 62); Chr (unit_is 62) ].

(** The box of a layout shape: [Math.max(0, _)] on the offsets,
    [Math.min(10, _)] and [Math.min(7.5, _)] on the extents. *)
Definition layoutBox (c : captures) : Box.t :=
  {| Box.x := Qmax 0 (inches (captured 1 c));
     Box.y := Qmax 0 (inches (captured 2 c));
     Box.w := Qmin 10 (inches (captured 3 c));
     Box.h := Qmin 7.5 (inches (captured 4 c)) |}.

(** One turn of the loop over the shapes; the state is
    [(titleBox, contentBox)]. *)
Definition shape_step (mkBox : captures -> Box.t)
    (st : option Box.t * option Box.t) (shapeMatch : captures)
  : option Box.t * option Box.t :=
  let shapeContent := captured 1 shapeMatch in
  match search re_ph shapeContent with
  | None => st
  | Some phMatch =>
      let phType :=
        match group 1 (groups phMatch) with
        | Some ((_ :: _) as t) => t
        | _ => js "content"
        end in
      match search re_position shapeContent with
      | None => st
      | Some posMatch =>
          let box := mkBox (groups posMatch) in
          if eqs phType (js "title") || eqs phType (js "ctrTitle")
          then (Some box, snd st)
          else if eqs phType (js "body") || eqs phType (js "obj")
                  || match fst st with None => true | Some _ => false end
          then (fst st, Some box)
          else st
      end
  end.

Definition extractLayoutPositions_with (mkBox : captures -> Box.t)
    (layoutXml : jsString) : option Layout.t :=
  let layoutName :=
    match search re_name layoutXml with
    | Some m => captured 1 (groups m)
    | None => js "Content Layout"
    end in
  let shapeMatches := matchAll re_shape layoutXml in
  let st := fold_left (shape_step mkBox) shapeMatches (None, None) in
  Some {| Layout.name := layoutName;
          Layout.titleBox := or_box (fst st) defaultTitleBox;
          Layout.contentBox := or_box (snd st) defaultContentBox |}.

(** [extractLayoutPositions] *)
Definition extractLayoutPositions : jsString -> option Layout.t :=
  extractLayoutPositions_with layoutBox.

(** [<a:clrScheme[^>]*>([\s\S]*?)<\/a:clrScheme>] *)
Definition re_clrScheme : regex :=
  seq_of [ lit (js "<a:clrScheme"); Star (none_of 62); Chr (unit_is 62);
           Group 1 (LazyStar any_unit); lit (js "</a:clrScheme>") ].

(** [[A-F0-9]] under the [i] flag. *)
Definition hex_ci (c : N) : bool :=
  between 65 70 (canon c) || is_digit (canon c).

(** [<a:TAG>[\s\S]*?val='([A-F0-9]{6})'] with the [i] flag. *)
Definition re_color (tag : jsString) : regex :=
  seq_of [ lit_ci (js "<a:" ++ tag ++ js ">"); LazyStar any_unit;
           lit_ci (jq "val='"); Group 1 (times 6 hex_ci); Chr (unit_ci 34) ].

(** [`#${m[1].toLowerCase()}`] when the pattern matches. *)
Definition color_of (tag : jsString) (content : jsString) : option jsString :=
  match search (re_color tag) content with
  | Some m => Some (35%N :: toLowerCase (captured 1 (groups m)))
  | None => None
  end.

Definition or_else (o : option jsString) (d : jsString) : jsString :=
  match o with Some v => v | None => d end.

(** [extractColorsFromTheme] *)
Definition extractColorsFromTheme (themeXml : jsString) : Colors.t :=
  let colors := defaultColors in
  match search re_clrScheme themeXml with
  | Some schemeMatch =>
      let content := captured 1 (groups schemeMatch) in
      {| Colors.primary := or_else (color_of (js "accent1") content) (Colors.primary colors);
         Colors.secondary := or_else (color_of (js "accent2") content) (Colors.secondary colors);
         Colors.accent := Colors.accent colors;
         Colors.text := or_else (color_of (js "dk1") content) (Colors.text colors);
         Colors.background := or_else (color_of (js "lt1") content) (Colors.background colors) |}
  | None => colors
  end.

(** [<a:ROLE>[\s\S]*?typeface='([^']+)'] *)
Definition re_font (role : jsString) : regex :=
  seq_of [ lit (js "<a:" ++ role ++ js ">"); LazyStar any_unit;
           lit (jq "typeface='"); Group 1 (plus (none_of 34)); Chr (unit_is 34) ].

Definition font_of (role : jsString) (themeXml : jsString) : option jsString :=
  match search (re_font role) themeXml with
  | Some m => Some (captured 1 (groups m))
  | None => None
  end.

(** [extractFontsFromTheme] *)
Definition extractFontsFromTheme (themeXml : jsString) : Fonts.t :=
  {| Fonts.title := or_else (font_of (js "majorFont") themeXml) (Fonts.title defaultFonts);
     Fonts.body := or_else (font_of (js "minorFont") themeXml) (Fonts.body defaultFonts) |}.

(** [/\.(png|jpg|jpeg|gif)$/i] *)
Definition re_image : regex :=
  seq_of [ Chr (unit_ci 46);
           Alt (lit_ci (js "png"))
               (Alt (lit_ci (js "jpg")) (Alt (lit_ci (js "jpeg")) (lit_ci (js "gif"))));
           Eos ].

(** [result.images[fileName] = data]: assignment to a key of an object. *)
Fixpoint set_image (k v : jsString) (images : list (jsString * jsString))
  : list (jsString * jsString) :=
  match images with
  | [] => [(k, v)]
  | (k', v') :: rest =>
      if eqs k k' then (k', v) :: rest else (k', v') :: set_image k v rest
  end.

(** The successive steps of the [try] block of [extractTemplateData]. *)
Definition read_theme (files : list (jsString * outcome payload))
  : outcome (Colors.t * Fonts.t) :=
  match file (js "ppt/theme/theme1.xml") files with
  | Some themeFile =>
      bind themeFile (fun p =>
      ret (extractColorsFromTheme (as_text p), extractFontsFromTheme (as_text p)))
  | None => ret (defaultColors, defaultFonts)
  end.

Definition read_master (files : list (jsString * outcome payload))
  : outcome (list Layout.t) :=
  match file (js "ppt/slideMasters/slideMaster1.xml") files with
  | Some masterFile =>
      bind masterFile (fun p =>
      match extractMasterLayout (as_text p) with
      | Some masterLayout => ret [masterLayout]
      | None => ret []
      end)
  | None => ret []
  end.

Fixpoint read_layouts (extract : jsString -> option Layout.t)
    (files : list (jsString * outcome payload)) (names : list jsString)
    (acc : list Layout.t) : outcome (list Layout.t) :=
  match names with
  | [] => ret acc
  | layoutFile :: rest =>
      match file layoutFile files with
      | Some f =>
          bind f (fun p =>
          match extract (as_text p) with
          | Some layout => read_layouts extract files rest (acc ++ [layout])
          | None => read_layouts extract files rest acc
          end)
      | None => read_layouts extract files rest acc
      end
  end.

Fixpoint read_images (files : list (jsString * outcome payload))
    (names : list jsString) (acc : list (jsString * jsString))
  : outcome (list (jsString * jsString)) :=
  match names with
  | [] => ret acc
  | mediaFile :: rest =>
      match file mediaFile files with
      | Some f =>
          bind f (fun p =>
          let fileName := last_segment 47 mediaFile in
          read_images files rest
            (set_image fileName (js "data:image/png;base64," ++ as_base64 p) acc))
      | None => read_images files rest acc
      end
  end.

Definition layoutFiles (files : list (jsString * outcome payload)) : list jsString :=
  filter (fun name => startsWith name (js "ppt/slideLayouts/") && endsWith name (js ".xml"))
         (map fst files).

Definition mediaFiles (files : list (jsString * outcome payload)) : list jsString :=
  filter (fun name => startsWith name (js "ppt/media/") && test re_image name)
         (map fst files).

Definition extractTemplateData_try (extract : jsString -> option Layout.t)
    (templateFile : upload) : outcome TemplateData.t :=
  bind (loadAsync templateFile) (fun files =>
  bind (read_theme files) (fun theme =>
  bind (read_master files) (fun master =>
  bind (read_layouts extract files (firstn 3 (layoutFiles files)) master) (fun layouts =>
  bind (read_images files (firstn 5 (mediaFiles files)) []) (fun images =>
  ret {| TemplateData.colors := fst theme;
         TemplateData.fonts := snd theme;
         TemplateData.layouts := layouts;
         TemplateData.images := images;
         TemplateData.slideSize :=
           Some {| SlideSize.width := 10; SlideSize.height := 7.5 |}%Q |}))))).

(** [extractTemplateData]: whatever the [try] block throws, the [catch]
    returns the default literal. *)
Definition extractTemplateData (templateFile : upload) : TemplateData.t :=
  match extractTemplateData_try extractLayoutPositions templateFile with
  | inr result => result
  | inl _ => defaultTemplateData
  end.

(** ** What the deck emitter receives *)

Module TextOptions.
Record t := {
  x : Q; y : Q; w : Q; h : Q;
  fontSize : Z;
  bold : bool;
  color : jsString;
  fontFace : jsString;
  align : option jsString;
  valign : option jsString
}.
End TextOptions.

Inductive directive : Type :=
| addText (text : jsString) (options : TextOptions.t)
| setBackground (color : jsString).

Module Deck.
Record t := {
  layout : option SlideSize.t;
  slides : list (list directive);
  fileName : jsString
}.
End Deck.

(** [layout.box?.field || fallback]: a missing box and a zero coordinate
    both give the fallback. *)
Definition coord (b : option Box.t) (field : Box.t -> Q) (fallback : Q) : Q :=
  match b with
  | Some box => if Qeq_bool (field box) 0 then fallback else field box
  | None => fallback
  end.

Definition defaultLayout : Layout.t :=
  {| Layout.name := js "Default";
     Layout.titleBox := Some defaultTitleBox;
     Layout.contentBox := Some defaultContentBox |}.

(** [l.name.toLowerCase().includes('title')] *)
Definition named_title (l : Layout.t) : bool :=
  includes (toLowerCase (Layout.name l)) (js "title").

Definition or_layout (a b : option Layout.t) : option Layout.t :=
  match a with Some _ => a | None => b end.

(** The layout the loop body settles on for a slide of type [type]. *)
Definition chooseLayout (type : jsString) (layouts : list Layout.t) : Layout.t :=
  let layout := nth_error layouts 0 in
  let layout :=
    if eqs type (js "title") && Nat.ltb 1 (List.length layouts) then
      or_layout (find named_title layouts) (nth_error layouts 0)
    else if Nat.ltb 1 (List.length layouts) then
      or_layout (find (fun l => negb (named_title l)) layouts)
                (or_layout (nth_error layouts 1) (nth_error layouts 0))
    else layout in
  match layout with
  | Some l => l
  | None => defaultLayout
  end.

(** The body of [structure.slides.forEach]. [bullet] is the prefix the
    file writes before each item of a bulleted slide. *)
Definition place_slide (choose : jsString -> list Layout.t -> Layout.t)
    (bullet : jsString) (colors : Colors.t) (fonts : Fonts.t)
    (layouts : list Layout.t) (index : nat) (slideData : SlideContent.t)
  : list directive :=
  let layout := choose (SlideContent.type slideData) layouts in
  let tb := Layout.titleBox layout in
  let cb := Layout.contentBox layout in
  let texts :=
    if eqs (SlideContent.type slideData) (js "title") || Nat.eqb index 0 then
      addText (SlideContent.title slideData)
        {| TextOptions.x := coord tb Box.x 1; TextOptions.y := coord tb Box.y 2.5;
           TextOptions.w := coord tb Box.w 8; TextOptions.h := coord tb Box.h 1.5;
           TextOptions.fontSize := 36; TextOptions.bold := true;
           TextOptions.color := Colors.primary colors;
           TextOptions.fontFace := Fonts.title fonts;
           TextOptions.align := Some (js "center"); TextOptions.valign := None |}%Q
      :: match SlideContent.content slideData with
         | [] => []
         | _ :: _ =>
             [ addText (join (js " ") (SlideContent.content slideData))
                 {| TextOptions.x := coord cb Box.x 1;
                    TextOptions.y := coord tb Box.y 2.5 + coord tb Box.h 1.5 + 0.5;
                    TextOptions.w := coord cb Box.w 8; TextOptions.h := 1;
                    TextOptions.fontSize := 18; TextOptions.bold := false;
                    TextOptions.color := Colors.text colors;
                    TextOptions.fontFace := Fonts.body fonts;
                    TextOptions.align := Some (js "center");
                    TextOptions.valign := None |}%Q ]
         end
    else
      let contentText :=
        if eqs (SlideContent.type slideData) (js "bullets")
        then join [10%N] (map (fun item => bullet ++ item) (SlideContent.content slideData))
        else join [10%N; 10%N] (SlideContent.content slideData) in
      [ addText (SlideContent.title slideData)
          {| TextOptions.x := coord tb Box.x 0.5; TextOptions.y := coord tb Box.y 0.5;
             TextOptions.w := coord tb Box.w 9; TextOptions.h := coord tb Box.h 1.2;
             TextOptions.fontSize := 28; TextOptions.bold := true;
             TextOptions.color := Colors.primary colors;
             TextOptions.fontFace := Fonts.title fonts;
             TextOptions.align := None; TextOptions.valign := None |}%Q;
        addText contentText
          {| TextOptions.x := coord cb Box.x 0.5; TextOptions.y := coord cb Box.y 2;
             TextOptions.w := coord cb Box.w 9; TextOptions.h := coord cb Box.h 4.5;
             TextOptions.fontSize := 16; TextOptions.bold := false;
             TextOptions.color := Colors.text colors;
             TextOptions.fontFace := Fonts.body fonts;
             TextOptions.align := None; TextOptions.valign := Some (js "top") |}%Q ] in
  texts ++
  (if match Colors.background colors with [] => false | _ :: _ => true end
      && negb (eqs (Colors.background colors) (js "#ffffff"))
   then [setBackground (Colors.background colors)] else []).

Fixpoint forEach {A B : Type} (f : nat -> A -> B) (index : nat) (l : list A) : list B :=
  match l with
  | [] => []
  | a :: l' => f index a :: forEach f (S index) l'
  end.

(** [/[^\w\s-]/g] *)
Definition re_unwanted : regex :=
  Chr (fun c => negb (is_word c || is_space c || N.eqb c 45)).

(** [/\s+/g] *)
Definition re_spaces : regex := plus is_space.

(** [title.replace(/[^\w\s-]/g, '').trim().replace(/\s+/g, '_').substring(0, 50)] *)
Definition cleanTitle (title : jsString) : jsString :=
  substring0 50 (replace_all re_spaces (js "_") (trim (replace_all re_unwanted [] title))).

(** [cleanTitle || 'Presentation'] *)
Definition fileBase (title : jsString) : jsString :=
  match cleanTitle title with
  | [] => js "Presentation"
  | (_ :: _) as t => t
  end.

Definition createPresentationWithTemplate_with
    (choose : jsString -> list Layout.t -> Layout.t) (bullet : jsString)
    (structure : PresentationStructure.t) (templateData : option TemplateData.t)
  : Deck.t :=
  let colors := match templateData with Some t => TemplateData.colors t | None => defaultColors end in
  let fonts := match templateData with Some t => TemplateData.fonts t | None => defaultFonts end in
  let layouts := match templateData with Some t => TemplateData.layouts t | None => [] end in
  {| Deck.layout := match templateData with Some t => TemplateData.slideSize t | None => None end;
     Deck.slides :=
       forEach (place_slide choose bullet colors fonts layouts) 0
               (PresentationStructure.slides structure);
     Deck.fileName := fileBase (PresentationStructure.title structure) ++ js ".pptx" |}.

(** [createPresentationWithTemplate]; the bullet is the three units the
    file holds there (U+00E2 U+20AC U+00A2) and a space. *)
Definition createPresentationWithTemplate
  : PresentationStructure.t -> option TemplateData.t -> Deck.t :=
  createPresentationWithTemplate_with chooseLayout [226; 8364; 162; 32]%N.

(** ** The outline normaliser: the tail of [generatePresentationStructure] *)

(** [/```json\n?|\n?```/g] *)
Definition re_fence : regex :=
  Alt (Seq (lit (js "```json")) (opt (Chr (unit_is 10))))
      (Seq (opt (Chr (unit_is 10))) (lit (js "```"))).

(** [/\{[\s\S]*\}/] *)
Definition re_object : regex :=
  seq_of [ Chr (unit_is 123); Star any_unit; Chr (unit_is 125) ].

(** [responseText.replace(/```json\n?|\n?```/g, '').trim()] *)
Definition cleanedResponse (responseText : jsString) : jsString :=
  trim (replace_all re_fence [] responseText).

(** [cleanedResponse.match(/\{[\s\S]*\}/)]: the text of the match. *)
Definition jsonMatch (responseText : jsString) : option jsString :=
  match search re_object (cleanedResponse responseText) with
  | Some m => Some (matched m)
  | None => None
  end.

Section Engine.

(** The messages the engine gives the errors it raises itself. *)
Variable syntaxErrorMessage : jsString -> jsString.
Variable typeErrorMessage : value -> jsString.

(** [v.k], which throws on [null]. *)
Definition member (k : jsString) (v : value) : outcome (option value) :=
  match v with
  | VNull => throw (typeErrorMessage v)
  | _ => ret (get k v)
  end.

(** [slide.type = 'title'] in a module (strict code): an object or an
    array takes the property, a primitive makes the assignment throw. *)
Definition assign_title (slide : value) : outcome value :=
  match slide with
  | VObj ps => ret (VObj (assoc_set (js "type") (VStr (js "title")) ps))
  | VArr items ps => ret (VArr items (assoc_set (js "type") (VStr (js "title")) ps))
  | _ => throw (typeErrorMessage slide)
  end.

(** The structure once its [slides] array holds [slides']: the first
    slide is mutated in place, so the key keeps its position. *)
Definition with_slides (structure : value) (slides' : value) : value :=
  match structure with
  | VObj ps => VObj (assoc_set (js "slides") slides' ps)
  | VArr items ps => VArr items (assoc_set (js "slides") slides' ps)
  | _ => structure
  end.

(** From "Parse JSON response" to [return structure]. *)
Definition parseOutline (responseText : jsString) : outcome value :=
  match jsonMatch responseText with
  | None => throw (js "No JSON found in response")
  | Some text =>
      match JSON_parse text with
      | None => throw (syntaxErrorMessage text)
      | Some structure =>
          bind (member (js "title") structure) (fun title =>
          bind (member (js "slides") structure) (fun slides =>
          if negb (truthy_opt title) || negb (isArray slides)
          then throw (js "Invalid structure")
          else
            match slides with
            | Some (VArr (first :: rest) named) =>
                if truthy first then
                  bind (assign_title first) (fun first' =>
                  ret (with_slides structure (VArr (first' :: rest) named)))
                else ret structure
            | _ => ret structure
            end))
      end
  end.

(** The [catch] of [generatePresentationStructure]. *)
Definition rethrow (provider message : jsString) : jsString :=
  if includes message (js "API key") then js "Invalid " ++ provider ++ js " API key"
  else if includes message (js "quota") then js "API quota exceeded"
  else js "Generation failed: " ++ message.

(** [generatePresentationStructure], from the provider's answer on:
    [response] is the text the provider call returned, or what it threw. *)
Definition generatePresentationStructure (provider : jsString)
    (response : outcome jsString) : outcome value :=
  match bind response parseOutline with
  | inr structure => ret structure
  | inl message => throw (rethrow provider message)
  end.

End Engine.

(** ** The structure as the declared interfaces read it *)

Fixpoint strings_of (l : list value) : option (list jsString) :=
  match l with
  | [] => Some []
  | VStr s :: l' =>
      match strings_of l' with Some r => Some (s :: r) | None => None end
  | _ :: _ => None
  end.

(** A value that has the shape of [SlideContent]. *)
Definition asSlideContent (v : value) : option SlideContent.t :=
  match get (js "title") v, get (js "content") v, get (js "type") v with
  | Some (VStr t), Some (VArr items _), Some (VStr ty) =>
      match strings_of items with
      | Some c =>
          Some {| SlideContent.title := t; SlideContent.content := c;
                  SlideContent.type := ty;
                  SlideContent.notes :=
                    match get (js "notes") v with
                    | Some (VStr n) => Some n
                    | _ => None
                    end |}
      | None => None
      end
  | _, _, _ => None
  end.

Fixpoint slides_of (l : list value) : option (list SlideContent.t) :=
  match l with
  | [] => Some []
  | v :: l' =>
      match asSlideContent v, slides_of l' with
      | Some s, Some r => Some (s :: r)
      | _, _ => None
      end
  end.

(** A value that has the shape of [PresentationStructure]. *)
Definition asPresentationStructure (v : value) : option PresentationStructure.t :=
  match get (js "title") v, get (js "slides") v with
  | Some (VStr t), Some (VArr items _) =>
      match slides_of items with
      | Some sl =>
          Some {| PresentationStructure.title := t;
                  PresentationStructure.slides := sl |}
      | None => None
      end
  | _, _ => None
  end.

End Generator.

(* ===================================================================== *)
(** * The second copy of the generator ([src/unnamed/part_001])

    It repeats the file above but for what follows. *)
(* ===================================================================== *)

Module GeneratorCopy.

(** [extractLayoutPositions]: the boxes are not clamped. *)
Definition extractLayoutPositions : jsString -> option Layout.t :=
  Generator.extractLayoutPositions_with Generator.masterBox.

Definition extractTemplateData (templateFile : upload) : TemplateData.t :=
  match Generator.extractTemplateData_try extractLayoutPositions templateFile with
  | inr result => result
  | inl _ => defaultTemplateData
  end.

(** [let layout = layouts[0] || { name: 'Default', ... }] *)
Definition chooseLayout (type : jsString) (layouts : list Layout.t) : Layout.t :=
  match nth_error layouts 0 with
  | Some l => l
  | None => Generator.defaultLayout
  end.

(** [createPresentationWithTemplate]; the bullet is U+2022 and a space. *)
Definition createPresentationWithTemplate
  : PresentationStructure.t -> option TemplateData.t -> Generator.Deck.t :=
  Generator.createPresentationWithTemplate_with chooseLayout [8226; 32]%N.

End GeneratorCopy.

(* ===================================================================== *)
(** * [backend/services/templateAnalyzer.js] and its caller in [server.js] *)
(* ===================================================================== *)

Module Backend.

(** The template description the server builds. *)
Module Placeholder.
Record t := { type : jsString; idx : jsString }.
End Placeholder.

Module LayoutInfo.
Record t := { name : jsString; file : jsString; placeholders : list Placeholder.t }.
End LayoutInfo.

Module ImageInfo.
Record t := { name : jsString; path : jsString; data : jsString }.
End ImageInfo.

Record templateInfo := {
  colors : list jsString;
  fonts : list jsString;
  layouts : list LayoutInfo.t;
  images : list ImageInfo.t;
  slideSize : SlideSize.t
}.

Section Analyzer.

(** [fs.readFileSync(templatePath)] followed by [zip.loadAsync(data)]:
    the stored upload, or the message thrown when the path cannot be read. *)
Variable readFileSync : jsString -> outcome upload.

(** Lines 12 to 93: the extraction over the opened archive, which goes
    through [xml2js] and may throw. *)
Variable analyzeContents :
  list (jsString * outcome payload) -> outcome templateInfo.


(** What the [/generate] handler answers. *)
Inductive response : Type :=
| Status (code : N) (error : jsString)
| Download (path : jsString).

(** The rest of the handler once the template is analysed: the provider
    call and the deck generation. *)
Variable generate : templateInfo -> outcome jsString.


End Analyzer.

End Backend.


(* ===================================================================== *)
(** * The prompt of [generatePresentationStructure]
      ([src/services/presentationGenerator.ts], lines 378 to 395) *)
(* ===================================================================== *)

Module StructurePrompt.

(** The template literal, line by line; [text.substring(0, 4000)] and
    [text.length] count code units. *)
Definition prompt (text guidance : jsString) : jsString :=
  join [10%N]
    [ js "Convert this text into a PowerPoint presentation. Respond with ONLY valid JSON.";
      [];
      jq "Text: '" ++ substring0 4000 text ++ jq "'"
        ++ (if Nat.ltb 4000 (List.length text) then js "..." else []);
      match guidance with
      | [] => []
      | _ :: _ => 10%N :: jq "Guidance: '" ++ guidance ++ jq "'"
      end;
      [];
      js "Required JSON format:";
      js "{";
      jq "  'title': 'Presentation Title',";
      jq "  'slides': [";
      jq "    {'title': 'Slide Title', 'content': ['Point 1', 'Point 2'], 'type': 'title|content|bullets'}";
      js "  ]";
      js "}";
      [];
      js "Rules:";
      js "- Create 6-12 slides based on content";
      jq "- First slide type must be 'title'  ";
      jq "- Use 'bullets' for lists, 'content' for paragraphs";
      js "- Keep content concise and clear" ].

End StructurePrompt.

(* ===================================================================== *)
(** * [backend/services/llmService.js] *)
(* ===================================================================== *)

Module LlmService.

(** What [fetch] and [response.json()] give: the status flag and the
    parsed body. *)
Record reply := { ok : bool; data : value }.

Section Engine.

(** The messages the engine gives the errors it raises itself: the
    [SyntaxError] of [JSON.parse] on a text, the [TypeError] of reading a
    property of [undefined] ([None]) or [null], and the one of calling a
    member that is not a function. *)
Variable syntaxErrorMessage : jsString -> jsString.
Variable readErrorMessage : option value -> jsString -> jsString.
Variable notFunctionMessage : value -> jsString.

(** [String(v)] for a value that is not a string. *)
Variable stringOf : value -> jsString.

(** [receiver.k] *)
Definition read (receiver : option value) (k : jsString) : outcome (option value) :=
  match receiver with
  | None | Some VNull => throw (readErrorMessage receiver k)
  | Some v => ret (get k v)
  end.

(** [receiver[0]] *)
Definition first_of (receiver : option value) : outcome (option value) :=
  match receiver with
  | None | Some VNull => throw (readErrorMessage receiver (js "0"))
  | Some (VArr items named) => ret (nth_error items 0)
  | Some (VStr s) => ret (match s with c :: _ => Some (VStr [c]) | [] => None end)
  | Some (VObj props) => ret (assoc (js "0") props)
  | Some _ => ret None
  end.

(** [text.match(/\{[\s\S]*\}/)] followed by [JSON.parse(jsonMatch[0])]. *)
Definition parseObject (absent : jsString) (text : jsString) : outcome value :=
  match search Generator.re_object text with
  | None => throw absent
  | Some jsonMatch =>
      match JSON_parse (matched jsonMatch) with
      | None => throw (syntaxErrorMessage (matched jsonMatch))
      | Some structure => ret structure
      end
  end.

(** [callGemini], from the answer of the provider on: [response] is the
    text [result.response.text()] returned, or what the calls threw. *)
Definition callGemini (response : outcome jsString) : outcome value :=
  match
    bind response (fun text =>
    bind (parseObject (js "No valid JSON found in LLM response") text) (fun slideStructure =>
    bind (read (Some slideStructure) (js "slides")) (fun slides =>
    if negb (truthy_opt slides) || negb (isArray slides)
    then throw (js "Invalid slide structure from LLM")
    else ret slideStructure)))
  with
  | inr slideStructure => ret slideStructure
  | inl message => throw (js "LLM generation failed: " ++ message)
  end.

(** [new Error(v)]: the message is [String(v)]. *)
Definition messageOf (v : value) : jsString :=
  match v with VStr s => s | _ => stringOf v end.

(** [callOpenAI], from the answer of [fetch] on. *)
Definition callOpenAI (fetched : outcome reply) : outcome value :=
  match
    bind fetched (fun response =>
    if negb (ok response) then
      bind (read (Some (data response)) (js "error")) (fun error =>
      let message :=
        match error with
        | None | Some VNull => None
        | Some e => get (js "message") e
        end in
      match message with
      | Some m => if truthy m then throw (messageOf m) else throw (js "OpenAI API error")
      | None => throw (js "OpenAI API error")
      end)
    else
      bind (read (Some (data response)) (js "choices")) (fun choices =>
      bind (first_of choices) (fun choice =>
      bind (read choice (js "message")) (fun message =>
      bind (read message (js "content")) (fun content =>
      match content with
      | None | Some VNull => throw (readErrorMessage content (js "match"))
      | Some (VStr text) => parseObject (js "No valid JSON found in OpenAI response") text
      | Some v => throw (notFunctionMessage v)
      end)))))
  with
  | inr structure => ret structure
  | inl message => throw (js "OpenAI generation failed: " ++ message)
  end.

(** [callLLM]: each provider with what its service answered. *)
Definition callLLM (provider : jsString)
    (response : outcome jsString) (fetched : outcome reply) : outcome value :=
  if eqs provider (js "gemini") then callGemini response
  else if eqs provider (js "openai") then callOpenAI fetched
  else throw (js "Unsupported LLM provider").

End Engine.

End LlmService.

(* ===================================================================== *)
(** * [backend/services/presentationGenerator.js] *)
(* ===================================================================== *)

Module BackendGenerator.

(** The slide structure, in the shape the prompt asks the provider for:
    every field may be missing ([None]); [content] is an array of strings
    or one string. *)
Inductive content : Type :=
| Items (items : list jsString)
| Block (text : jsString).

Module SlideData.
Record t := {
  layout : option jsString;
  title : option jsString;
  content : option content;
  image : option jsString;
  notes : option jsString
}.
End SlideData.

Module SlideStructure.
Record t := {
  presentationTitle : option jsString;
  slides : list SlideData.t
}.
End SlideStructure.

(** What the deck emitter receives. *)
Module Options.
Record t := {
  x : Q; y : Q; w : Q; h : Q;
  fontSize : Z;
  bold : option bool;
  color : jsString;
  align : option jsString;
  fontFace : jsString;
  lineSpacing : option Z
}.
End Options.

Module Run.
Record t := {
  text : jsString;
  bullet : bool;
  fontSize : Z;
  color : jsString;
  fontFace : jsString;
  lineSpacing : Z
}.
End Run.

Module Frame.
Record t := { x : Q; y : Q; w : Q; h : Q }.
End Frame.

(** [addText] with a string ([None] is [undefined]) or with bullet runs,
    [addShape], [addImage], [addNotes]. *)
Inductive directive : Type :=
| addText (text : option jsString) (options : Options.t)
| addRuns (runs : list Run.t) (frame : Frame.t)
| addShape (shape : jsString) (frame : Frame.t) (fill : jsString)
| addImage (data : jsString) (frame : Frame.t) (objectFit : jsString)
| addNotes (notes : jsString).

Module Pres.
Record t := {
  layout : jsString;
  title : jsString;
  slides : list (list directive);
  outputPath : jsString
}.
End Pres.

(** [v || d] on strings that may be missing. *)
Definition or_string (v : option jsString) (d : jsString) : jsString :=
  match v with
  | Some ((_ :: _) as s) => s
  | _ => d
  end.

(** Truthiness of a string that may be missing, and of [content]: an array
    is truthy, empty or not. *)
Definition present (v : option jsString) : bool :=
  match v with Some (_ :: _) => true | _ => false end.

Definition has_content (c : option content) : bool :=
  match c with
  | Some (Items _) => true
  | Some (Block (_ :: _)) => true
  | _ => false
  end.

(** [slideData.content.length] *)
Definition content_length (c : content) : nat :=
  match c with Items items => List.length items | Block text => List.length text end.

(** [createTitleSlide] *)
Definition createTitleSlide (slideData : SlideData.t)
    (primaryColor secondaryColor : jsString) : list directive :=
  [ addText (Some (or_string (SlideData.title slideData) (js "Presentation Title")))
      {| Options.x := 1; Options.y := 2.5; Options.w := 8; Options.h := 1.5;
         Options.fontSize := 36; Options.bold := Some true;
         Options.color := primaryColor; Options.align := Some (js "center");
         Options.fontFace := js "Calibri"; Options.lineSpacing := None |}%Q ]
  ++ match SlideData.content slideData with
     | Some c =>
         if has_content (Some c) && Nat.ltb 0 (content_length c) then
           let subtitle :=
             match c with
             | Items items => join [32; 226; 8364; 162; 32]%N items
             | Block text => text
             end in
           [ addText (Some subtitle)
               {| Options.x := 1; Options.y := 4.5; Options.w := 8; Options.h := 1;
                  Options.fontSize := 20; Options.bold := None;
                  Options.color := primaryColor; Options.align := Some (js "center");
                  Options.fontFace := js "Calibri"; Options.lineSpacing := None |}%Q ]
         else []
     | None => []
     end
  ++ [ addShape (js "rect")
         {| Frame.x := 0; Frame.y := 6.5; Frame.w := 10; Frame.h := 1 |}%Q
         primaryColor ].

(** [createSectionSlide] *)
Definition createSectionSlide (slideData : SlideData.t)
    (primaryColor secondaryColor : jsString) : list directive :=
  [ addText (SlideData.title slideData)
      {| Options.x := 1; Options.y := 3; Options.w := 8; Options.h := 1.5;
         Options.fontSize := 32; Options.bold := Some true;
         Options.color := secondaryColor; Options.align := Some (js "center");
         Options.fontFace := js "Calibri"; Options.lineSpacing := None |}%Q;
    addShape (js "rect")
      {| Frame.x := 0; Frame.y := 0; Frame.w := 10; Frame.h := 7.5 |}%Q
      primaryColor ].

(** [name.split('.')[0]]: what precedes the first dot. *)
Fixpoint before_dot (name : jsString) : jsString :=
  match name with
  | [] => []
  | c :: rest => if N.eqb c 46 then [] else c :: before_dot rest
  end.

Section Engine.

(** [String.prototype.toLowerCase] as the engine does it: its case mapping
    covers every letter, not only those module [JS] holds. *)
Variable lowerCase : jsString -> jsString.

(** The test of [templateInfo.images.find]. *)
Definition image_matches (wanted : jsString) (img : Backend.ImageInfo.t) : bool :=
  includes (lowerCase (Backend.ImageInfo.name img)) (lowerCase wanted)
  || includes (lowerCase wanted)
              (before_dot (lowerCase (Backend.ImageInfo.name img))).

(** [createContentSlide] *)
Definition createContentSlide (slideData : SlideData.t)
    (primaryColor textColor : jsString) (templateInfo : Backend.templateInfo)
  : list directive :=
  let width := if present (SlideData.image slideData) then 5.5%Q else 9%Q in
  [ addText (Some (or_string (SlideData.title slideData) (js "Slide Title")))
      {| Options.x := 0.5; Options.y := 0.5; Options.w := 9; Options.h := 0.8;
         Options.fontSize := 24; Options.bold := Some true;
         Options.color := primaryColor; Options.align := None;
         Options.fontFace := js "Calibri"; Options.lineSpacing := None |}%Q ]
  ++ match SlideData.content slideData with
     | Some (Items items) =>
         [ addRuns
             (map (fun item =>
                     {| Run.text := item; Run.bullet := true; Run.fontSize := 16;
                        Run.color := textColor; Run.fontFace := js "Calibri";
                        Run.lineSpacing := 20 |}) items)
             {| Frame.x := 0.5; Frame.y := 1.5; Frame.w := width; Frame.h := 5 |}%Q ]
     | Some (Block ((_ :: _) as text)) =>
         [ addText (Some text)
             {| Options.x := 0.5; Options.y := 1.5; Options.w := width; Options.h := 5;
                Options.fontSize := 16; Options.bold := None;
                Options.color := textColor; Options.align := None;
                Options.fontFace := js "Calibri"; Options.lineSpacing := Some 20%Z |}%Q ]
     | _ => []
     end
  ++ match SlideData.image slideData with
     | Some ((_ :: _) as wanted) =>
         match find (image_matches wanted) (Backend.images templateInfo) with
         | Some image =>
             [ addImage (js "data:image/jpeg;base64," ++ Backend.ImageInfo.data image)
                 {| Frame.x := 6.5; Frame.y := 2; Frame.w := 3; Frame.h := 3 |}%Q
                 (js "cover") ]
         | None => []
         end
     | _ => []
     end
  ++ [ addShape (js "rect")
         {| Frame.x := 0.5; Frame.y := 1.2; Frame.w := 2; Frame.h := 0.05 |}%Q
         primaryColor ].

(** [templateInfo.colors[i] || d] *)
Definition color_or (colors : list jsString) (i : nat) (d : jsString) : jsString :=
  or_string (nth_error colors i) d.

(** The message of the [TypeError] that [slideData.layout.toLowerCase()]
    raises on a slide without [layout]. *)
Variable layoutErrorMessage : SlideData.t -> jsString.

(** [slideData.layout.toLowerCase().includes(word)] *)
Definition layout_includes (slideData : SlideData.t) (word : jsString) : outcome bool :=
  match SlideData.layout slideData with
  | Some layout => ret (includes (lowerCase layout) word)
  | None => throw (layoutErrorMessage slideData)
  end.

(** The body of the loop: the slide at index [i]. *)
Definition slide_at (templateInfo : Backend.templateInfo) (i : nat)
    (slideData : SlideData.t) : outcome (list directive) :=
  let colors := Backend.colors templateInfo in
  let primaryColor := color_or colors 0 (js "#1F4E79") in
  let secondaryColor := color_or colors 1 (js "#FFFFFF") in
  let textColor := color_or colors 3 (js "#000000") in
  bind
    (if Nat.eqb i 0 then ret (createTitleSlide slideData primaryColor secondaryColor)
     else
       bind (layout_includes slideData (js "title")) (fun titled =>
       if titled then ret (createTitleSlide slideData primaryColor secondaryColor)
       else
         bind (layout_includes slideData (js "section")) (fun section =>
         if section
            || (present (SlideData.title slideData)
                && negb (has_content (SlideData.content slideData)))
         then ret (createSectionSlide slideData primaryColor secondaryColor)
         else ret (createContentSlide slideData primaryColor textColor templateInfo))))
    (fun placed =>
       ret (placed ++ match SlideData.notes slideData with
                      | Some ((_ :: _) as notes) => [addNotes notes]
                      | _ => []
                      end)).

(** The loop, which stops at the first slide that throws. *)
Fixpoint slides_from (templateInfo : Backend.templateInfo) (i : nat)
    (slides : list SlideData.t) : outcome (list (list directive)) :=
  match slides with
  | [] => ret []
  | slideData :: rest =>
      bind (slide_at templateInfo i slideData) (fun placed =>
      bind (slides_from templateInfo (S i) rest) (fun others =>
      ret (placed :: others)))
  end.

(** [generatePresentation]: [outputPath] is what [path.join] makes of the
    directory and the generated name, [written] what [pres.writeFile]
    yields. *)
Definition generatePresentation (outputPath : jsString) (written : outcome unit)
    (slideStructure : SlideStructure.t) (templateInfo : Backend.templateInfo)
  : outcome Pres.t :=
  match
    bind (slides_from templateInfo 0 (SlideStructure.slides slideStructure)) (fun placed =>
    bind written (fun _ =>
    ret {| Pres.layout := js "LAYOUT_WIDE";
           Pres.title := or_string (SlideStructure.presentationTitle slideStructure)
                                   (js "Generated Presentation");
           Pres.slides := placed;
           Pres.outputPath := outputPath |}))
  with
  | inr pres => ret pres
  | inl message => throw (js "Failed to generate presentation: " ++ message)
  end.

End Engine.

End BackendGenerator.
(* ===================================================================== *)
(** * Auxiliary definitions used to state the properties *)
(* ===================================================================== *)

(** A greedy star before an always-accepting continuation takes the whole
    run of units of the class. *)
Fixpoint drop_while (p : N -> bool) (s : jsString) : jsString :=
  match s with
  | a :: s' => if p a then drop_while p s' else s
  | [] => []
  end.

Fixpoint take_while (p : N -> bool) (s : jsString) : jsString :=
  match s with
  | a :: s' => if p a then a :: take_while p s' else []
  | [] => []
  end.

Definition emit (by_ : jsString) (p : piece) : jsString :=
  match p with Unit c => [c] | Hit _ _ => by_ end.


(** ** The file base name, in the words of the specification *)

(** The word, space and hyphen classes. *)
Definition kept (c : N) : bool := is_word c || is_space c || N.eqb c 45.

(** Every maximal run of white space becomes one underscore; [in_run]
    tells that the unit before was white space already. *)
Fixpoint collapse_runs (in_run : bool) (s : jsString) : jsString :=
  match s with
  | [] => []
  | c :: s' =>
      if is_space c
      then if in_run then collapse_runs true s' else 95%N :: collapse_runs true s'
      else c :: collapse_runs false s'
  end.

(** [s] without the white space at its two ends: the leading run is
    dropped, then the trailing one, read from the end. *)
Definition strip_spaces (s : jsString) : jsString :=
  rev (drop_while is_space (rev (drop_while is_space s))).

(** Strip what is outside the classes, trim, collapse, truncate to 50,
    default to "Presentation". *)
Definition spec_fileBase (title : jsString) : jsString :=
  match firstn 50 (collapse_runs false (strip_spaces (filter kept title))) with
  | [] => js "Presentation"
  | t => t
  end.

(** A unit that is neither a word unit (a letter, a digit, the
    underscore) nor a hyphen: white space, a symbol, a punctuation mark
    other than these two. *)
Definition punctuation (c : N) : bool := negb (is_word c || N.eqb c 45).

(** A hyphen or an underscore: the two punctuation marks the classes keep. *)
Definition kept_mark (c : N) : bool := N.eqb c 45 || N.eqb c 95.

(** An ASCII punctuation mark: one of the units 33 to 47, 58 to 64, 91 to
    96 and 123 to 126. *)
Definition ascii_punctuation (c : N) : bool :=
  between 33 47 c || between 58 64 c || between 91 96 c || between 123 126 c.

(** ** Patterns that cannot cross a given unit *)




(** ** The object text, in the words of the specification *)

(** What follows the first [x]. *)
Fixpoint from_first (x : N) (s : jsString) : option jsString :=
  match s with
  | [] => None
  | a :: s' => if N.eqb x a then Some s' else from_first x s'
  end.

(** [s] cut after its last [x]: the part up to and including it, and the
    rest. *)
Fixpoint split_last (x : N) (s : jsString) : option (jsString * jsString) :=
  match s with
  | [] => None
  | a :: s' =>
      match split_last x s' with
      | Some (m, r) => Some (a :: m, r)
      | None => if N.eqb x a then Some ([a], s') else None
      end
  end.

(** The text from the first opening brace to the last closing brace that
    follows it. *)
Definition object_text (s : jsString) : option jsString :=
  match from_first 123 s with
  | Some r =>
      match split_last 125 r with
      | Some (m, _) => Some (123%N :: m)
      | None => None
      end
  | None => None
  end.

(** Some opening brace of [s] is followed, sooner or later, by a closing
    brace. *)
Definition object_span (s : jsString) : bool :=
  match from_first 123 s with
  | Some r => existsb (N.eqb 125) r
  | None => false
  end.


(** [j] wrapped in a Markdown code fence. *)
Definition fenced (j : jsString) : jsString :=
  js "```json" ++ [10%N] ++ j ++ [10%N] ++ js "```".

(** ** The canvas-clamp invariant and sample inputs *)

(** [0 <= x], [0 <= y], [w <= 10], [h <= 7.5]. *)
Definition on_canvas (b : Box.t) : Prop :=
  (0 <= Box.x b /\ 0 <= Box.y b /\ Box.w b <= 10 /\ Box.h b <= 7.5)%Q.

(** A slide master whose title placeholder is 20 inches wide (18288000
    EMU). *)
Definition wide_master : jsString :=
  jq "<p:sldMaster><p:cSld><p:spTree><p:sp><p:nvSpPr><p:cNvPr id='2' name='Title'/><p:nvPr><p:ph type='title'/></p:nvPr></p:nvSpPr><p:spPr><a:xfrm><a:off x='457200' y='274638'/><a:ext cx='18288000' cy='1143000'/></a:xfrm></p:spPr></p:sp></p:spTree></p:cSld></p:sldMaster>".

(** Two layouts as the extractor returns them. *)
Definition master_layout : Layout.t :=
  {| Layout.name := js "Master Layout";
     Layout.titleBox := Some defaultTitleBox;
     Layout.contentBox := Some defaultContentBox |}.

Definition title_slide_layout : Layout.t :=
  {| Layout.name := js "Title Slide";
     Layout.titleBox := Some {| Box.x := 1; Box.y := 2; Box.w := 8; Box.h := 1.5 |}%Q;
     Layout.contentBox := Some defaultContentBox |}.

(** A colour scheme as office suites write it: dark and light text given as
    system colours, the other roles as sRGB tokens. *)
Definition office_theme : jsString :=
  jq "<a:theme><a:themeElements><a:clrScheme name='Office'><a:dk1><a:sysClr val='windowText' lastClr='000000'/></a:dk1><a:lt1><a:sysClr val='window' lastClr='FFFFFF'/></a:lt1><a:dk2><a:srgbClr val='44546A'/></a:dk2><a:lt2><a:srgbClr val='E7E6E6'/></a:lt2><a:accent1><a:srgbClr val='4472C4'/></a:accent1><a:accent2><a:srgbClr val='ED7D31'/></a:accent2></a:clrScheme></a:themeElements></a:theme>".

(** The same roles, all as sRGB tokens, in another order. *)
Definition shuffled_theme : jsString :=
  jq "<a:theme><a:themeElements><a:clrScheme name='Mixed'><a:accent2><a:srgbClr val='ED7D31'/></a:accent2><a:lt1><a:srgbClr val='FFFFFF'/></a:lt1><a:accent1><a:srgbClr val='4472c4'/></a:accent1><a:dk1><a:srgbClr val='00aaBB'/></a:dk1></a:clrScheme></a:themeElements></a:theme>".

(** Both boxes of a loop state are on the canvas. *)
Definition boxes_on_canvas (st : option Box.t * option Box.t) : Prop :=
  (forall b, fst st = Some b -> on_canvas b) /\
  (forall b, snd st = Some b -> on_canvas b).

(** [o || d] on layouts. *)
Definition first_or (o : option Layout.t) (d : Layout.t) : Layout.t :=
  match o with Some l => l | None => d end.


(** [c] is [s] with some units left out. *)
Inductive remains : jsString -> jsString -> Prop :=
| remains_nil : remains [] []
| remains_keep a c s : remains c s -> remains (a :: c) (a :: s)
| remains_drop a c s : remains c s -> remains c (a :: s).

(** ** Auxiliary notions on continuations and fuel *)

(** A continuation that fails on every string made of units of [s]. *)
Definition fails_within (s : jsString) (k : cont) : Prop :=
  forall s' c', incl s' s -> k s' c' = None.

(** [[^>]*>] at the end of the pattern. *)
Definition to_closing : cont :=
  fun s c => star (none_of 62) s c (fun s' c' => run (Chr (unit_is 62)) s' c' accept).

Ltac fuel_step :=
  match goal with
  | |- context [parse_value (?a - ?b)] =>
      let k := fresh "k" in let Ek := fresh "Ek" in
      destruct (a - b) as [|k] eqn:Ek; [cbn [List.length] in *; lia|]
  | |- context [parse_elements (?a - ?b)] =>
      let k := fresh "k" in let Ek := fresh "Ek" in
      destruct (a - b) as [|k] eqn:Ek; [cbn [List.length] in *; lia|]
  | |- context [parse_members (?a - ?b)] =>
      let k := fresh "k" in let Ek := fresh "Ek" in
      destruct (a - b) as [|k] eqn:Ek; [cbn [List.length] in *; lia|]
  end.

(** A slide layout whose only placeholder is 20 inches wide. *)
Definition wide_layout : jsString :=
  jq "<p:sldLayout><p:cSld name='Title Slide'><p:spTree><p:sp><p:nvSpPr><p:nvPr><p:ph type='ctrTitle'/></p:nvPr></p:nvSpPr><p:spPr><a:xfrm><a:off x='457200' y='274638'/><a:ext cx='18288000' cy='1143000'/></a:xfrm></p:spPr></p:sp></p:spTree></p:cSld></p:sldLayout>".

(** ** Colour schemes whose roles all carry an sRGB token *)

(** The role names of a colour scheme. *)
Definition roles : list jsString :=
  map js [ "dk1"; "lt1"; "dk2"; "lt2"; "accent1"; "accent2"; "accent3";
           "accent4"; "accent5"; "accent6"; "hlink"; "folHlink" ]%string.

(** Six hexadecimal digits, in either case. *)
Definition valid_hex (hex : jsString) : bool :=
  Nat.eqb (List.length hex) 6 && forallb Generator.hex_ci hex.

(** [<a:ROLE><a:srgbClr val='HEX'/></a:ROLE>] *)
Definition entry (role hex : jsString) : jsString :=
  js "<a:" ++ role ++ js ">" ++ jq "<a:srgbClr val='" ++ hex ++ jq "'/>"
  ++ js "</a:" ++ role ++ js ">".

(** The content of a scheme that gives its roles in the order of
    [entries]. *)
Fixpoint scheme_text (entries : list (jsString * jsString)) : jsString :=
  match entries with
  | [] => []
  | (role, hex) :: rest => entry role hex ++ scheme_text rest
  end.

Definition well_formed (entries : list (jsString * jsString)) : bool :=
  forallb (fun e => existsb (eqs (fst e)) roles && valid_hex (snd e)) entries.

(** The token the scheme gives a role, if it names the role. *)
Fixpoint token_of (role : jsString) (entries : list (jsString * jsString))
  : option jsString :=
  match entries with
  | [] => None
  | (r, hex) :: rest => if eqs r role then Some hex else token_of role rest
  end.

(** The field the specification promises for a role. *)
Definition promised (role : jsString) (entries : list (jsString * jsString))
    (default : jsString) : jsString :=
  match token_of role entries with
  | Some hex => 35%N :: toLowerCase hex
  | None => default
  end.

(** What [schemeMatch[1]] is. *)
Definition scheme_content (themeXml : jsString) : option jsString :=
  match search Generator.re_clrScheme themeXml with
  | Some m => Some (captured 1 (groups m))
  | None => None
  end.

(** The captures of the leftmost match. *)
Definition found_groups (r : regex) (s : jsString) : option captures :=
  match search r s with Some m => Some (groups m) | None => None end.

(** [strip_prefix] under the [i] flag. *)
Fixpoint strip_prefix_ci (p s : jsString) : option jsString :=
  match p, s with
  | [], _ => Some s
  | x :: p', y :: s' =>
      if N.eqb (canon x) (canon y) then strip_prefix_ci p' s' else None
  | _ :: _, [] => None
  end.

(** [p] and [s] differ at a position both have. *)
Fixpoint mismatch_ci (p s : jsString) : bool :=
  match p, s with
  | x :: p', y :: s' =>
      if N.eqb (canon x) (canon y) then mismatch_ci p' s' else true
  | _, _ => false
  end.

(** [n] units of the class [p] at the head of [s], and what follows. *)
Fixpoint strip_class (n : nat) (p : N -> bool) (s : jsString) : option jsString :=
  match n with
  | O => Some s
  | S n' =>
      match s with
      | a :: s' => if p a then strip_class n' p s' else None
      | [] => None
      end
  end.

(** What follows [val='] in the colour patterns. *)
Definition after_val : cont :=
  fun s c =>
    run (seq_of [ lit_ci (jq "val='"); Group 1 (times 6 Generator.hex_ci);
                  Chr (unit_ci 34) ]) s c accept.

(** Case analysis on membership in a list of role names. *)
Ltac role_cases H :=
  cbn [roles map In] in H;
  repeat (destruct H as [H|H]; [subst|]); [..|destruct H].


(* ===================================================================== *)
(** * Auxiliary definitions for the further properties *)
(* ===================================================================== *)

(** ** Decks *)

(** The point size the title of the slide at [index] is written in. *)
Definition title_size (index : nat) (s : SlideContent.t) : Z :=
  if eqs (SlideContent.type s) (js "title") || Nat.eqb index 0 then 36%Z else 28%Z.

(** One deck slide per outline slide, in order, each starting with the
    title of its outline slide. *)
Definition follows_outline (slides : list SlideContent.t)
    (deck : list (list Generator.directive)) : Prop :=
  List.length deck = List.length slides /\
  forall i s, nth_error slides i = Some s ->
    exists o rest,
      nth_error deck i = Some (Generator.addText (SlideContent.title s) o :: rest) /\
      Generator.TextOptions.fontSize o = title_size i s.

(** The background colours a slide is given. *)
Definition backgrounds (ds : list Generator.directive) : list jsString :=
  flat_map (fun d => match d with
                     | Generator.setBackground c => [c]
                     | Generator.addText _ _ => []
                     end) ds.

(** The colours a deck is written with. *)
Definition deck_colors (templateData : option TemplateData.t) : Colors.t :=
  match templateData with Some t => TemplateData.colors t | None => defaultColors end.

(** [colors.background && colors.background !== '#ffffff'] *)
Definition painted (bg : jsString) : bool :=
  match bg with [] => false | _ :: _ => negb (eqs bg (js "#ffffff")) end.

(** A unit a file name can hold on every system: a word unit or a hyphen. *)
Definition safe_unit (c : N) : bool := is_word c || N.eqb c 45.

(** ** Scanning a text, as a reader of the patterns would *)

(** [t] is what is left of [s] from some place on. *)
Definition is_suffix (t s : jsString) : Prop := exists pre, s = pre ++ t.

(** [f] at the first place of [s], from the left, where it gives a result. *)
Fixpoint first_at {A : Type} (f : jsString -> option A) (s : jsString) : option A :=
  match f s with
  | Some x => Some x
  | None => match s with [] => None | _ :: s' => first_at f s' end
  end.

(** What follows the first occurrence of [p], and the same whatever the
    case of the ASCII letters. *)
Definition after_first (p : jsString) : jsString -> option jsString :=
  first_at (strip_prefix p).

Definition after_first_ci (p : jsString) : jsString -> option jsString :=
  first_at (strip_prefix_ci p).

(** The text before the first occurrence of [p]. *)
Fixpoint before_first (p s : jsString) : option jsString :=
  match strip_prefix p s with
  | Some _ => Some []
  | None =>
      match s with
      | [] => None
      | a :: s' =>
          match before_first p s' with Some b => Some (a :: b) | None => None end
      end
  end.

(** A value at the head of [s]: one unit or more, none of them a double
    quote, closed by a double quote. *)
Definition quoted (s : jsString) : option jsString :=
  match take_while (none_of 34) s, drop_while (none_of 34) s with
  | a :: v, _ :: _ => Some (a :: v)
  | _, _ => None
  end.

(** [typeface='VALUE'] at the head of [s], the value not empty. *)
Definition typeface_at (s : jsString) : option jsString :=
  match strip_prefix (jq "typeface='") s with
  | Some r => quoted r
  | None => None
  end.

(** The font of a role, in words: after the first [<a:ROLE>], the first
    [typeface] attribute whose value is not empty. *)
Definition spec_font (role themeXml : jsString) : option jsString :=
  match after_first (js "<a:" ++ role ++ js ">") themeXml with
  | Some rest => first_at typeface_at rest
  | None => None
  end.

(** [val='HEX'] at the head of [s], in any letter case: six hexadecimal
    digits between the quotes. *)
Definition token_at (s : jsString) : option jsString :=
  match strip_prefix_ci (jq "val='") s with
  | Some r =>
      match skipn 6 r with
      | q :: _ =>
          if Nat.eqb (List.length (firstn 6 r)) 6
             && forallb Generator.hex_ci (firstn 6 r) && N.eqb q 34
          then Some (firstn 6 r) else None
      | [] => None
      end
  | None => None
  end.

(** The colour of a role, in words: after the first [<a:ROLE>] (in any
    letter case), the first six-digit [val] attribute, lower-cased behind a
    number sign. *)
Definition spec_color (role content : jsString) : option jsString :=
  match after_first_ci (js "<a:" ++ role ++ js ">") content with
  | Some rest =>
      match first_at token_at rest with
      | Some hex => Some (35%N :: toLowerCase hex)
      | None => None
      end
  | None => None
  end.

(** The content of the colour scheme, in words: after the first
    [<a:clrScheme], what lies between the next [>] and the first
    [</a:clrScheme>] that follows it. *)
Definition spec_scheme (themeXml : jsString) : option jsString :=
  match after_first (js "<a:clrScheme") themeXml with
  | Some s1 =>
      match drop_while (none_of 62) s1 with
      | _ :: s2 => before_first (js "</a:clrScheme>") s2
      | [] => None
      end
  | None => None
  end.

(** [o], or [d] when there is none. *)
Definition or_default (o : option jsString) (d : jsString) : jsString :=
  match o with Some v => v | None => d end.

Definition spec_colors (themeXml : jsString) : Colors.t :=
  match spec_scheme themeXml with
  | Some content =>
      {| Colors.primary := or_default (spec_color (js "accent1") content) (js "#2563eb");
         Colors.secondary := or_default (spec_color (js "accent2") content) (js "#7c3aed");
         Colors.accent := js "#059669";
         Colors.text := or_default (spec_color (js "dk1") content) (js "#374151");
         Colors.background := or_default (spec_color (js "lt1") content) (js "#ffffff") |}
  | None => defaultColors
  end.

Definition spec_fonts (themeXml : jsString) : Fonts.t :=
  {| Fonts.title := or_default (spec_font (js "majorFont") themeXml) (js "Calibri");
     Fonts.body := or_default (spec_font (js "minorFont") themeXml) (js "Calibri") |}.

(** What follows the opening tag in the font patterns. *)
Definition typeface_value : cont :=
  fun s c =>
    run (seq_of [ lit (jq "typeface='"); Group 1 (plus (none_of 34));
                  Chr (unit_is 34) ]) s c accept.

(** A colour as the deck emitter is given it: a number sign and six
    lower-case hexadecimal digits. *)
Definition lower_hex (c : N) : bool := is_digit c || between 97 102 c.

Definition hex_colour (s : jsString) : bool :=
  match s with
  | h :: d => N.eqb h 35 && Nat.eqb (List.length d) 6 && forallb lower_hex d
  | [] => false
  end.

(** ** The server-side deck *)

(** Every slide after the first names a layout. *)
Definition laid_out (slides : list BackendGenerator.SlideData.t) : bool :=
  forallb (fun s => match BackendGenerator.SlideData.layout s with
                    | Some _ => true
                    | None => false
                    end) (tl slides).

(** The first slide after the first that names no layout. *)
Definition first_bare (slides : list BackendGenerator.SlideData.t)
  : option BackendGenerator.SlideData.t :=
  find (fun s => match BackendGenerator.SlideData.layout s with
                 | Some _ => false
                 | None => true
                 end) (tl slides).

(** The frame a directive occupies, if it occupies one. *)
Definition frame_of (d : BackendGenerator.directive) : option BackendGenerator.Frame.t :=
  match d with
  | BackendGenerator.addText _ o =>
      Some {| BackendGenerator.Frame.x := BackendGenerator.Options.x o;
              BackendGenerator.Frame.y := BackendGenerator.Options.y o;
              BackendGenerator.Frame.w := BackendGenerator.Options.w o;
              BackendGenerator.Frame.h := BackendGenerator.Options.h o |}
  | BackendGenerator.addRuns _ f => Some f
  | BackendGenerator.addShape _ f _ => Some f
  | BackendGenerator.addImage _ f _ => Some f
  | BackendGenerator.addNotes _ => None
  end.

(** The frame lies in the 10 by 7.5 inch area. *)
Definition in_area (f : BackendGenerator.Frame.t) : bool :=
  Qle_bool 0 (BackendGenerator.Frame.x f) && Qle_bool 0 (BackendGenerator.Frame.y f)
  && Qle_bool (BackendGenerator.Frame.x f + BackendGenerator.Frame.w f) 10
  && Qle_bool (BackendGenerator.Frame.y f + BackendGenerator.Frame.h f) 7.5.

Definition placed_in_area (d : BackendGenerator.directive) : bool :=
  match frame_of d with Some f => in_area f | None => true end.

(** The rectangles, the images and the notes of a slide. *)
Definition rectangles (ds : list BackendGenerator.directive) : list jsString :=
  flat_map (fun d => match d with
                     | BackendGenerator.addShape _ _ fill => [fill]
                     | _ => []
                     end) ds.

Definition pictures (ds : list BackendGenerator.directive) : list jsString :=
  flat_map (fun d => match d with
                     | BackendGenerator.addImage data _ _ => [data]
                     | _ => []
                     end) ds.

Definition notes_of (ds : list BackendGenerator.directive) : list jsString :=
  flat_map (fun d => match d with
                     | BackendGenerator.addNotes n => [n]
                     | _ => []
                     end) ds.

(** The notes a slide asks for. *)
Definition wanted_notes (s : BackendGenerator.SlideData.t) : list jsString :=
  match BackendGenerator.SlideData.notes s with
  | Some (a :: n) => [a :: n]
  | _ => []
  end.

(** ** The provider answers *)

(** The body of a chat completion whose first choice holds [text]. *)
Definition chat_reply (text : jsString) : LlmService.reply :=
  {| LlmService.ok := true;
     LlmService.data :=
       VObj [ (js "choices",
               VArr [ VObj [ (js "message",
                              VObj [ (js "role", VStr (js "assistant"));
                                     (js "content", VStr text) ]) ] ] []) ] |}.

(** What the server places for a slide: the title text first, one
    rectangle filled with the primary colour, the notes the slide asks
    for, one image at most. *)
Definition well_placed (primaryColor : jsString) (s : BackendGenerator.SlideData.t)
    (ds : list BackendGenerator.directive) : Prop :=
  (exists t o rest, ds = BackendGenerator.addText t o :: rest) /\
  rectangles ds = [primaryColor] /\
  notes_of ds = wanted_notes s /\
  (List.length (pictures ds) <= 1)%nat.

(** ** Layout names *)

(** [KEY'VALUE'] at the head of [s], [key] holding the opening quote and
    the value not empty. *)
Definition attribute_at (key s : jsString) : option jsString :=
  match strip_prefix key s with
  | Some r => quoted r
  | None => None
  end.

(** The name of a layout, in words: the value of the first [name]
    attribute of the text whose value is not empty. *)
Definition spec_layout_name (layoutXml : jsString) : jsString :=
  or_default (first_at (attribute_at (jq "name='")) layoutXml) (js "Content Layout").

(** ** The boxes of a layout *)



(* ===================================================================== *)
(** * Properties *)
(* ===================================================================== *)

Unset Implicit Arguments.

(** ** Strings and association lists *)

Lemma eqs_refl (a : jsString) : eqs a a = true.
Proof.
  induction a as [|x a IH]; simpl; [reflexivity|].
  now rewrite N.eqb_refl, IH.
Qed.

Lemma eqs_eq (a b : jsString) : eqs a b = true <-> a = b.
Proof.
  split; [|intros ->; apply eqs_refl].
  revert b; induction a as [|x a IH]; intros [|y b]; simpl; try discriminate; auto.
  intros H. apply andb_true_iff in H as [H1 H2].
  apply N.eqb_eq in H1. apply IH in H2. congruence.
Qed.

Lemma assoc_set_same (k : jsString) (v : value) (ps : list (jsString * value)) :
  assoc k (assoc_set k v ps) = Some v.
Proof.
  induction ps as [|[k' v'] ps IH]; simpl.
  - now rewrite eqs_refl.
  - destruct (eqs k k') eqn:E; simpl; rewrite E; auto.
Qed.

Lemma assoc_set_other (k k' : jsString) (v : value) (ps : list (jsString * value)) :
  eqs k' k = false -> assoc k' (assoc_set k v ps) = assoc k' ps.
Proof.
  intros Hk. induction ps as [|[k0 v0] ps IH]; simpl.
  - now rewrite Hk.
  - destruct (eqs k k0) eqn:E; simpl.
    + apply eqs_eq in E. subst k0. now rewrite Hk.
    + destruct (eqs k' k0); auto.
Qed.

Lemma any_unit_true (c : N) : any_unit c = true.
Proof. unfold any_unit. apply orb_negb_r. Qed.

(** ** The matcher *)

Lemma run_seq_of_cons (r : regex) (l : list regex) s c k :
  run (seq_of (r :: l)) s c k = run r s c (fun s' c' => run (seq_of l) s' c' k).
Proof. destruct l; reflexivity. Qed.

Lemma run_lit (p : jsString) s c k :
  run (lit p) s c k =
  match strip_prefix p s with Some s' => k s' c | None => None end.
Proof.
  unfold lit. revert s. induction p as [|x p IH]; intros s.
  - reflexivity.
  - cbn [map]. rewrite run_seq_of_cons. cbn [run strip_prefix].
    destruct s as [|a s]; [reflexivity|].
    unfold unit_is at 1. destruct (N.eqb x a); [apply IH|reflexivity].
Qed.

Lemma strip_prefix_app (p s : jsString) : strip_prefix p (p ++ s) = Some s.
Proof.
  induction p as [|x p IH]; simpl; [reflexivity|]. now rewrite N.eqb_refl.
Qed.

Lemma strip_prefix_Some (p s r : jsString) :
  strip_prefix p s = Some r -> s = p ++ r.
Proof.
  revert s; induction p as [|x p IH]; intros [|a s]; simpl; try congruence.
  destruct (N.eqb x a) eqn:E; [|discriminate].
  apply N.eqb_eq in E. intros H. apply IH in H. congruence.
Qed.

Lemma take_drop_while p s : take_while p s ++ drop_while p s = s.
Proof. induction s as [|a s IH]; simpl; auto. destruct (p a); simpl; congruence. Qed.

Lemma star_accept p s c : star p s c accept = Some (c, drop_while p s).
Proof.
  induction s as [|a s IH]; simpl; [reflexivity|].
  destruct (p a); [now rewrite IH|reflexivity].
Qed.

(** ** [JSON.parse]: the fuel is enough *)

Lemma skip_ws_length s : List.length (skip_ws s) <= List.length s.
Proof. induction s as [|a s IH]; cbn; [lia|]. destruct (is_json_ws a); cbn; lia. Qed.

Lemma after_unit_length x s r :
  after_unit x s = Some r -> List.length s = S (List.length r).
Proof.
  destruct s as [|a s]; cbn; [discriminate|].
  destruct (N.eqb a x); [now intros [= ->]|discriminate].
Qed.

Lemma strip_prefix_length p s r :
  strip_prefix p s = Some r -> List.length s = List.length p + List.length r.
Proof. intros H. apply strip_prefix_Some in H. subst. apply length_app. Qed.

Lemma parse_string_length s t r :
  parse_string s = Some (t, r) -> List.length r < List.length s.
Proof.
  remember (List.length s) as n eqn:Hn. revert s t r Hn.
  induction n as [n IH] using lt_wf_ind. intros s t r Hn.
  destruct s as [|c rest]; cbn [parse_string]; [discriminate|].
  destruct (N.eqb c 34); [intros [= <- <-]; subst; cbn; lia|].
  destruct (N.eqb c 92).
  - destruct rest as [|e rest1]; [discriminate|].
    destruct (N.eqb e 117).
    + destruct rest1 as [|a [|b [|c' [|d rest2]]]]; try discriminate.
      destruct (hex4 a b c' d); [|discriminate].
      destruct (parse_string rest2) as [[t' r']|] eqn:E; [|discriminate].
      intros [= <- <-]. subst n.
      pose proof (IH (List.length rest2) ltac:(cbn; lia) rest2 _ _ eq_refl E). cbn in *. lia.
    + destruct (escape e); [|discriminate].
      destruct (parse_string rest1) as [[t' r']|] eqn:E; [|discriminate].
      intros [= <- <-]. subst n.
      pose proof (IH (List.length rest1) ltac:(cbn; lia) rest1 _ _ eq_refl E). cbn in *. lia.
  - destruct (N.ltb c 32); [discriminate|].
    destruct (parse_string rest) as [[t' r']|] eqn:E; [|discriminate].
    intros [= <- <-]. subst n.
    pose proof (IH (List.length rest) ltac:(cbn; lia) rest _ _ eq_refl E). cbn in *. lia.
Qed.

Lemma digits_length s d r :
  digits s = (d, r) -> List.length s = List.length d + List.length r.
Proof.
  revert d r. induction s as [|c s IH]; intros d r; cbn [digits].
  - now intros [= <- <-].
  - destruct (is_digit c).
    + destruct (digits s) as [d' r']. intros [= <- <-].
      cbn. now rewrite (IH _ _ eq_refl).
    + now intros [= <- <-].
Qed.

Lemma digits1_length s d r :
  digits1 s = Some (d, r) -> List.length r < List.length s.
Proof.
  unfold digits1. destruct (digits s) as [[|c d'] r'] eqn:E; [discriminate|].
  intros [= <- <-]. apply digits_length in E. cbn in E. lia.
Qed.

Lemma parse_number_length s q r :
  parse_number s = Some (q, r) -> List.length r < List.length s.
Proof.
  unfold parse_number.
  assert (forall s1, List.length s1 <= List.length s ->
            match int_part s1 with
            | Some (i, s2) =>
                match frac_part s2 with
                | Some (f, s3) =>
                    match exp_part s3 with
                    | Some (e, s4) => List.length s4 < List.length s
                    | None => True
                    end
                | None => True
                end
            | None => True
            end) as K.
  { intros s1 L1. unfold int_part.
    assert (forall i s2, Some (i, s2) = match after_unit 48 s1 with
                                        | Some r0 => Some ([48%N], r0)
                                        | None => digits1 s1 end ->
                         List.length s2 < List.length s1) as Hi.
    { intros i s2. destruct (after_unit 48 s1) eqn:E.
      - intros [= -> ->]. apply after_unit_length in E. lia.
      - intros H. symmetry in H. now apply digits1_length in H. }
    destruct (match after_unit 48 s1 with Some r0 => _ | None => _ end)
      as [[i s2]|]; [|exact I].
    specialize (Hi _ _ eq_refl).
    unfold frac_part.
    assert (forall f s3, Some (f, s3) = match after_unit 46 s2 with
                                        | Some r0 => digits1 r0
                                        | None => Some ([], s2) end ->
                         List.length s3 <= List.length s2) as Hf.
    { intros f s3. destruct (after_unit 46 s2) eqn:E.
      - intros H. symmetry in H. apply digits1_length in H.
        apply after_unit_length in E. lia.
      - now intros [= -> ->]. }
    destruct (match after_unit 46 s2 with Some r0 => _ | None => _ end)
      as [[f s3]|]; [|exact I].
    specialize (Hf _ _ eq_refl).
    unfold exp_part. destruct s3 as [|e r3]; [cbn in *; lia|].
    destruct (N.eqb e 101 || N.eqb e 69); [|lia].
    assert (forall b r1, (b, r1) = match after_unit 45 r3, after_unit 43 r3 with
                                   | Some r', _ => (true, r')
                                   | None, Some r' => (false, r')
                                   | None, None => (false, r3) end ->
                         List.length r1 <= List.length r3) as Hs.
    { intros b r1. destruct (after_unit 45 r3) eqn:E1.
      - intros [= -> ->]. apply after_unit_length in E1. lia.
      - destruct (after_unit 43 r3) eqn:E2.
        + intros [= -> ->]. apply after_unit_length in E2. lia.
        + now intros [= -> ->]. }
    destruct (match after_unit 45 r3, after_unit 43 r3 with
              | Some r', _ => _ | None, Some r' => _ | None, None => _ end) as [b r1].
    specialize (Hs _ _ eq_refl).
    destruct (digits1 r1) as [[d r2]|] eqn:E; [|exact I].
    apply digits1_length in E. cbn [List.length] in *. lia. }
  destruct (after_unit 45 s) as [r0|] eqn:E.
  - apply after_unit_length in E. specialize (K r0 ltac:(lia)).
    destruct (int_part r0) as [[i s2]|]; [|discriminate].
    destruct (frac_part s2) as [[f s3]|]; [|discriminate].
    destruct (exp_part s3) as [[e s4]|]; [|discriminate].
    now intros [= <- <-].
  - specialize (K s (Nat.le_refl _)).
    destruct (int_part s) as [[i s2]|]; [|discriminate].
    destruct (frac_part s2) as [[f s3]|]; [|discriminate].
    destruct (exp_part s3) as [[e s4]|]; [|discriminate].
    now intros [= <- <-].
Qed.

Lemma value_step_mono pe pe' pm pm' s x :
  (forall s acc x, pe s acc = Some x -> pe' s acc = Some x) ->
  (forall s acc x, pm s acc = Some x -> pm' s acc = Some x) ->
  value_step pe pm s = Some x -> value_step pe' pm' s = Some x.
Proof.
  intros He Hm. unfold value_step. destruct s as [|a r]; [discriminate|].
  destruct (N.eqb a 123); [destruct (after_unit 125 _); auto|].
  destruct (N.eqb a 91); [destruct (after_unit 93 _); auto|]. auto.
Qed.

Lemma elements_step_mono pv pv' pe pe' s acc x :
  (forall s x, pv s = Some x -> pv' s = Some x) ->
  (forall s acc x, pe s acc = Some x -> pe' s acc = Some x) ->
  elements_step pv pe s acc = Some x -> elements_step pv' pe' s acc = Some x.
Proof.
  intros Hv He. unfold elements_step.
  destruct (pv s) as [[v r]|] eqn:E; [|discriminate]. rewrite (Hv _ _ E).
  destruct (after_unit 44 _); auto.
Qed.

Lemma members_step_mono pv pv' pm pm' s acc x :
  (forall s x, pv s = Some x -> pv' s = Some x) ->
  (forall s acc x, pm s acc = Some x -> pm' s acc = Some x) ->
  members_step pv pm s acc = Some x -> members_step pv' pm' s acc = Some x.
Proof.
  intros Hv Hm. unfold members_step.
  destruct (after_unit 34 s); [|discriminate].
  destruct (parse_string _) as [[k r1]|]; [|discriminate].
  destruct (after_unit 58 _); [|discriminate].
  destruct (pv _) as [[v r3]|] eqn:E; [|discriminate]. rewrite (Hv _ _ E).
  destruct (after_unit 44 _); auto.
Qed.

Lemma parse_mono f :
  (forall s x, parse_value f s = Some x -> parse_value (S f) s = Some x) /\
  (forall s acc x, parse_elements f s acc = Some x -> parse_elements (S f) s acc = Some x) /\
  (forall s acc x, parse_members f s acc = Some x -> parse_members (S f) s acc = Some x).
Proof.
  induction f as [|f (IHv & IHe & IHm)].
  - repeat split; intros; discriminate.
  - repeat split; intros *.
    + apply value_step_mono; assumption.
    + apply elements_step_mono; assumption.
    + apply members_step_mono; assumption.
Qed.

Lemma parse_mono_le f f' :
  f <= f' ->
  (forall s x, parse_value f s = Some x -> parse_value f' s = Some x) /\
  (forall s acc x, parse_elements f s acc = Some x -> parse_elements f' s acc = Some x) /\
  (forall s acc x, parse_members f s acc = Some x -> parse_members f' s acc = Some x).
Proof.
  induction 1 as [|f' L (IHv & IHe & IHm)]; [now repeat split|].
  destruct (parse_mono f') as (Mv & Me & Mm). repeat split; intros *; auto.
Qed.

(** A parse that succeeds with some fuel succeeds with as much fuel as it
    reads units. *)
Lemma parse_bound f :
  (forall s v r, parse_value f s = Some (v, r) ->
     List.length r < List.length s /\
     parse_value (List.length s - List.length r) s = Some (v, r)) /\
  (forall s acc v r, parse_elements f s acc = Some (v, r) ->
     List.length r < List.length s /\
     parse_elements (List.length s - List.length r) s acc = Some (v, r)) /\
  (forall s acc v r, parse_members f s acc = Some (v, r) ->
     List.length r < List.length s /\
     parse_members (List.length s - List.length r) s acc = Some (v, r)).
Proof.
  induction f as [|f (IHv & IHe & IHm)]; [repeat split; intros; discriminate|].
  repeat apply conj.
  - intros s v r H. cbn [parse_value] in H. unfold value_step in H.
    destruct s as [|a r0]; [discriminate|].
    pose proof (skip_ws_length r0) as Lw.
    destruct (N.eqb a 123) eqn:E1; [|destruct (N.eqb a 91) eqn:E2;
                                      [|destruct (N.eqb a 34) eqn:E3]].
    + destruct (after_unit 125 (skip_ws r0)) as [r'|] eqn:E.
      * injection H as <- <-. apply after_unit_length in E as L.
        split; [cbn [List.length]; lia|]. fuel_step.
        cbn [parse_value]. unfold value_step. now rewrite E1, E.
      * apply IHm in H as [L H]. split; [cbn [List.length]; lia|]. fuel_step.
        cbn [parse_value]. unfold value_step. rewrite E1, E.
        refine (proj2 (proj2 (parse_mono_le _ _ _)) _ _ _ H).
        cbn [List.length] in Ek. lia.
    + destruct (after_unit 93 (skip_ws r0)) as [r'|] eqn:E.
      * injection H as <- <-. apply after_unit_length in E as L.
        split; [cbn [List.length]; lia|]. fuel_step.
        cbn [parse_value]. unfold value_step. now rewrite E1, E2, E.
      * apply IHe in H as [L H]. split; [cbn [List.length]; lia|]. fuel_step.
        cbn [parse_value]. unfold value_step. rewrite E1, E2, E.
        refine (proj1 (proj2 (parse_mono_le _ _ _)) _ _ _ H).
        cbn [List.length] in Ek. lia.
    + assert (List.length r < List.length (a :: r0)) as L.
      { destruct (parse_string r0) as [[t r']|] eqn:E; [|discriminate].
        injection H as <- <-. apply parse_string_length in E. cbn [List.length]. lia. }
      split; [exact L|]. fuel_step.
      cbn [parse_value]. unfold value_step. now rewrite E1, E2, E3.
    + assert (List.length r < List.length (a :: r0)) as L.
      { destruct (strip_prefix (js "true") (a :: r0)) as [r1|] eqn:P1.
        { injection H as <- <-. apply strip_prefix_length in P1.
          change (List.length (js "true")) with 4 in P1. lia. }
        destruct (strip_prefix (js "false") (a :: r0)) as [r2|] eqn:P2.
        { injection H as <- <-. apply strip_prefix_length in P2.
          change (List.length (js "false")) with 5 in P2. lia. }
        destruct (strip_prefix (js "null") (a :: r0)) as [r3|] eqn:P3.
        { injection H as <- <-. apply strip_prefix_length in P3.
          change (List.length (js "null")) with 4 in P3. lia. }
        destruct (parse_number (a :: r0)) as [[q r4]|] eqn:P4; [|discriminate].
        injection H as <- <-. now apply parse_number_length in P4. }
      split; [exact L|]. fuel_step.
      cbn [parse_value]. unfold value_step. now rewrite E1, E2, E3.
  - intros s acc v r H. cbn [parse_elements] in H. unfold elements_step in H.
    destruct (parse_value f s) as [[v1 r1]|] eqn:V; [|discriminate].
    apply IHv in V as [L1 V].
    pose proof (skip_ws_length r1) as Lw.
    destruct (after_unit 44 (skip_ws r1)) as [r2|] eqn:E.
    + apply after_unit_length in E as L2.
      pose proof (skip_ws_length r2) as Lw2.
      apply IHe in H as [L H]. split; [lia|]. fuel_step.
      cbn [parse_elements]. unfold elements_step.
      rewrite (proj1 (parse_mono_le (List.length s - List.length r1) k ltac:(lia)) _ _ V), E.
      refine (proj1 (proj2 (parse_mono_le _ _ _)) _ _ _ H). lia.
    + destruct (after_unit 93 (skip_ws r1)) as [r2|] eqn:E'; [|discriminate].
      injection H as <- <-. apply after_unit_length in E' as L2.
      split; [lia|]. fuel_step.
      cbn [parse_elements]. unfold elements_step.
      now rewrite (proj1 (parse_mono_le (List.length s - List.length r1) k ltac:(lia)) _ _ V), E, E'.
  - intros s acc v r H. cbn [parse_members] in H. unfold members_step in H.
    destruct (after_unit 34 s) as [r0|] eqn:Q; [|discriminate].
    apply after_unit_length in Q as LQ.
    destruct (parse_string r0) as [[key r1]|] eqn:K; [|discriminate].
    apply parse_string_length in K as LK.
    pose proof (skip_ws_length r1) as Lw1.
    destruct (after_unit 58 (skip_ws r1)) as [r2|] eqn:C; [|discriminate].
    apply after_unit_length in C as LC.
    pose proof (skip_ws_length r2) as Lw2.
    destruct (parse_value f (skip_ws r2)) as [[v1 r3]|] eqn:V; [|discriminate].
    apply IHv in V as [L3 V].
    pose proof (skip_ws_length r3) as Lw3.
    destruct (after_unit 44 (skip_ws r3)) as [r4|] eqn:E.
    + apply after_unit_length in E as L4.
      pose proof (skip_ws_length r4) as Lw4.
      apply IHm in H as [L H]. split; [lia|]. fuel_step.
      cbn [parse_members]. unfold members_step. rewrite Q, K, C.
      rewrite (proj1 (parse_mono_le (List.length (skip_ws r2) - List.length r3) k ltac:(lia)) _ _ V), E.
      refine (proj2 (proj2 (parse_mono_le _ _ _)) _ _ _ H). lia.
    + destruct (after_unit 125 (skip_ws r3)) as [r4|] eqn:E'; [|discriminate].
      injection H as <- <-. apply after_unit_length in E' as L4.
      split; [lia|]. fuel_step.
      cbn [parse_members]. unfold members_step. rewrite Q, K, C.
      now rewrite (proj1 (parse_mono_le (List.length (skip_ws r2) - List.length r3) k ltac:(lia)) _ _ V), E, E'.
Qed.

(** The fuel [JSON_parse] gives is enough: a text that parses with some
    fuel parses with the fuel of its length. *)
Lemma parse_value_enough fuel text v r :
  parse_value fuel (skip_ws text) = Some (v, r) ->
  parse_value (S (List.length text)) (skip_ws text) = Some (v, r).
Proof.
  intros H. apply (proj1 (parse_bound fuel)) in H as [L H].
  refine (proj1 (parse_mono_le _ _ _) _ _ H).
  pose proof (skip_ws_length text). lia.
Qed.

(** ** The scan *)

Lemma scan_skip (r : regex) (pre rest : jsString) :
  scan r (List.length pre) (pre ++ rest) = scan r 0 rest.
Proof. induction pre as [|a pre IH]; simpl; auto. Qed.

Lemma length_app_minus (pre rest : jsString) :
  List.length (pre ++ rest) - List.length rest = List.length pre.
Proof. rewrite length_app. lia. Qed.

Lemma scan_hit (r : regex) (a : N) (pre rest : jsString) (c : captures) :
  exec_at r (a :: pre ++ rest) = Some (c, rest) ->
  scan r 0 (a :: pre ++ rest) = Hit (a :: pre) c :: scan r 0 rest.
Proof.
  intros H. cbn [scan]. rewrite H.
  change (a :: pre ++ rest) with ((a :: pre) ++ rest).
  rewrite length_app_minus. cbn [List.length].
  rewrite scan_skip. f_equal. f_equal.
  rewrite <- (Nat.add_0_r (S (List.length pre))).
  change (S (List.length pre)) with (List.length (a :: pre)).
  rewrite firstn_app_2. cbn. now rewrite app_nil_r.
Qed.

Lemma scan_miss (r : regex) (a : N) (s : jsString) :
  exec_at r (a :: s) = None ->
  scan r 0 (a :: s) = Unit a :: scan r 0 s.
Proof. intros H. cbn [scan]. now rewrite H. Qed.

Lemma replace_all_hit (r : regex) by_ (a : N) (pre rest : jsString) (c : captures) :
  exec_at r (a :: pre ++ rest) = Some (c, rest) ->
  replace_all r by_ (a :: pre ++ rest) = by_ ++ replace_all r by_ rest.
Proof. intros H. unfold replace_all. now rewrite (scan_hit _ _ _ _ _ H). Qed.

Lemma replace_all_miss (r : regex) by_ (a : N) (s : jsString) :
  exec_at r (a :: s) = None ->
  replace_all r by_ (a :: s) = a :: replace_all r by_ s.
Proof. intros H. unfold replace_all. now rewrite (scan_miss _ _ _ H). Qed.

(** ** The derived file name *)

Lemma exec_at_Chr (p : N -> bool) (a : N) (s : jsString) :
  exec_at (Chr p) (a :: s) = if p a then Some ([], s) else None.
Proof. reflexivity. Qed.

Lemma replace_unwanted (s : jsString) :
  replace_all Generator.re_unwanted [] s = filter kept s.
Proof.
  induction s as [|a s IH]; [reflexivity|].
  pose proof (exec_at_Chr (fun c => negb (is_word c || is_space c || N.eqb c 45)) a s) as E.
  fold Generator.re_unwanted in E. cbn [filter]. unfold kept at 1.
  cbv beta in E. revert E. destruct (is_word a || is_space a || N.eqb a 45); cbn [negb]; intros E.
  - rewrite (replace_all_miss _ _ _ _ E). now rewrite IH.
  - rewrite <- IH. exact (replace_all_hit _ [] a [] s [] E).
Qed.

Lemma collapse_in_run (s : jsString) :
  collapse_runs true s = collapse_runs false (drop_while is_space s).
Proof.
  induction s as [|a s IH]; [reflexivity|]. cbn [collapse_runs drop_while].
  destruct (is_space a) eqn:E; [exact IH|]. cbn [collapse_runs]. now rewrite E.
Qed.

Lemma exec_at_spaces (a : N) (s : jsString) :
  exec_at Generator.re_spaces (a :: s) =
  if is_space a then Some ([], drop_while is_space s) else None.
Proof.
  unfold exec_at, Generator.re_spaces, plus. cbn [run].
  destruct (is_space a); [apply star_accept|reflexivity].
Qed.

Lemma drop_while_length (p : N -> bool) (s : jsString) :
  List.length (drop_while p s) <= List.length s.
Proof. induction s as [|a s IH]; simpl; auto. destruct (p a); simpl; lia. Qed.

Lemma replace_spaces (s : jsString) :
  replace_all Generator.re_spaces (js "_") s = collapse_runs false s.
Proof.
  remember (List.length s) as n eqn:Hn. revert s Hn.
  induction n as [n IH] using lt_wf_ind. intros [|a s] Hn; [reflexivity|].
  pose proof (exec_at_spaces a s) as E. cbn [collapse_runs].
  revert E. destruct (is_space a); intros E.
  - rewrite <- (take_drop_while is_space s) in E at 1.
    rewrite <- (take_drop_while is_space s) at 1.
    rewrite (replace_all_hit _ _ _ _ _ _ E).
    rewrite collapse_in_run.
    rewrite (IH (List.length (drop_while is_space s))); [reflexivity| |reflexivity].
    subst n. cbn [List.length]. pose proof (drop_while_length is_space s). lia.
  - rewrite (replace_all_miss _ _ _ _ E). f_equal.
    apply (IH (List.length s)); [subst n; cbn; lia|reflexivity].
Qed.

Lemma trimStart_drop (s : jsString) : trimStart s = drop_while is_space s.
Proof.
  induction s as [|a s IH]; [reflexivity|]. cbn [trimStart drop_while].
  now destruct (is_space a).
Qed.

Lemma drop_while_snoc (p : N -> bool) (l : jsString) (c : N) :
  drop_while p (l ++ [c])
  = match drop_while p l with
    | [] => if p c then [] else [c]
    | r => r ++ [c]
    end.
Proof.
  induction l as [|a l IH]; cbn [app drop_while]; [reflexivity|].
  destruct (p a); [exact IH|reflexivity].
Qed.

Lemma trimEnd_drop (s : jsString) : trimEnd s = rev (drop_while is_space (rev s)).
Proof.
  induction s as [|c s IH]; [reflexivity|]. cbn [trimEnd rev].
  rewrite drop_while_snoc, IH.
  destruct (drop_while is_space (rev s)) as [|b r] eqn:D.
  - cbn [rev]. now destruct (is_space c).
  - rewrite rev_app_distr. cbn [rev app].
    destruct (rev r ++ [b]) as [|x y] eqn:E; [|reflexivity].
    now destruct (rev r).
Qed.

Lemma trim_strip_spaces (s : jsString) : trim s = strip_spaces s.
Proof. unfold trim, strip_spaces. now rewrite trimEnd_drop, trimStart_drop. Qed.

Lemma fileBase_refines (title : jsString) :
  Generator.fileBase title = spec_fileBase title.
Proof.
  unfold Generator.fileBase, Generator.cleanTitle, spec_fileBase, substring0.
  rewrite replace_unwanted, replace_spaces, trim_strip_spaces.
  destruct (firstn 50 _); reflexivity.
Qed.

Lemma trimStart_spaces (s : jsString) :
  forallb is_space s = true -> trimStart s = [].
Proof.
  induction s as [|a s IH]; [reflexivity|]. cbn [forallb trimStart].
  intros H. apply andb_true_iff in H as [Ha Hs]. now rewrite Ha, IH.
Qed.

Lemma filter_kept_punctuation (s : jsString) :
  forallb punctuation s = true -> forallb is_space (filter kept s) = true.
Proof.
  induction s as [|a s IH]; [reflexivity|]. cbn [forallb filter].
  intros H. apply andb_true_iff in H as [Ha Hs]. specialize (IH Hs).
  unfold punctuation in Ha. unfold kept at 1.
  destruct (is_word a) eqn:Ew; [discriminate|].
  destruct (N.eqb a 45) eqn:Eh; [discriminate|].
  cbn [orb]. rewrite orb_false_r.
  destruct (is_space a) eqn:Es; [|exact IH].
  cbn [forallb]. now rewrite Es, IH.
Qed.

Lemma drop_while_none (p : N -> bool) (s : jsString) :
  forallb (fun c => negb (p c)) s = true -> drop_while p s = s.
Proof.
  destruct s as [|a s]; [reflexivity|]. cbn [forallb drop_while]. intros H.
  apply andb_true_iff in H as [Ha _]. apply negb_true_iff in Ha. now rewrite Ha.
Qed.

Lemma strip_spaces_none (s : jsString) :
  forallb (fun c => negb (is_space c)) s = true -> strip_spaces s = s.
Proof.
  intros H. unfold strip_spaces. rewrite (drop_while_none _ _ H).
  rewrite drop_while_none; [apply rev_involutive|].
  apply forallb_forall. intros x Hx. apply in_rev in Hx.
  rewrite forallb_forall in H. now apply H.
Qed.

Lemma collapse_runs_none (s : jsString) :
  forallb (fun c => negb (is_space c)) s = true ->
  forall b, collapse_runs b s = s.
Proof.
  induction s as [|a s IH]; [reflexivity|]. cbn [forallb collapse_runs]. intros H b.
  apply andb_true_iff in H as [Ha Hs]. apply negb_true_iff in Ha.
  now rewrite Ha, IH.
Qed.

Lemma kept_mark_kept (c : N) :
  kept_mark c = true -> kept c = true /\ is_space c = false.
Proof.
  unfold kept_mark, kept. intros H. apply orb_true_iff in H as [H|H];
    apply N.eqb_eq in H; subst c; split; reflexivity.
Qed.

Lemma filter_all {A : Type} (p : A -> bool) (s : list A) :
  forallb p s = true -> filter p s = s.
Proof.
  induction s as [|a s IH]; [reflexivity|]. cbn [forallb filter]. intros H.
  apply andb_true_iff in H as [Ha Hs]. now rewrite Ha, IH.
Qed.

Lemma strip_spaces_blank (s : jsString) :
  forallb is_space s = true -> strip_spaces s = [].
Proof.
  intros H. rewrite <- trim_strip_spaces. unfold trim.
  now rewrite (trimStart_spaces _ H).
Qed.

(** C7, as the code has it. For every outline title the derived file base
    is the title with the units outside the word, space and hyphen classes
    stripped, the white space at its two ends removed, each maximal run of
    white space collapsed to one underscore, truncated to 50 units, and
    replaced by "Presentation" when that is empty. The title "Q3 Report:
    Growth & Risk!" gives "Q3_Report_Growth_Risk", and "  Budget  2025 ?! "
    gives "Budget_2025". The empty title gives "Presentation", and so does
    every title that holds no ASCII letter, no ASCII digit, no underscore
    and no hyphen. A title made of hyphens and underscores only is not replaced:
    it is kept, cut to 50 units. *)
Theorem fileBase_derivation :
  (forall title, Generator.fileBase title = spec_fileBase title) /\
  Generator.fileBase (js "Q3 Report: Growth & Risk!") = js "Q3_Report_Growth_Risk" /\
  Generator.fileBase (js "  Budget  2025 ?! ") = js "Budget_2025" /\
  Generator.fileBase [] = js "Presentation" /\
  (forall title, forallb punctuation title = true ->
                 Generator.fileBase title = js "Presentation") /\
  (forall title, title <> [] -> forallb kept_mark title = true ->
                 Generator.fileBase title = firstn 50 title).
Proof.
  split; [exact fileBase_refines|].
  split; [vm_compute; reflexivity|].
  split; [vm_compute; reflexivity|].
  split; [vm_compute; reflexivity|].
  split.
  - intros title H. rewrite fileBase_refines. unfold spec_fileBase.
    now rewrite (strip_spaces_blank _ (filter_kept_punctuation _ H)).
  - intros title Hne H. rewrite fileBase_refines. unfold spec_fileBase.
    assert (forallb kept title = true) as K.
    { apply forallb_forall. intros x Hx. rewrite forallb_forall in H.
      now apply kept_mark_kept, H. }
    assert (forallb (fun c => negb (is_space c)) title = true) as S.
    { apply forallb_forall. intros x Hx. rewrite forallb_forall in H.
      apply negb_true_iff. now apply kept_mark_kept, H. }
    rewrite (filter_all _ _ K), (strip_spaces_none _ S), (collapse_runs_none _ S).
    destruct title as [|a title]; [congruence|reflexivity].
Qed.

Lemma fileBase_derivation_witness :
  Generator.fileBase (js "?! ... (#)") = js "Presentation" /\
  Generator.fileBase (js "-_-") = firstn 50 (js "-_-").
Proof.
  destruct fileBase_derivation as (_ & _ & _ & _ & P & K). split.
  - apply P. vm_compute. reflexivity.
  - apply K; [discriminate|vm_compute; reflexivity].
Defined.

(** C7, as stated, fails: a title made of punctuation marks only is not
    always replaced by "Presentation". The hyphen and the underscore are
    in the classes the pattern keeps, so "---" and "___" are the file
    bases of the titles "---" and "___". *)
Lemma hyphens_only_title_is_kept :
  forallb ascii_punctuation (js "---") = true /\
  Generator.fileBase (js "---") = js "---" /\
  forallb ascii_punctuation (js "___") = true /\
  Generator.fileBase (js "___") = js "___" /\
  eqs (js "---") (js "Presentation") = false /\
  eqs (js "___") (js "Presentation") = false.
Proof. repeat split; vm_compute; reflexivity. Qed.

Lemma firstn_before (b b2 rest : jsString) :
  firstn (List.length (b ++ rest) - List.length (b2 ++ rest)) (b ++ rest)
  = firstn (List.length b - List.length b2) b.
Proof.
  rewrite !length_app.
  replace (List.length b + List.length rest - (List.length b2 + List.length rest))
    with (List.length b - List.length b2) by lia.
  rewrite firstn_app.
  replace (List.length b - List.length b2 - List.length b) with 0 by lia.
  cbn. now rewrite app_nil_r.
Qed.









(** ** The object pattern takes the first opening brace to the last closing one *)

Lemma split_last_app x s m r : split_last x s = Some (m, r) -> s = m ++ r.
Proof.
  revert m r. induction s as [|a s IH]; intros m r; cbn [split_last]; [discriminate|].
  destruct (split_last x s) as [[m' r']|].
  - intros [= <- <-]. cbn. f_equal. now apply IH.
  - destruct (N.eqb x a); [|discriminate]. now intros [= <- <-].
Qed.

Lemma split_last_absent x s : ~ In x s -> split_last x s = None.
Proof.
  induction s as [|a s IH]; [reflexivity|]. cbn [In split_last]. intros H.
  rewrite IH by tauto.
  destruct (N.eqb x a) eqn:E; [|reflexivity].
  apply N.eqb_eq in E. subst. tauto.
Qed.


Lemma from_first_app x y q rest :
  from_first x y = Some q -> from_first x (y ++ rest) = Some (q ++ rest).
Proof.
  revert q. induction y as [|a y IH]; intros q; cbn [app from_first]; [discriminate|].
  destruct (N.eqb x a); [now intros [= <-]|apply IH].
Qed.

Lemma from_first_app_none x y rest :
  from_first x y = None -> from_first x (y ++ rest) = from_first x rest.
Proof.
  induction y as [|a y IH]; cbn [app from_first]; [reflexivity|].
  destruct (N.eqb x a); [discriminate|apply IH].
Qed.

Lemma from_first_units x s r c : from_first x s = Some r -> In c r -> In c s.
Proof.
  revert r. induction s as [|a s IH]; intros r; cbn [from_first]; [discriminate|].
  destruct (N.eqb x a).
  - intros [= <-] H. now right.
  - intros H1 H2. right. eapply IH; eassumption.
Qed.



Lemma star_any_last s c :
  star any_unit s c (fun s' c' => run (Chr (unit_is 125)) s' c' accept)
  = match split_last 125 s with Some (_, r) => Some (c, r) | None => None end.
Proof.
  induction s as [|a s IH]; [reflexivity|]. cbn [star split_last].
  rewrite any_unit_true, IH.
  destruct (split_last 125 s) as [[m r]|]; [reflexivity|].
  cbn [run]. unfold unit_is. destruct (N.eqb 125 a); reflexivity.
Qed.

Lemma exec_at_object a s :
  exec_at Generator.re_object (a :: s)
  = if N.eqb 123 a
    then match split_last 125 s with Some (_, r) => Some ([], r) | None => None end
    else None.
Proof.
  unfold exec_at, Generator.re_object. cbn [seq_of run]. unfold unit_is at 1.
  destruct (N.eqb 123 a); [apply star_any_last|reflexivity].
Qed.

Lemma search_object_none s :
  split_last 125 s = None -> search Generator.re_object s = None.
Proof.
  induction s as [|a s IH]; [reflexivity|]. cbn [split_last]. intros H.
  destruct (split_last 125 s) as [[m r]|] eqn:E; [discriminate|].
  cbn [search]. rewrite exec_at_object, E, IH by reflexivity.
  destruct (N.eqb 123 a); reflexivity.
Qed.

Lemma search_object s :
  option_map matched (search Generator.re_object s) = object_text s.
Proof.
  induction s as [|a s IH]; [reflexivity|].
  cbn [search]. rewrite exec_at_object. unfold object_text. cbn [from_first].
  destruct (N.eqb 123 a) eqn:Ea.
  - apply N.eqb_eq in Ea. subst a.
    destruct (split_last 125 s) as [[m r]|] eqn:E.
    + cbn [option_map matched]. f_equal.
      rewrite (split_last_app _ _ _ _ E).
      change (123%N :: m ++ r) with ((123%N :: m) ++ r).
      rewrite length_app_minus.
      rewrite <- (Nat.add_0_r (List.length (123%N :: m))).
      rewrite firstn_app_2. cbn [firstn]. now rewrite app_nil_r.
    + now rewrite (search_object_none _ E).
  - fold (object_text s). rewrite <- IH.
    destruct (search Generator.re_object s); reflexivity.
Qed.

Lemma jsonMatch_object_text raw :
  Generator.jsonMatch raw = object_text (Generator.cleanedResponse raw).
Proof.
  unfold Generator.jsonMatch. rewrite <- search_object.
  destruct (search _ _); reflexivity.
Qed.

(** [object_span] says what its name says. *)
Lemma object_span_iff s :
  object_span s = true <->
  exists pre mid post, s = pre ++ [123%N] ++ mid ++ [125%N] ++ post.
Proof.
  unfold object_span. split.
  - destruct (from_first 123 s) as [r|] eqn:E; [|discriminate]. intros H.
    apply existsb_exists in H as (c & Hc & Ec). apply N.eqb_eq in Ec. subst c.
    apply in_split in Hc as (mid & post & ->).
    revert E. clear. revert mid post.
    induction s as [|a s IH]; intros mid post; cbn [from_first]; [discriminate|].
    destruct (N.eqb 123 a) eqn:Ea.
    + apply N.eqb_eq in Ea. subst a. intros [= ->]. now exists [], mid, post.
    + intros H. destruct (IH _ _ H) as (pre & mid' & post' & ->).
      now exists (a :: pre), mid', post'.
  - intros (pre & mid & post & ->).
    induction pre as [|a pre IH]; cbn [app from_first].
    + change (N.eqb 123 123) with true. cbv iota.
      rewrite existsb_app. cbn. now rewrite orb_true_r.
    + destruct (N.eqb 123 a); [|exact IH].
      apply existsb_exists. exists 125%N. split; [|reflexivity].
      apply in_or_app. right. right. apply in_or_app. right. now left.
Qed.

Lemma object_text_span s : object_span s = false -> object_text s = None.
Proof.
  unfold object_span, object_text.
  destruct (from_first 123 s) as [r|]; [|reflexivity]. intros H.
  rewrite split_last_absent; [reflexivity|]. intros Hin.
  assert (existsb (N.eqb 125) r = true) as K
    by (apply existsb_exists; exists 125%N; split; [exact Hin|reflexivity]).
  congruence.
Qed.

(** ** Trimming around a closing brace *)






(** ** The fence pattern and the closing brace *)











(** ** Cleaning only removes units *)

Lemma remains_refl s : remains s s.
Proof. induction s; constructor; auto. Qed.

Lemma remains_trans a b c : remains a b -> remains b c -> remains a c.
Proof.
  intros H1 H2. revert a H1. induction H2 as [|x b c H2 IH|x b c H2 IH]; intros a H1.
  - exact H1.
  - inversion H1; subst; constructor; auto.
  - constructor. auto.
Qed.

Lemma remains_in x c s : remains c s -> In x c -> In x s.
Proof.
  induction 1 as [|a c s H IH|a c s H IH]; cbn [In]; [tauto| |]; intuition.
Qed.

Lemma remains_scan r s skip :
  remains (flat_map (emit []) (scan r skip s)) s.
Proof.
  revert skip. induction s as [|a s IH]; intros skip; cbn [scan].
  - destruct skip; [destruct (exec_at r []) as [[? ?]|]|]; constructor.
  - destruct skip as [|n]; [|constructor; apply IH].
    destruct (exec_at r (a :: s)) as [[c1 rest]|].
    + destruct (List.length (a :: s) - List.length rest); cbn [flat_map emit app].
      * constructor. apply IH.
      * constructor. apply IH.
    + cbn [flat_map emit app]. constructor. apply IH.
Qed.

Lemma remains_trimStart s : remains (trimStart s) s.
Proof.
  induction s as [|a s IH]; [constructor|]. cbn [trimStart].
  destruct (is_space a); [now constructor|apply remains_refl].
Qed.

Lemma remains_trimEnd s : remains (trimEnd s) s.
Proof.
  induction s as [|a s IH]; [constructor|]. cbn [trimEnd].
  destruct (trimEnd s) as [|b t].
  - destruct (is_space a); now constructor.
  - now constructor.
Qed.

Lemma remains_cleanedResponse raw : remains (Generator.cleanedResponse raw) raw.
Proof.
  unfold Generator.cleanedResponse, trim, replace_all. fold (emit []).
  eapply remains_trans; [apply remains_trimEnd|].
  eapply remains_trans; [apply remains_trimStart|]. apply remains_scan.
Qed.

Lemma object_span_closing s : object_span s = true -> existsb (N.eqb 125) s = true.
Proof.
  unfold object_span. induction s as [|a s IH]; cbn [from_first existsb]; [discriminate|].
  destruct (N.eqb 123 a); intros H; rewrite ?H, ?IH by exact H; apply orb_true_r.
Qed.

Lemma object_span_remains c s :
  remains c s -> object_span c = true -> object_span s = true.
Proof.
  unfold object_span.
  induction 1 as [|a c s H IH|a c s H IH]; cbn [from_first]; [discriminate| |].
  - destruct (N.eqb 123 a); [|exact IH].
    intros E. apply existsb_exists in E as (x & Hx & Ex).
    apply existsb_exists. exists x. split; [|exact Ex]. eapply remains_in; eassumption.
  - intros E. specialize (IH E). destruct (N.eqb 123 a); [|exact IH].
    now apply object_span_closing.
Qed.

Lemma object_span_cleaned raw :
  object_span raw = false -> object_span (Generator.cleanedResponse raw) = false.
Proof.
  intros H. destruct (object_span (Generator.cleanedResponse raw)) eqn:E; [|reflexivity].
  rewrite (object_span_remains _ _ (remains_cleanedResponse raw) E) in H. discriminate.
Qed.

(** ** The outline normaliser *)

Lemma rethrow_no_json provider :
  Generator.rethrow provider (js "No JSON found in response")
  = js "Generation failed: No JSON found in response".
Proof. reflexivity. Qed.

(** C8. For every raw model text that holds no JSON object substring -
    no opening brace followed, sooner or later, by a closing brace, be it in
    the raw text or only in its cleaned form (code fences stripped, trimmed)
    - the normaliser throws "No JSON found in response", which the caller of
    [generatePresentationStructure] receives as "Generation failed: No JSON
    found in response"; no outline is returned. *)
Theorem no_object_no_outline
    (syn : jsString -> jsString) (typ : value -> jsString)
    (provider raw : jsString) :
  object_span (Generator.cleanedResponse raw) = false \/ object_span raw = false ->
  Generator.parseOutline syn typ raw = throw (js "No JSON found in response") /\
  Generator.generatePresentationStructure syn typ provider (inr raw)
  = throw (js "Generation failed: No JSON found in response").
Proof.
  intros H.
  assert (object_span (Generator.cleanedResponse raw) = false) as Hc
    by (destruct H as [H|H]; [exact H|now apply object_span_cleaned]).
  assert (Generator.parseOutline syn typ raw = throw (js "No JSON found in response")) as E.
  { unfold Generator.parseOutline.
    now rewrite jsonMatch_object_text, (object_text_span _ Hc). }
  split; [exact E|].
  unfold Generator.generatePresentationStructure. cbn [bind]. rewrite E.
  unfold throw. now rewrite rethrow_no_json.
Qed.

Lemma no_object_no_outline_witness :
  Generator.parseOutline (fun _ => []) (fun _ => [])
    (js "I am sorry } but there is no outline { here")
  = throw (js "No JSON found in response") /\
  Generator.generatePresentationStructure (fun _ => []) (fun _ => []) (js "gemini")
    (inr (js "I am sorry } but there is no outline { here"))
  = throw (js "Generation failed: No JSON found in response").
Proof.
  apply (no_object_no_outline (fun _ => []) (fun _ => []) (js "gemini")
           (js "I am sorry } but there is no outline { here")).
  right. vm_compute. reflexivity.
Defined.











(** C10. If the text the normaliser extracts parses to an object with a
    non-empty title string and an empty [slides] array, the normaliser
    returns that object unchanged; read through the declared interfaces it
    is an outline with no slide, and deck creation (in either copy of the
    generator) emits a deck with no slide. *)
Theorem empty_outline_empty_deck
    (syn : jsString -> jsString) (typ : value -> jsString)
    (provider raw text : jsString) (structure : value) (t : jsString)
    (named : list (jsString * value)) (template : option TemplateData.t) :
  Generator.jsonMatch raw = Some text ->
  JSON_parse text = Some structure ->
  get (js "title") structure = Some (VStr t) ->
  t <> [] ->
  get (js "slides") structure = Some (VArr [] named) ->
  Generator.parseOutline syn typ raw = inr structure /\
  Generator.generatePresentationStructure syn typ provider (inr raw) = inr structure /\
  Generator.asPresentationStructure structure
  = Some {| PresentationStructure.title := t; PresentationStructure.slides := [] |} /\
  Generator.Deck.slides
    (Generator.createPresentationWithTemplate
       {| PresentationStructure.title := t; PresentationStructure.slides := [] |} template) = [] /\
  Generator.Deck.slides
    (GeneratorCopy.createPresentationWithTemplate
       {| PresentationStructure.title := t; PresentationStructure.slides := [] |} template) = [].
Proof.
  intros M P T Ht S.
  assert (Generator.parseOutline syn typ raw = inr structure) as E.
  { unfold Generator.parseOutline. rewrite M, P. unfold Generator.member.
    destruct structure; try discriminate; cbn [bind ret]; rewrite T, S;
      destruct t; try congruence; reflexivity. }
  split; [exact E|]. split; [|split; [|split; reflexivity]].
  - unfold Generator.generatePresentationStructure. cbn [bind]. now rewrite E.
  - unfold Generator.asPresentationStructure. now rewrite T, S.
Qed.

Lemma empty_outline_empty_deck_witness :
  Generator.parseOutline (fun _ => []) (fun _ => []) (jq "{'title':'Empty','slides':[]}")
  = inr (VObj [ (js "title", VStr (js "Empty")); (js "slides", VArr [] []) ]) /\
  Generator.Deck.slides
    (Generator.createPresentationWithTemplate
       {| PresentationStructure.title := js "Empty"; PresentationStructure.slides := [] |}
       None) = [].
Proof.
  destruct (empty_outline_empty_deck (fun _ => []) (fun _ => []) (js "gemini")
              (jq "{'title':'Empty','slides':[]}") (jq "{'title':'Empty','slides':[]}")
              (VObj [ (js "title", VStr (js "Empty")); (js "slides", VArr [] []) ])
              (js "Empty") [] None) as (H1 & _ & _ & H4 & _).
  - vm_compute. reflexivity.
  - vm_compute. reflexivity.
  - reflexivity.
  - discriminate.
  - reflexivity.
  - split; [exact H1|exact H4].
Defined.

(** ** Layout geometry *)

(** C1 fails on the slide master. [extractMasterLayout] converts the extent
    of the title placeholder without clamping it: an 18288000 EMU extent
    gives a box 20 inches wide, beyond the 10 inch canvas. *)
Theorem master_box_exceeds_canvas :
  exists layout box,
    Generator.extractMasterLayout wide_master = Some layout /\
    Layout.titleBox layout = Some box /\
    (Box.w box == 20)%Q /\ (10 < Box.w box)%Q.
Proof.
  eexists. eexists. split; [vm_compute; reflexivity|].
  split; [reflexivity|]. split; reflexivity.
Qed.

Lemma defaults_on_canvas : on_canvas defaultTitleBox /\ on_canvas defaultContentBox.
Proof. unfold on_canvas. cbn. repeat split; discriminate. Qed.

Lemma layoutBox_on_canvas c : on_canvas (Generator.layoutBox c).
Proof.
  unfold on_canvas, Generator.layoutBox. cbn [Box.x Box.y Box.w Box.h].
  repeat split; first [apply Q.le_max_l | apply Q.le_min_l].
Qed.

Lemma shape_step_on_canvas st shapeMatch :
  boxes_on_canvas st ->
  boxes_on_canvas (Generator.shape_step Generator.layoutBox st shapeMatch).
Proof.
  intros [Ht Hc]. unfold Generator.shape_step.
  destruct (search Generator.re_ph _); [|now split].
  destruct (search Generator.re_position _) as [posMatch|]; [|now split].
  repeat match goal with |- context [if ?b then _ else _] => destruct b end;
    split; cbn [fst snd]; intros b; try (intros [= <-]; apply layoutBox_on_canvas); auto.
Qed.

Lemma fold_shapes_on_canvas shapes st :
  boxes_on_canvas st ->
  boxes_on_canvas (fold_left (Generator.shape_step Generator.layoutBox) shapes st).
Proof.
  revert st. induction shapes as [|m shapes IH]; intros st H; [exact H|].
  cbn [fold_left]. apply IH. now apply shape_step_on_canvas.
Qed.

(** The layout files do satisfy the invariant: every box of a layout that
    [extractLayoutPositions] returns, recovered or fallback, is on the
    canvas. *)
Theorem layout_boxes_on_canvas (layoutXml : jsString) (layout : Layout.t) (box : Box.t) :
  Generator.extractLayoutPositions layoutXml = Some layout ->
  Layout.titleBox layout = Some box \/ Layout.contentBox layout = Some box ->
  on_canvas box.
Proof.
  unfold Generator.extractLayoutPositions, Generator.extractLayoutPositions_with.
  intros [= <-]. cbn [Layout.titleBox Layout.contentBox].
  pose proof (fold_shapes_on_canvas (matchAll Generator.re_shape layoutXml) (None, None)) as H.
  destruct H as [Ht Hc]; [split; cbn; discriminate|].
  destruct (fold_left _ _ _) as [tb cb]. cbn [fst snd] in *.
  unfold Generator.or_box.
  intros [H|H].
  - destruct tb; [now apply Ht|]. injection H as <-. apply defaults_on_canvas.
  - destruct cb; [now apply Hc|]. injection H as <-. apply defaults_on_canvas.
Qed.

Lemma layout_boxes_on_canvas_witness :
  on_canvas {| Box.x := 457200 # 914400; Box.y := 274638 # 914400;
               Box.w := 10; Box.h := 1143000 # 914400 |}%Q.
Proof.
  apply (layout_boxes_on_canvas wide_layout
           {| Layout.name := js "Title Slide";
              Layout.titleBox := Some defaultTitleBox;
              Layout.contentBox :=
                Some {| Box.x := 457200 # 914400; Box.y := 274638 # 914400;
                        Box.w := 10; Box.h := 1143000 # 914400 |}%Q |}).
  - vm_compute. reflexivity.
  - right. reflexivity.
Defined.

(** ** Layout selection *)

(** C2 fails in the second copy of the generator: whatever the slide type
    and the layout names, it takes the first layout; the first copy picks
    by name, as the claim says. *)
Theorem copy_takes_first_layout :
  GeneratorCopy.chooseLayout (js "title") [master_layout; title_slide_layout]
  = master_layout /\
  Generator.chooseLayout (js "title") [master_layout; title_slide_layout]
  = title_slide_layout /\
  GeneratorCopy.chooseLayout (js "bullets") [title_slide_layout; master_layout]
  = title_slide_layout /\
  Generator.chooseLayout (js "bullets") [title_slide_layout; master_layout]
  = master_layout.
Proof. repeat split; vm_compute; reflexivity. Qed.

(** In [src/services/presentationGenerator.ts] the selection follows the
    stated order: with two layouts or more, a slide of type "title" gets the
    first layout whose lower-cased name holds "title", else the first
    layout, and any other slide gets the first layout whose name does not,
    else the second layout; a single layout is taken as it is; without
    layouts the default geometry is used. *)
Theorem chooseLayout_order (type : jsString) (l1 l2 : Layout.t) (more : list Layout.t) :
  Generator.chooseLayout type [] = Generator.defaultLayout /\
  Generator.chooseLayout type [l1] = l1 /\
  Generator.chooseLayout (js "title") (l1 :: l2 :: more)
  = first_or (find Generator.named_title (l1 :: l2 :: more)) l1 /\
  (eqs type (js "title") = false ->
   Generator.chooseLayout type (l1 :: l2 :: more)
   = first_or (find (fun l => negb (Generator.named_title l)) (l1 :: l2 :: more)) l2) /\
  Layout.titleBox Generator.defaultLayout = Some defaultTitleBox /\
  Layout.contentBox Generator.defaultLayout = Some defaultContentBox.
Proof.
  split; [unfold Generator.chooseLayout; cbn; now destruct (eqs type _)|].
  split; [unfold Generator.chooseLayout; cbn; now destruct (eqs type _)|].
  split; [|split; [|split; reflexivity]].
  - unfold Generator.chooseLayout.
    change (eqs (js "title") (js "title")) with true.
    cbn [List.length Nat.ltb Nat.leb andb nth_error].
    now destruct (find _ _).
  - intros H. unfold Generator.chooseLayout. rewrite H.
    cbn [List.length Nat.ltb Nat.leb andb nth_error Generator.or_layout].
    now destruct (find _ _).
Qed.

Lemma chooseLayout_order_witness :
  Generator.chooseLayout (js "content") [title_slide_layout; title_slide_layout; master_layout]
  = first_or (find (fun l => negb (Generator.named_title l))
                   [title_slide_layout; title_slide_layout; master_layout])
             title_slide_layout.
Proof.
  apply (proj1 (proj2 (proj2 (proj2
           (chooseLayout_order (js "content") title_slide_layout title_slide_layout
                               [master_layout]))))).
  vm_compute. reflexivity.
Defined.

(** ** Template analysis failures *)




(** ** Theme colours *)

(** C6 fails when a role carries no sRGB token but a later role does. In
    the usual scheme, where [dk1] and [lt1] are system colours, the lazy
    wildcard runs past their closing tags: both the text and the background
    colour become the token of [dk2], not the defaults. *)
Theorem system_colour_takes_next_token :
  Colors.text (Generator.extractColorsFromTheme office_theme) = js "#44546a" /\
  Colors.background (Generator.extractColorsFromTheme office_theme) = js "#44546a" /\
  Colors.primary (Generator.extractColorsFromTheme office_theme) = js "#4472c4" /\
  Colors.secondary (Generator.extractColorsFromTheme office_theme) = js "#ed7d31" /\
  Colors.text defaultColors = js "#374151" /\
  Colors.background defaultColors = js "#ffffff".
Proof. repeat split; vm_compute; reflexivity. Qed.

(** ** The placeholder pattern never captures a type *)

Lemma star_none p s c k : fails_within s k -> star p s c k = None.
Proof.
  intros Hk. induction s as [|a s IH]; cbn [star]; [apply Hk, incl_refl|].
  rewrite IH by (intros s' c' Hs; apply Hk; now apply incl_tl).
  destruct (p a); apply Hk, incl_refl.
Qed.

Lemma lazy_star_none p s c k : fails_within s k -> lazy_star p s c k = None.
Proof.
  intros Hk. induction s as [|a s IH]; cbn [lazy_star].
  - now rewrite (Hk [] c (incl_refl _)).
  - rewrite (Hk (a :: s) c (incl_refl _)).
    rewrite IH by (intros s' c' Hs; apply Hk; now apply incl_tl). now destruct (p a).
Qed.

Lemma run_none r : forall s c k, fails_within s k -> run r s c k = None.
Proof.
  induction r as [p| |r1 IH1 r2 IH2|r1 IH1 r2 IH2|p|p|i r IH|]; intros s c k Hk; cbn [run].
  - destruct s as [|a s]; [reflexivity|].
    rewrite (Hk s c (incl_tl a (incl_refl s))). now destruct (p a).
  - apply Hk, incl_refl.
  - apply IH1. intros s' c' Hs. apply IH2.
    intros s'' c'' Hs'. apply Hk. eapply incl_tran; eassumption.
  - rewrite IH1 by exact Hk. now apply IH2.
  - now apply star_none.
  - now apply lazy_star_none.
  - apply IH. intros s' c' Hs. now apply Hk.
  - destruct s; [apply Hk, incl_refl|reflexivity].
Qed.

Lemma star_longest_first p s c k x :
  k (drop_while p s) c = Some x -> star p s c k = Some x.
Proof.
  induction s as [|a s IH]; cbn [star drop_while]; [auto|].
  destruct (p a); [|auto]. intros H. now rewrite (IH H).
Qed.

Lemma drop_while_all p s : (forall a, In a s -> p a = true) -> drop_while p s = [].
Proof.
  induction s as [|a s IH]; [reflexivity|]. intros H. cbn [drop_while].
  rewrite (H a (or_introl eq_refl)). apply IH. intros b Hb. apply H. now right.
Qed.

Lemma drop_while_head p s a r : drop_while p s = a :: r -> p a = false.
Proof.
  induction s as [|b s IH]; cbn [drop_while]; [discriminate|].
  destruct (p b) eqn:E; [exact IH|]. now intros [= <- <-].
Qed.

Lemma to_closing_eq s c :
  to_closing s c = match drop_while (none_of 62) s with
                   | [] => None
                   | _ :: r => Some (c, r)
                   end.
Proof.
  unfold to_closing. induction s as [|a s IH]; [reflexivity|].
  cbn [star drop_while]. destruct (none_of 62 a) eqn:E.
  - rewrite IH. destruct (drop_while (none_of 62) s); [|reflexivity].
    cbn [run]. unfold none_of, unit_is in *. apply negb_true_iff in E. now rewrite E.
  - cbn [run]. unfold none_of, unit_is in *. apply negb_false_iff in E. now rewrite E.
Qed.

Lemma to_closing_fails s : ~ In 62%N s -> fails_within s to_closing.
Proof.
  intros H s' c' Hs. rewrite to_closing_eq. rewrite drop_while_all; [reflexivity|].
  intros a Ha. unfold none_of. apply negb_true_iff, N.eqb_neq.
  intros <-. apply H, Hs, Ha.
Qed.

Lemma exec_at_ph_groups s c r :
  exec_at Generator.re_ph s = Some (c, r) -> group 1 c = None.
Proof.
  unfold exec_at, Generator.re_ph. rewrite run_seq_of_cons, run_lit.
  destruct (strip_prefix (js "<p:ph") s) as [s1|]; [|discriminate].
  rewrite run_seq_of_cons. cbn [run].
  set (K := fun s' c' => run (seq_of [opt _; Star (none_of 62); Chr (unit_is 62)]) s' c' accept).
  destruct (drop_while (none_of 62) s1) as [|a rest] eqn:D.
  - (* no closing angle bracket at all: nothing matches *)
    rewrite star_none; [discriminate|].
    assert (~ In 62%N s1) as H62.
    { intros Hin. assert (none_of 62 62 = true) as E.
      { clear -D Hin. induction s1 as [|b s1 IH]; [destruct Hin|].
        cbn [drop_while] in D. destruct (none_of 62 b) eqn:Eb; [|discriminate].
        destruct Hin as [->|Hin]; [exact Eb|now apply IH]. }
      discriminate E. }
    intros s' c' Hs. unfold K. rewrite run_seq_of_cons. unfold opt. cbn [run].
    assert (fails_within s' (fun s'' c'' =>
              run (seq_of [Star (none_of 62); Chr (unit_is 62)]) s'' c'' accept)) as F.
    { intros s'' c'' Hs'. change (to_closing s'' c'' = None).
      apply (to_closing_fails s'); [|exact Hs'].
      intros Hin. apply H62, Hs, Hin. }
    rewrite run_none by exact F. apply F, incl_refl.
  - (* the greedy class stops at the first closing bracket, and the rest
       of the pattern matches there without the optional group *)
    pose proof (drop_while_head _ _ _ _ D) as Ha.
    unfold none_of in Ha. apply negb_false_iff, N.eqb_eq in Ha. subst a.
    assert (K (62%N :: rest) [] = Some ([], rest)) as HK by reflexivity.
    rewrite <- D in HK. rewrite (star_longest_first _ _ _ _ _ HK).
    now intros [= <- <-].
Qed.

Lemma search_exec r s m :
  search r s = Some m -> exists s', exec_at r s' = Some (groups m, after m).
Proof.
  revert m. induction s as [|a s IH]; intros m; cbn [search].
  - destruct (exec_at r []) as [[c rest]|] eqn:E; [|discriminate].
    intros [= <-]. now exists [].
  - destruct (exec_at r (a :: s)) as [[c rest]|] eqn:E.
    + intros [= <-]. now exists (a :: s).
    + destruct (search r s) as [f|]; [|discriminate].
      intros [= <-]. cbn [groups after]. now apply IH.
Qed.

Lemma shape_step_title mkBox st shapeMatch :
  fst st = None -> fst (Generator.shape_step mkBox st shapeMatch) = None.
Proof.
  intros H. unfold Generator.shape_step.
  destruct (search Generator.re_ph _) as [phMatch|] eqn:P; [|exact H].
  destruct (search_exec _ _ _ P) as (s' & E).
  rewrite (exec_at_ph_groups _ _ _ E).
  destruct (search Generator.re_position _); [|exact H].
  change (eqs (js "content") (js "title")) with false.
  change (eqs (js "content") (js "ctrTitle")) with false.
  cbn [orb]. now destruct (_ || _).
Qed.

(** The greedy [[^>]*] before the optional [type] group takes the
    attribute with it, so the group never takes part in a match: every
    placeholder is read as of type "content", and no layout file gives a
    title box. In both copies the title box of an extracted layout is the
    fallback box. *)
Theorem layout_title_box_is_fallback (layoutXml : jsString) :
  (forall layout, Generator.extractLayoutPositions layoutXml = Some layout ->
                  Layout.titleBox layout = Some defaultTitleBox) /\
  (forall layout, GeneratorCopy.extractLayoutPositions layoutXml = Some layout ->
                  Layout.titleBox layout = Some defaultTitleBox).
Proof.
  assert (forall mkBox shapes st, fst st = None ->
            fst (fold_left (Generator.shape_step mkBox) shapes st) = None) as F.
  { intros mkBox shapes. induction shapes as [|m shapes IH]; intros st H; [exact H|].
    cbn [fold_left]. apply IH. now apply shape_step_title. }
  split; intros layout;
    unfold Generator.extractLayoutPositions, GeneratorCopy.extractLayoutPositions,
           Generator.extractLayoutPositions_with;
    intros [= <-]; cbn [Layout.titleBox]; now rewrite F.
Qed.

(** ** Colour schemes: each role finds its own token *)

Lemma run_lit_ci (p : jsString) s c k :
  run (lit_ci p) s c k =
  match strip_prefix_ci p s with Some s' => k s' c | None => None end.
Proof.
  unfold lit_ci. revert s. induction p as [|x p IH]; intros s.
  - reflexivity.
  - cbn [map]. rewrite run_seq_of_cons. cbn [run strip_prefix_ci].
    destruct s as [|a s]; [reflexivity|].
    unfold unit_ci at 1. destruct (N.eqb (canon x) (canon a)); [apply IH|reflexivity].
Qed.

Lemma strip_prefix_ci_app p s : strip_prefix_ci p (p ++ s) = Some s.
Proof. induction p as [|x p IH]; cbn; [reflexivity|]. now rewrite N.eqb_refl. Qed.

Lemma mismatch_ci_none p s more :
  mismatch_ci p s = true -> strip_prefix_ci p (s ++ more) = None.
Proof.
  revert s. induction p as [|x p IH]; intros [|y s]; cbn; try discriminate.
  destruct (N.eqb (canon x) (canon y)); [apply IH|reflexivity].
Qed.

Lemma run_times n p s c k :
  run (times n p) s c k =
  match strip_class n p s with Some s' => k s' c | None => None end.
Proof.
  unfold times. revert s. induction n as [|n IH]; intros s.
  - reflexivity.
  - cbn [repeat]. rewrite run_seq_of_cons. cbn [run strip_class].
    destruct s as [|a s]; [reflexivity|]. destruct (p a); [apply IH|reflexivity].
Qed.

Lemma strip_class_app p u more :
  forallb p u = true -> strip_class (List.length u) p (u ++ more) = Some more.
Proof.
  induction u as [|a u IH]; cbn; [reflexivity|]. intros H.
  apply andb_true_iff in H as [Ha Hu]. rewrite Ha. now apply IH.
Qed.

Lemma after_val_eq s c :
  after_val s c =
  match strip_prefix_ci (jq "val='") s with
  | Some s3 =>
      match strip_class 6 Generator.hex_ci s3 with
      | Some (q :: s5) =>
          if unit_ci 34 q
          then Some ((1, firstn (List.length s3 - List.length (q :: s5)) s3) :: c, s5)
          else None
      | _ => None
      end
  | None => None
  end.
Proof.
  unfold after_val. rewrite run_seq_of_cons, run_lit_ci.
  destruct (strip_prefix_ci _ s) as [s3|]; [|reflexivity].
  rewrite run_seq_of_cons. cbn [run]. rewrite run_times.
  destruct (strip_class 6 _ s3) as [[|q s5]|]; reflexivity.
Qed.

Lemma after_val_filter a s c :
  N.eqb (canon 118) (canon a) = false -> after_val (a :: s) c = None.
Proof. intros H. rewrite after_val_eq. cbn [strip_prefix_ci jq js map list_ascii_of_string].
  change (canon (if N.eqb (N_of_ascii "v") 39 then 34%N else N_of_ascii "v")) with (canon 118).
  now rewrite H.
Qed.

Lemma after_val_hit hex more c :
  valid_hex hex = true ->
  after_val (jq "val='" ++ hex ++ 34%N :: more) c = Some ((1, hex) :: c, more).
Proof.
  intros H. apply andb_true_iff in H as [Hl Hh]. apply Nat.eqb_eq in Hl.
  rewrite after_val_eq, strip_prefix_ci_app.
  rewrite <- Hl, (strip_class_app _ _ _ Hh).
  change (unit_ci 34 34) with true. cbv iota.
  change (List.length (34%N :: more)) with (List.length ([] ++ 34%N :: more)).
  rewrite firstn_before. cbn [List.length]. rewrite Nat.sub_0_r.
  now rewrite firstn_all.
Qed.

Lemma lazy_star_skip u tail c :
  forallb (fun a => negb (N.eqb (canon 118) (canon a))) u = true ->
  lazy_star any_unit (u ++ tail) c after_val = lazy_star any_unit tail c after_val.
Proof.
  induction u as [|a u IH]; [reflexivity|]. cbn [forallb app]. intros H.
  apply andb_true_iff in H as [Ha Hu]. apply negb_true_iff in Ha.
  cbn [lazy_star]. rewrite (after_val_filter _ _ _ Ha), any_unit_true. now apply IH.
Qed.

Lemma exec_at_color role s :
  exec_at (Generator.re_color role) s =
  match strip_prefix_ci (js "<a:" ++ role ++ js ">") s with
  | Some s1 => lazy_star any_unit s1 [] after_val
  | None => None
  end.
Proof.
  unfold exec_at, Generator.re_color. rewrite run_seq_of_cons, run_lit_ci.
  destruct (strip_prefix_ci _ s); reflexivity.
Qed.

Lemma exec_at_color_filter role a s :
  N.eqb 60 (canon a) = false -> exec_at (Generator.re_color role) (a :: s) = None.
Proof.
  intros H. rewrite exec_at_color.
  change (js "<a:" ++ role ++ js ">") with (60%N :: js "a:" ++ role ++ js ">").
  cbn [strip_prefix_ci]. change (canon 60) with 60%N. now rewrite H.
Qed.

Lemma exec_at_color_hit role hex more :
  valid_hex hex = true ->
  exec_at (Generator.re_color role) (entry role hex ++ more)
  = Some ([(1, hex)], jq "/>" ++ js "</a:" ++ role ++ js ">" ++ more).
Proof.
  intros H. rewrite exec_at_color. unfold entry.
  rewrite <- !app_assoc.
  replace (js "<a:" ++ role ++ js ">" ++ jq "<a:srgbClr val='" ++ hex ++ jq "'/>"
           ++ js "</a:" ++ role ++ js ">" ++ more)
    with ((js "<a:" ++ role ++ js ">")
          ++ (js "<a:srgbClr " ++ (jq "val='" ++ hex ++ 34%N :: jq "/>" ++ js "</a:"
                                    ++ role ++ js ">" ++ more)))
    by (rewrite <- !app_assoc; reflexivity).
  rewrite strip_prefix_ci_app.
  rewrite lazy_star_skip by (vm_compute; reflexivity).
  destruct (jq "val='" ++ hex ++ 34%N :: jq "/>" ++ js "</a:" ++ role ++ js ">" ++ more)
    as [|a t] eqn:E; [discriminate|].
  cbn [lazy_star]. rewrite <- E, (after_val_hit _ _ _ H). reflexivity.
Qed.

Lemma found_groups_hit r s c rest :
  exec_at r s = Some (c, rest) -> found_groups r s = Some c.
Proof. intros H. unfold found_groups. destruct s; cbn [search]; now rewrite H. Qed.

Lemma found_groups_miss r a s :
  exec_at r (a :: s) = None -> found_groups r (a :: s) = found_groups r s.
Proof.
  intros H. unfold found_groups. cbn [search]. rewrite H.
  destruct (search r s); reflexivity.
Qed.

Lemma found_groups_skip role u more :
  forallb (fun a => negb (N.eqb 60 (canon a))) u = true ->
  found_groups (Generator.re_color role) (u ++ more)
  = found_groups (Generator.re_color role) more.
Proof.
  induction u as [|a u IH]; [reflexivity|]. cbn [forallb app]. intros H.
  apply andb_true_iff in H as [Ha Hu]. apply negb_true_iff in Ha.
  rewrite found_groups_miss by now apply exec_at_color_filter. now apply IH.
Qed.

Lemma found_groups_mismatch role s more :
  mismatch_ci (js "<a:" ++ role ++ js ">") s = true ->
  forall a t, s ++ more = a :: t ->
  found_groups (Generator.re_color role) (s ++ more)
  = found_groups (Generator.re_color role) t.
Proof.
  intros H a t E. rewrite E. apply found_groups_miss. rewrite <- E.
  rewrite exec_at_color. now rewrite (mismatch_ci_none _ _ _ H).
Qed.

Lemma hex_not_angle hex :
  forallb Generator.hex_ci hex = true ->
  forallb (fun a => negb (N.eqb 60 (canon a))) hex = true.
Proof.
  induction hex as [|h hex IH]; [reflexivity|]. cbn [forallb]. intros H.
  apply andb_true_iff in H as [Hh Hx]. rewrite (IH Hx), andb_true_r.
  destruct (N.eqb 60 (canon h)) eqn:E; [|reflexivity].
  apply N.eqb_eq in E. unfold Generator.hex_ci in Hh. rewrite <- E in Hh. discriminate.
Qed.

(** An entry for another role is passed over. *)
Lemma skip_entry role tag hex more :
  valid_hex hex = true ->
  forallb (fun a => negb (N.eqb 60 (canon a))) tag = true ->
  mismatch_ci (js "<a:" ++ role ++ js ">") (js "<a:" ++ tag ++ js ">") = true ->
  mismatch_ci (js "<a:" ++ role ++ js ">") (js "<a:s") = true ->
  found_groups (Generator.re_color role) (entry tag hex ++ more)
  = found_groups (Generator.re_color role) more.
Proof.
  intros Hhex Htag M1 M2. apply andb_true_iff in Hhex as [_ Hh].
  apply hex_not_angle in Hh.
  assert (forall u v, forallb (fun a => negb (N.eqb 60 (canon a))) u = true ->
                      forallb (fun a => negb (N.eqb 60 (canon a))) v = true ->
                      forallb (fun a => negb (N.eqb 60 (canon a))) (u ++ v) = true) as A
    by (intros u v Hu Hv; rewrite forallb_app; now rewrite Hu, Hv).
  unfold entry. rewrite <- !app_assoc.
  (* the opening tag *)
  transitivity (found_groups (Generator.re_color role)
                  ((js "a:" ++ tag ++ js ">") ++ jq "<a:srgbClr val='" ++ hex ++ jq "'/>"
                   ++ js "</a:" ++ tag ++ js ">" ++ more)).
  { replace (js "<a:" ++ tag ++ js ">" ++ jq "<a:srgbClr val='" ++ hex ++ jq "'/>"
             ++ js "</a:" ++ tag ++ js ">" ++ more)
      with ((js "<a:" ++ tag ++ js ">") ++ jq "<a:srgbClr val='" ++ hex ++ jq "'/>"
            ++ js "</a:" ++ tag ++ js ">" ++ more)
      by (rewrite <- !app_assoc; reflexivity).
    apply (found_groups_mismatch _ _ _ M1 60%N).
    rewrite <- !app_assoc. reflexivity. }
  rewrite found_groups_skip
    by (apply A; [reflexivity|apply A; [exact Htag|reflexivity]]).
  (* the token element *)
  transitivity (found_groups (Generator.re_color role)
                  ((jq "a:srgbClr val='" ++ hex ++ jq "'/>")
                   ++ js "</a:" ++ tag ++ js ">" ++ more)).
  { replace (jq "<a:srgbClr val='" ++ hex ++ jq "'/>" ++ js "</a:" ++ tag ++ js ">" ++ more)
      with (js "<a:s" ++ (jq "rgbClr val='" ++ hex ++ jq "'/>"
                          ++ js "</a:" ++ tag ++ js ">" ++ more))
      by reflexivity.
    apply (found_groups_mismatch _ _ _ M2 60%N).
    rewrite <- !app_assoc. reflexivity. }
  rewrite found_groups_skip
    by (apply A; [reflexivity|apply A; [exact Hh|reflexivity]]).
  (* the closing tag *)
  transitivity (found_groups (Generator.re_color role)
                  ((js "/a:" ++ tag ++ js ">") ++ more)).
  { replace (js "</a:" ++ tag ++ js ">" ++ more)
      with (js "</" ++ (js "a:" ++ tag ++ js ">" ++ more)) by reflexivity.
    apply (found_groups_mismatch role (js "</") _ eq_refl 60%N).
    rewrite <- !app_assoc. reflexivity. }
  apply found_groups_skip. apply A; [reflexivity|apply A; [exact Htag|reflexivity]].
Qed.

Lemma colour_lookup role entries :
  In role (map js [ "dk1"; "lt1"; "accent1"; "accent2" ]%string) ->
  well_formed entries = true ->
  found_groups (Generator.re_color role) (scheme_text entries)
  = match token_of role entries with
    | Some hex => Some [(1, hex)]
    | None => None
    end.
Proof.
  intros Hrole. induction entries as [|[tag hex] rest IH]; intros W.
  - unfold found_groups. cbn [scheme_text search]. rewrite exec_at_color.
    role_cases Hrole; reflexivity.
  - cbn [well_formed forallb fst snd] in W.
    apply andb_true_iff in W as [W1 W]. apply andb_true_iff in W1 as [Wt Wh].
    fold (well_formed rest) in W. specialize (IH W).
    cbn [scheme_text token_of].
    destruct (eqs tag role) eqn:E.
    + apply eqs_eq in E. subst tag.
      eapply found_groups_hit. now apply exec_at_color_hit.
    + rewrite <- IH.
      apply existsb_exists in Wt as (tag' & Hin & Et). apply eqs_eq in Et. subst tag'.
      role_cases Hrole; role_cases Hin;
        first [ discriminate E
              | apply skip_entry; [exact Wh|reflexivity|reflexivity|reflexivity] ].
Qed.

Lemma color_of_found role content :
  Generator.color_of role content =
  match found_groups (Generator.re_color role) content with
  | Some c => Some (35%N :: toLowerCase (captured 1 c))
  | None => None
  end.
Proof.
  unfold Generator.color_of, found_groups. now destruct (search _ content).
Qed.

Lemma color_of_scheme role entries default :
  In role (map js [ "dk1"; "lt1"; "accent1"; "accent2" ]%string) ->
  well_formed entries = true ->
  Generator.or_else (Generator.color_of role (scheme_text entries)) default
  = promised role entries default.
Proof.
  intros Hrole W. rewrite color_of_found, (colour_lookup _ _ Hrole W).
  unfold promised. now destruct (token_of role entries).
Qed.

(** The part of C6 that holds. When the colour scheme of a theme consists
    of role elements that each carry an sRGB token of six hexadecimal
    digits, in any order, the text, background, primary and secondary
    fields are the tokens of [dk1], [lt1], [accent1] and [accent2],
    lower-cased after a hash sign, and a role the scheme does not name
    keeps its default. *)
Theorem scheme_roles_in_any_order
    (themeXml : jsString) (entries : list (jsString * jsString)) :
  scheme_content themeXml = Some (scheme_text entries) ->
  well_formed entries = true ->
  Colors.text (Generator.extractColorsFromTheme themeXml)
  = promised (js "dk1") entries (js "#374151") /\
  Colors.background (Generator.extractColorsFromTheme themeXml)
  = promised (js "lt1") entries (js "#ffffff") /\
  Colors.primary (Generator.extractColorsFromTheme themeXml)
  = promised (js "accent1") entries (js "#2563eb") /\
  Colors.secondary (Generator.extractColorsFromTheme themeXml)
  = promised (js "accent2") entries (js "#7c3aed") /\
  Colors.accent (Generator.extractColorsFromTheme themeXml) = js "#059669".
Proof.
  intros S W. unfold Generator.extractColorsFromTheme.
  unfold scheme_content in S.
  destruct (search Generator.re_clrScheme themeXml) as [m|]; [|discriminate].
  injection S as S. rewrite S.
  cbn [Colors.text Colors.background Colors.primary Colors.secondary Colors.accent].
  repeat split; try reflexivity; apply color_of_scheme; cbn; auto 6.
Qed.

Lemma scheme_roles_in_any_order_witness :
  Colors.text (Generator.extractColorsFromTheme shuffled_theme) = js "#00aabb" /\
  Colors.background (Generator.extractColorsFromTheme shuffled_theme) = js "#ffffff" /\
  Colors.primary (Generator.extractColorsFromTheme shuffled_theme) = js "#4472c4" /\
  Colors.secondary (Generator.extractColorsFromTheme shuffled_theme) = js "#ed7d31" /\
  Colors.accent (Generator.extractColorsFromTheme shuffled_theme) = js "#059669".
Proof.
  apply (scheme_roles_in_any_order shuffled_theme
           [ (js "accent2", js "ED7D31"); (js "lt1", js "FFFFFF");
             (js "accent1", js "4472c4"); (js "dk1", js "00aaBB") ]).
  - vm_compute. reflexivity.
  - vm_compute. reflexivity.
Defined.

(* ===================================================================== *)
(** * Further properties of the code *)
(* ===================================================================== *)

(** ** What the template extractor keeps *)

Lemma read_layouts_length extract files names :
  forall acc layouts,
    Generator.read_layouts extract files names acc = inr layouts ->
    (List.length layouts <= List.length acc + List.length names)%nat.
Proof.
  induction names as [|n names IH]; intros acc layouts; cbn [Generator.read_layouts].
  - intros [= <-]. lia.
  - destruct (file n files) as [[m|p]|]; cbn [bind].
    + discriminate.
    + destruct (extract (as_text p)).
      * intros H. apply IH in H. rewrite length_app in H. cbn [List.length] in *. lia.
      * intros H. apply IH in H. cbn [List.length]. lia.
    + intros H. apply IH in H. cbn [List.length]. lia.
Qed.

Lemma set_image_length k v images :
  (List.length (Generator.set_image k v images) <= S (List.length images))%nat.
Proof.
  induction images as [|[k' v'] images IH]; cbn [Generator.set_image List.length]; [lia|].
  destruct (eqs k k'); cbn [List.length]; lia.
Qed.

Lemma read_images_length files names :
  forall acc images,
    Generator.read_images files names acc = inr images ->
    (List.length images <= List.length acc + List.length names)%nat.
Proof.
  induction names as [|n names IH]; intros acc images; cbn [Generator.read_images].
  - intros [= <-]. lia.
  - destruct (file n files) as [[m|p]|]; cbn [bind].
    + discriminate.
    + intros H. apply IH in H.
      pose proof (set_image_length (last_segment 47 n)
                    (js "data:image/png;base64," ++ as_base64 p) acc).
      cbn [List.length]. lia.
    + intros H. apply IH in H. cbn [List.length]. lia.
Qed.

Lemma read_master_length files master :
  Generator.read_master files = inr master -> (List.length master <= 1)%nat.
Proof.
  unfold Generator.read_master.
  destruct (file _ files) as [[m|p]|]; cbn [bind].
  - discriminate.
  - destruct (Generator.extractMasterLayout (as_text p)); intros [= <-]; cbn; lia.
  - intros [= <-]. cbn. lia.
Qed.

Lemma template_try_bounds extract templateFile t :
  Generator.extractTemplateData_try extract templateFile = inr t ->
  (List.length (TemplateData.layouts t) <= 4)%nat /\
  (List.length (TemplateData.images t) <= 5)%nat /\
  TemplateData.slideSize t
  = Some {| SlideSize.width := 10; SlideSize.height := 7.5 |}%Q.
Proof.
  unfold Generator.extractTemplateData_try.
  destruct (loadAsync templateFile) as [m|files]; cbn [bind]; [discriminate|].
  destruct (Generator.read_theme files) as [m|theme]; cbn [bind]; [discriminate|].
  destruct (Generator.read_master files) as [m|master] eqn:M; cbn [bind]; [discriminate|].
  destruct (Generator.read_layouts extract files _ master) as [m|layouts] eqn:L;
    cbn [bind]; [discriminate|].
  destruct (Generator.read_images files _ []) as [m|images] eqn:I;
    cbn [bind]; [discriminate|].
  intros [= <-]. cbn [TemplateData.layouts TemplateData.images TemplateData.slideSize].
  apply read_master_length in M. apply read_layouts_length in L.
  apply read_images_length in I.
  pose proof (firstn_le_length 3 (Generator.layoutFiles files)).
  pose proof (firstn_le_length 5 (Generator.mediaFiles files)).
  pose proof (length_firstn 3 (Generator.layoutFiles files)).
  pose proof (length_firstn 5 (Generator.mediaFiles files)).
  cbn [List.length] in I. repeat split; lia.
Qed.

(** X5. Whatever is uploaded, the template description holds at most four
    layouts (the master and the first three layout files) and at most five
    images, and its canvas is 10 by 7.5 inches: the size the template
    declares is never read. This holds for both copies of the generator. *)
Theorem template_data_bounds (templateFile : upload) :
  ((List.length (TemplateData.layouts (Generator.extractTemplateData templateFile)) <= 4)%nat /\
   (List.length (TemplateData.images (Generator.extractTemplateData templateFile)) <= 5)%nat /\
   TemplateData.slideSize (Generator.extractTemplateData templateFile)
   = Some {| SlideSize.width := 10; SlideSize.height := 7.5 |}%Q) /\
  ((List.length (TemplateData.layouts (GeneratorCopy.extractTemplateData templateFile)) <= 4)%nat /\
   (List.length (TemplateData.images (GeneratorCopy.extractTemplateData templateFile)) <= 5)%nat /\
   TemplateData.slideSize (GeneratorCopy.extractTemplateData templateFile)
   = Some {| SlideSize.width := 10; SlideSize.height := 7.5 |}%Q).
Proof.
  split.
  - unfold Generator.extractTemplateData.
    destruct (Generator.extractTemplateData_try _ templateFile) as [m|t] eqn:E.
    + cbn. repeat split; lia.
    + exact (template_try_bounds _ _ _ E).
  - unfold GeneratorCopy.extractTemplateData.
    destruct (Generator.extractTemplateData_try _ templateFile) as [m|t] eqn:E.
    + cbn. repeat split; lia.
    + exact (template_try_bounds _ _ _ E).
Qed.

(** ** The deck *)

Lemma forEach_length {A B : Type} (f : nat -> A -> B) (l : list A) :
  forall index, List.length (Generator.forEach f index l) = List.length l.
Proof. induction l as [|a l IH]; intros index; cbn; [reflexivity|]. now rewrite IH. Qed.

Lemma forEach_nth {A B : Type} (f : nat -> A -> B) (l : list A) :
  forall index i a, nth_error l i = Some a ->
    nth_error (Generator.forEach f index l) i = Some (f (index + i)%nat a).
Proof.
  induction l as [|b l IH]; intros index [|i] a; cbn; try discriminate.
  - intros [= ->]. now rewrite Nat.add_0_r.
  - intros H. rewrite (IH (S index) i a H). f_equal. f_equal. lia.
Qed.

Lemma place_slide_title choose bullet colors fonts layouts index s :
  exists o rest,
    Generator.place_slide choose bullet colors fonts layouts index s
    = Generator.addText (SlideContent.title s) o :: rest /\
    Generator.TextOptions.fontSize o = title_size index s.
Proof.
  unfold Generator.place_slide, title_size.
  destruct (eqs (SlideContent.type s) (js "title") || Nat.eqb index 0).
  - eexists. eexists. split; [rewrite <- app_comm_cons; reflexivity|reflexivity].
  - eexists. eexists. split; [rewrite <- app_comm_cons; reflexivity|reflexivity].
Qed.

Lemma deck_follows choose bullet structure templateData :
  follows_outline (PresentationStructure.slides structure)
    (Generator.Deck.slides
       (Generator.createPresentationWithTemplate_with choose bullet structure templateData)).
Proof.
  unfold Generator.createPresentationWithTemplate_with. cbn [Generator.Deck.slides].
  split; [apply forEach_length|].
  intros i s H. rewrite (forEach_nth _ _ 0 i s H). cbn [Nat.add].
  destruct (place_slide_title choose bullet
              match templateData with Some t => TemplateData.colors t | None => defaultColors end
              match templateData with Some t => TemplateData.fonts t | None => defaultFonts end
              match templateData with Some t => TemplateData.layouts t | None => [] end
              i s) as (o & rest & E & F).
  exists o, rest. split; [now rewrite E|exact F].
Qed.

(** X6. For an outline of the declared shape - a title string and slides
    that each carry a title string, a content array of strings and a type
    string, which is what [asPresentationStructure] reads - the deck has, in
    both copies of the generator, one slide per slide of the outline, in
    the order of the outline, none dropped and none added; each starts with
    the title of its outline slide, written at 36 points on the first
    slide and on every slide of type "title", at 28 points on the others.
    An outline outside that shape is not covered: on a slide without
    content, for one, the source throws and writes nothing. *)
Theorem deck_follows_outline
    (outline : value) (structure : PresentationStructure.t)
    (templateData : option TemplateData.t) :
  Generator.asPresentationStructure outline = Some structure ->
  follows_outline (PresentationStructure.slides structure)
    (Generator.Deck.slides
       (Generator.createPresentationWithTemplate structure templateData)) /\
  follows_outline (PresentationStructure.slides structure)
    (Generator.Deck.slides
       (GeneratorCopy.createPresentationWithTemplate structure templateData)).
Proof. intros _. split; apply deck_follows. Qed.

Lemma deck_follows_outline_witness :
  follows_outline
    [ {| SlideContent.title := js "Plan"; SlideContent.content := [];
         SlideContent.type := js "title"; SlideContent.notes := None |};
      {| SlideContent.title := js "Steps"; SlideContent.content := [js "One"; js "Two"];
         SlideContent.type := js "bullets"; SlideContent.notes := None |} ]
    (Generator.Deck.slides
       (Generator.createPresentationWithTemplate
          {| PresentationStructure.title := js "Plan";
             PresentationStructure.slides :=
               [ {| SlideContent.title := js "Plan"; SlideContent.content := [];
                    SlideContent.type := js "title"; SlideContent.notes := None |};
                 {| SlideContent.title := js "Steps";
                    SlideContent.content := [js "One"; js "Two"];
                    SlideContent.type := js "bullets"; SlideContent.notes := None |} ] |}
          None)).
Proof.
  apply (proj1 (deck_follows_outline
                  (VObj [ (js "title", VStr (js "Plan"));
                          (js "slides",
                           VArr [ VObj [ (js "title", VStr (js "Plan"));
                                         (js "content", VArr [] []);
                                         (js "type", VStr (js "title")) ];
                                  VObj [ (js "title", VStr (js "Steps"));
                                         (js "content",
                                          VArr [VStr (js "One"); VStr (js "Two")] []);
                                         (js "type", VStr (js "bullets")) ] ] []) ])
                  {| PresentationStructure.title := js "Plan";
                     PresentationStructure.slides :=
                       [ {| SlideContent.title := js "Plan"; SlideContent.content := [];
                            SlideContent.type := js "title"; SlideContent.notes := None |};
                         {| SlideContent.title := js "Steps";
                            SlideContent.content := [js "One"; js "Two"];
                            SlideContent.type := js "bullets";
                            SlideContent.notes := None |} ] |}
                  None eq_refl)).
Defined.

Lemma backgrounds_app a b : backgrounds (a ++ b) = backgrounds a ++ backgrounds b.
Proof. unfold backgrounds. apply flat_map_app. Qed.

Lemma place_slide_backgrounds choose bullet colors fonts layouts index s :
  backgrounds (Generator.place_slide choose bullet colors fonts layouts index s)
  = if painted (Colors.background colors) then [Colors.background colors] else [].
Proof.
  unfold Generator.place_slide. rewrite backgrounds_app.
  replace (painted (Colors.background colors))
    with (match Colors.background colors with [] => false | _ :: _ => true end
          && negb (eqs (Colors.background colors) (js "#ffffff")))
    by (unfold painted; now destruct (Colors.background colors)).
  destruct (eqs (SlideContent.type s) (js "title") || Nat.eqb index 0).
  - destruct (SlideContent.content s);
      destruct (_ && _); reflexivity.
  - destruct (_ && _); reflexivity.
Qed.

Lemma forEach_Forall {A B : Type} (f : nat -> A -> B) (P : B -> Prop) (l : list A) :
  (forall i a, P (f i a)) -> forall index, Forall P (Generator.forEach f index l).
Proof.
  intros H. induction l as [|a l IH]; intros index; cbn; constructor; auto.
Qed.

(** X7. Every slide of a deck is given the background colour of the
    template description, once, unless that colour is the string "#ffffff"
    (or empty), in which case no slide is given a background; without a
    template no slide is given one. *)
Theorem background_on_every_slide
    (structure : PresentationStructure.t) (templateData : option TemplateData.t) :
  Forall (fun ds => backgrounds ds
                    = if painted (Colors.background (deck_colors templateData))
                      then [Colors.background (deck_colors templateData)] else [])
         (Generator.Deck.slides
            (Generator.createPresentationWithTemplate structure templateData)) /\
  Forall (fun ds => backgrounds ds = [])
         (Generator.Deck.slides
            (Generator.createPresentationWithTemplate structure None)).
Proof.
  split.
  - unfold Generator.createPresentationWithTemplate,
      Generator.createPresentationWithTemplate_with. cbn [Generator.Deck.slides].
    apply forEach_Forall. intros i a. rewrite place_slide_backgrounds.
    destruct templateData; reflexivity.
  - unfold Generator.createPresentationWithTemplate,
      Generator.createPresentationWithTemplate_with. cbn [Generator.Deck.slides].
    apply forEach_Forall. intros i a. now rewrite place_slide_backgrounds.
Qed.

(** ** The file name *)

Lemma collapse_runs_safe s :
  forallb kept s = true -> forall b, forallb safe_unit (collapse_runs b s) = true.
Proof.
  induction s as [|a s IH]; [reflexivity|]. cbn [forallb collapse_runs].
  intros H b. apply andb_true_iff in H as [Ha Hs].
  destruct (is_space a) eqn:E.
  - destruct b; [now apply IH|]. cbn [forallb]. now rewrite IH.
  - cbn [forallb]. rewrite IH by exact Hs. rewrite andb_true_r.
    unfold kept in Ha. unfold safe_unit. rewrite E, orb_false_r in Ha.
    exact Ha.
Qed.

Lemma forallb_trimStart p s : forallb p s = true -> forallb p (trimStart s) = true.
Proof.
  induction s as [|a s IH]; [reflexivity|]. cbn [trimStart]. intros H.
  destruct (is_space a); [|exact H]. cbn [forallb] in H.
  apply andb_true_iff in H as [_ H]. now apply IH.
Qed.

Lemma forallb_trimEnd p s : forallb p s = true -> forallb p (trimEnd s) = true.
Proof.
  induction s as [|a s IH]; [reflexivity|]. cbn [trimEnd forallb]. intros H.
  apply andb_true_iff in H as [Ha Hs]. specialize (IH Hs).
  destruct (trimEnd s) as [|b r].
  - destruct (is_space a); [reflexivity|]. cbn [forallb]. now rewrite Ha.
  - cbn [forallb] in *. now rewrite Ha, IH.
Qed.

Lemma forallb_firstn {A : Type} (p : A -> bool) n (s : list A) :
  forallb p s = true -> forallb p (firstn n s) = true.
Proof.
  revert s. induction n as [|n IH]; intros [|a s]; cbn; auto.
  intros H. apply andb_true_iff in H as [Ha Hs]. now rewrite Ha, IH.
Qed.

Lemma forallb_filter_same {A : Type} (p : A -> bool) (s : list A) :
  forallb p (filter p s) = true.
Proof.
  induction s as [|a s IH]; [reflexivity|]. cbn [filter].
  destruct (p a) eqn:E; [|exact IH]. cbn [forallb]. now rewrite E, IH.
Qed.

Lemma fileBase_safe title :
  (1 <= List.length (Generator.fileBase title) <= 50)%nat /\
  forallb safe_unit (Generator.fileBase title) = true.
Proof.
  rewrite fileBase_refines. unfold spec_fileBase.
  rewrite <- trim_strip_spaces. unfold trim.
  pose proof (firstn_le_length 50
                (collapse_runs false (trimEnd (trimStart (filter kept title))))) as L.
  assert (forallb safe_unit
            (firstn 50 (collapse_runs false (trimEnd (trimStart (filter kept title)))))
          = true) as S.
  { apply forallb_firstn, collapse_runs_safe, forallb_trimEnd, forallb_trimStart,
      forallb_filter_same. }
  destruct (firstn 50 _) as [|a t].
  - split; [cbn; lia|reflexivity].
  - split; [cbn [List.length] in *; lia|exact S].
Qed.

(** X8. Whatever the title of the outline, the name the deck is written
    under is a base of 1 to 50 units, each a letter, a digit, an underscore
    or a hyphen, followed by ".pptx": no white space, no path separator, no
    dot in the base. *)
Theorem file_name_is_safe
    (structure : PresentationStructure.t) (templateData : option TemplateData.t) :
  exists base,
    Generator.Deck.fileName
      (Generator.createPresentationWithTemplate structure templateData)
    = base ++ js ".pptx" /\
    (1 <= List.length base <= 50)%nat /\
    forallb safe_unit base = true.
Proof.
  exists (Generator.fileBase (PresentationStructure.title structure)).
  split; [reflexivity|]. apply fileBase_safe.
Qed.

(** ** What the normaliser lets through *)

Lemma parse_members_object fuel :
  forall s acc v r, parse_members fuel s acc = Some (v, r) -> exists ps, v = VObj ps.
Proof.
  induction fuel as [|f IH]; intros s acc v r; cbn [parse_members]; [discriminate|].
  unfold members_step.
  destruct (after_unit 34 s) as [r0|]; [|discriminate].
  destruct (parse_string r0) as [[k r1]|]; [|discriminate].
  destruct (after_unit 58 (skip_ws r1)) as [r2|]; [|discriminate].
  destruct (parse_value f (skip_ws r2)) as [[v0 r3]|]; [|discriminate].
  destruct (after_unit 44 (skip_ws r3)) as [r4|].
  - apply IH.
  - destruct (after_unit 125 (skip_ws r3)) as [r4|]; [|discriminate].
    intros [= <- <-]. eauto.
Qed.

Lemma parse_value_object fuel s v r :
  parse_value fuel (123%N :: s) = Some (v, r) -> exists ps, v = VObj ps.
Proof.
  destruct fuel as [|f]; cbn [parse_value]; [discriminate|].
  unfold value_step. change (N.eqb 123 123) with true. cbv iota.
  destruct (after_unit 125 (skip_ws s)) as [r'|].
  - intros [= <- <-]. eauto.
  - apply parse_members_object.
Qed.

Lemma JSON_parse_object s v :
  JSON_parse (123%N :: s) = Some v -> exists ps, v = VObj ps.
Proof.
  unfold JSON_parse. change (skip_ws (123%N :: s)) with (123%N :: s).
  destruct (parse_value _ (123%N :: s)) as [[v' r]|] eqn:E; [|discriminate].
  destruct (skip_ws r); [|discriminate]. intros [= <-].
  eapply parse_value_object; exact E.
Qed.

Lemma jsonMatch_opens raw text :
  Generator.jsonMatch raw = Some text -> exists s, text = 123%N :: s.
Proof.
  rewrite jsonMatch_object_text. unfold object_text.
  destruct (from_first 123 _) as [r|]; [|discriminate].
  destruct (split_last 125 r) as [[m t]|]; [|discriminate].
  intros [= <-]. eauto.
Qed.

(** X9. Whatever the provider answered, an outline the normaliser returns
    is a JSON object whose [title] is truthy and whose [slides] is an
    array: nothing else gets through. *)
Theorem outline_is_validated
    (syn : jsString -> jsString) (typ : value -> jsString) (raw : jsString)
    (outline : value) :
  Generator.parseOutline syn typ raw = inr outline ->
  exists ps items named,
    outline = VObj ps /\
    truthy_opt (get (js "title") outline) = true /\
    get (js "slides") outline = Some (VArr items named).
Proof.
  unfold Generator.parseOutline.
  destruct (Generator.jsonMatch raw) as [text|] eqn:M; [|discriminate].
  destruct (jsonMatch_opens _ _ M) as (s & ->).
  destruct (JSON_parse (123%N :: s)) as [structure|] eqn:P; [|discriminate].
  destruct (JSON_parse_object _ _ P) as (ps & ->).
  unfold Generator.member. cbn [bind ret].
  destruct (truthy_opt (get (js "title") (VObj ps))) eqn:T; cbn [negb orb]; [|discriminate].
  destruct (get (js "slides") (VObj ps)) as [[| | | |items named|]|] eqn:S;
    cbn [isArray negb]; try discriminate.
  destruct items as [|first rest].
  - intros [= <-]. exists ps, [], named. now rewrite T, S.
  - destruct (truthy first).
    + destruct (Generator.assign_title typ first) as [m|first']; cbn [bind ret];
        [discriminate|].
      intros [= <-]. cbn [Generator.with_slides].
      exists (assoc_set (js "slides") (VArr (first' :: rest) named) ps),
        (first' :: rest), named.
      split; [reflexivity|]. cbn [get] in *.
      rewrite assoc_set_other by reflexivity. rewrite T.
      split; [reflexivity|apply assoc_set_same].
    + intros [= <-]. exists ps, (first :: rest), named. now rewrite T, S.
Qed.

Lemma outline_is_validated_witness :
  exists ps items named,
    VObj [ (js "title", VStr (js "T")); (js "slides", VArr [VNull] []) ] = VObj ps /\
    truthy_opt (get (js "title")
                  (VObj [ (js "title", VStr (js "T")); (js "slides", VArr [VNull] []) ]))
    = true /\
    get (js "slides") (VObj [ (js "title", VStr (js "T")); (js "slides", VArr [VNull] []) ])
    = Some (VArr items named).
Proof.
  apply (outline_is_validated (fun _ => []) (fun _ => [])
           (jq "Here it is: {'title':'T','slides':[null]}")).
  vm_compute. reflexivity.
Defined.

(** X10. When the object text the normaliser extracts parses, but the
    parsed object has no truthy [title] or its [slides] is not an array
    (missing, [null], a string, an object), the caller of
    [generatePresentationStructure] receives exactly "Generation failed:
    Invalid structure", whatever the provider. *)
Theorem missing_field_is_invalid_structure
    (syn : jsString -> jsString) (typ : value -> jsString)
    (provider raw text : jsString) (structure : value) :
  Generator.jsonMatch raw = Some text ->
  JSON_parse text = Some structure ->
  truthy_opt (get (js "title") structure) = false \/
  isArray (get (js "slides") structure) = false ->
  Generator.generatePresentationStructure syn typ provider (inr raw)
  = throw (js "Generation failed: Invalid structure").
Proof.
  intros M P H.
  destruct (jsonMatch_opens _ _ M) as (s & ->).
  destruct (JSON_parse_object _ _ P) as (ps & ->).
  unfold Generator.generatePresentationStructure, Generator.parseOutline. cbn [bind].
  rewrite M, P. unfold Generator.member. cbn [bind ret].
  replace (negb (truthy_opt (get (js "title") (VObj ps)))
           || negb (isArray (get (js "slides") (VObj ps)))) with true
    by (destruct H as [-> | ->]; [reflexivity|now rewrite orb_true_r]).
  reflexivity.
Qed.

Lemma missing_field_is_invalid_structure_witness :
  Generator.generatePresentationStructure (fun _ => []) (fun _ => []) (js "openai")
    (inr (jq "```json
{'title': 'Plan', 'slides': {'title': 'One'}}
```"))
  = throw (js "Generation failed: Invalid structure").
Proof.
  apply (missing_field_is_invalid_structure (fun _ => []) (fun _ => []) (js "openai")
           (jq "```json
{'title': 'Plan', 'slides': {'title': 'One'}}
```")
           (jq "{'title': 'Plan', 'slides': {'title': 'One'}}")
           (VObj [ (js "title", VStr (js "Plan"));
                   (js "slides", VObj [ (js "title", VStr (js "One")) ]) ])).
  - vm_compute. reflexivity.
  - vm_compute. reflexivity.
  - right. reflexivity.
Defined.

(** ** Reading the theme: the patterns as scans *)

Lemma is_suffix_refl s : is_suffix s s.
Proof. now exists []. Qed.

Lemma is_suffix_tl a t s : is_suffix t s -> is_suffix t (a :: s).
Proof. intros (pre & ->). now exists (a :: pre). Qed.

Lemma is_suffix_trans a b c : is_suffix a b -> is_suffix b c -> is_suffix a c.
Proof. intros (p & ->) (q & ->). exists (q ++ p). now rewrite app_assoc. Qed.

Lemma is_suffix_length t s : is_suffix t s -> (List.length t <= List.length s)%nat.
Proof. intros (pre & ->). rewrite length_app. lia. Qed.

Lemma is_suffix_cons t a s : is_suffix t (a :: s) -> t = a :: s \/ is_suffix t s.
Proof.
  intros ([|b pre] & E); cbn in E.
  - now left.
  - right. injection E as _ ->. now exists pre.
Qed.

(** Two ends of the same text: the shorter is an end of the longer. *)
Lemma is_suffix_compare r t s :
  is_suffix r s -> is_suffix t s -> (List.length r <= List.length t)%nat -> is_suffix r t.
Proof.
  intros (p & ->) (q & E) L. apply app_eq_app in E as (l & [[-> ->]|[-> ->]]).
  - now exists l.
  - rewrite length_app in L. destruct l; [now exists []|cbn in L; lia].
Qed.

Lemma first_at_some {A : Type} (f : jsString -> option A) s x :
  first_at f s = Some x -> exists t, is_suffix t s /\ f t = Some x.
Proof.
  induction s as [|a s IH]; cbn [first_at].
  - destruct (f []) eqn:E; [|discriminate]. intros [= <-]. exists []. split; [apply is_suffix_refl|exact E].
  - destruct (f (a :: s)) eqn:E.
    + intros [= <-]. exists (a :: s). split; [apply is_suffix_refl|exact E].
    + intros H. destruct (IH H) as (t & Ht & Ft). exists t. split; [now apply is_suffix_tl|exact Ft].
Qed.

Lemma first_at_none {A : Type} (f : jsString -> option A) s :
  first_at f s = None -> forall t, is_suffix t s -> f t = None.
Proof.
  induction s as [|a s IH]; cbn [first_at].
  - destruct (f []) eqn:E; [discriminate|]. intros _ t (pre & H).
    symmetry in H. apply app_eq_nil in H as [_ ->]. exact E.
  - destruct (f (a :: s)) eqn:E; [discriminate|]. intros H t Ht.
    apply is_suffix_cons in Ht as [->|Ht]; [exact E|now apply IH].
Qed.

Lemma first_at_fails {A : Type} (f : jsString -> option A) s :
  (forall t, is_suffix t s -> f t = None) -> first_at f s = None.
Proof.
  induction s as [|a s IH]; intros H; cbn [first_at].
  - now rewrite (H [] (is_suffix_refl _)).
  - rewrite (H _ (is_suffix_refl _)). apply IH. intros t Ht. apply H. now apply is_suffix_tl.
Qed.

Lemma first_at_none_suffix {A : Type} (f : jsString -> option A) s t :
  is_suffix t s -> first_at f s = None -> first_at f t = None.
Proof.
  intros Ht H. apply first_at_fails. intros u Hu.
  apply (first_at_none f s H). eapply is_suffix_trans; eassumption.
Qed.

Lemma first_at_ext {A : Type} (f g : jsString -> option A) s :
  (forall t, f t = g t) -> first_at f s = first_at g s.
Proof.
  intros H. induction s as [|a s IH]; cbn [first_at]; rewrite H; [reflexivity|].
  now rewrite IH.
Qed.

Lemma lazy_any_first_at s c k :
  lazy_star any_unit s c k = first_at (fun t => k t c) s.
Proof.
  induction s as [|a s IH]; cbn [lazy_star first_at]; [now destruct (k [] c)|].
  rewrite any_unit_true, IH. reflexivity.
Qed.

Lemma found_groups_first_at r s :
  found_groups r s = option_map fst (first_at (exec_at r) s).
Proof.
  unfold found_groups. induction s as [|a s IH]; cbn [search first_at].
  - destruct (exec_at r []) as [[c rest]|]; reflexivity.
  - destruct (exec_at r (a :: s)) as [[c rest]|]; [reflexivity|].
    rewrite <- IH. destruct (search r s); reflexivity.
Qed.

Section Collapse.

Context {A : Type}.
Variable strip : jsString -> option jsString.
Variable n : nat.
Hypothesis strip_takes :
  forall s r, strip s = Some r ->
              is_suffix r s /\ List.length s = (n + List.length r)%nat.
Variable g : jsString -> option A.
Hypothesis g_fails_on :
  forall s t, is_suffix t s -> g s = None -> g t = None.

Lemma later_is_suffix a s s1 rest :
  strip (a :: s) = Some s1 -> first_at strip s = Some rest -> is_suffix rest s1.
Proof.
  intros H1 H2. apply strip_takes in H1 as [S1 L1].
  apply first_at_some in H2 as (u & Hu & Su). apply strip_takes in Su as [S2 L2].
  apply (is_suffix_compare rest s1 (a :: s)).
  - apply is_suffix_tl. eapply is_suffix_trans; eassumption.
  - exact S1.
  - apply is_suffix_length in Hu. cbn [List.length] in L1. lia.
Qed.

Lemma first_at_collapse s :
  first_at (fun t => match strip t with Some s1 => g s1 | None => None end) s
  = match first_at strip s with Some rest => g rest | None => None end.
Proof.
  induction s as [|a s IH]; cbn [first_at].
  - destruct (strip []) as [s1|]; [|reflexivity]. now destruct (g s1).
  - destruct (strip (a :: s)) as [s1|] eqn:E; [|exact IH].
    destruct (g s1) eqn:G; [reflexivity|]. rewrite IH.
    destruct (first_at strip s) as [rest|] eqn:F; [|reflexivity].
    apply (g_fails_on s1); [|exact G]. eapply later_is_suffix; eassumption.
Qed.

End Collapse.
Lemma star_exact p s c k :
  (forall a t c', p a = true -> k (a :: t) c' = None) ->
  star p s c k = k (drop_while p s) c.
Proof.
  intros H. induction s as [|a s IH]; cbn [star drop_while]; [reflexivity|].
  destruct (p a) eqn:E; [|reflexivity]. rewrite IH.
  destruct (k (drop_while p s) c) eqn:K; [reflexivity|]. now apply H.
Qed.

Lemma firstn_take_while p s :
  firstn (List.length s - List.length (drop_while p s)) s = take_while p s.
Proof.
  induction s as [|a s IH]; [reflexivity|]. cbn [drop_while take_while].
  destruct (p a).
  - pose proof (drop_while_length p s).
    replace (List.length (a :: s) - List.length (drop_while p s))%nat
      with (S (List.length s - List.length (drop_while p s))) by (cbn [List.length]; lia).
    cbn [firstn]. now rewrite IH.
  - now rewrite Nat.sub_diag.
Qed.

Lemma typeface_value_eq s c :
  typeface_value s c =
  match strip_prefix (jq "typeface='") s with
  | Some r =>
      match quoted r with
      | Some v => Some ((1%nat, v) :: c, tl (drop_while (none_of 34) r))
      | None => None
      end
  | None => None
  end.
Proof.
  unfold typeface_value. rewrite run_seq_of_cons, run_lit.
  destruct (strip_prefix _ s) as [r|]; [|reflexivity].
  rewrite run_seq_of_cons. unfold seq_of, plus. cbn [run].
  unfold quoted. destruct r as [|a r]; [reflexivity|].
  cbn [take_while drop_while]. destruct (none_of 34 a) eqn:E; [|reflexivity].
  rewrite star_exact.
  - destruct (drop_while (none_of 34) r) as [|q rest] eqn:D; [reflexivity|].
    pose proof (drop_while_head _ _ _ _ D) as Q. unfold none_of in Q.
    apply negb_false_iff in Q. unfold unit_is. rewrite Q. unfold accept. cbn [tl].
    do 3 f_equal. rewrite <- D.
    pose proof (firstn_take_while (none_of 34) (a :: r)) as F.
    cbn [take_while drop_while] in F. rewrite E in F. now rewrite F.
  - intros b t c' Hb. cbn [run]. unfold unit_is, none_of in *.
    apply negb_true_iff in Hb. now rewrite Hb.
Qed.
Lemma first_at_map {A B : Type} (h : A -> B) (f : jsString -> option A) s :
  option_map h (first_at f s) = first_at (fun t => option_map h (f t)) s.
Proof.
  induction s as [|a s IH]; cbn [first_at].
  - now destruct (f []).
  - destruct (f (a :: s)); [reflexivity|exact IH].
Qed.

Lemma strip_prefix_takes p s r :
  strip_prefix p s = Some r ->
  is_suffix r s /\ List.length s = (List.length p + List.length r)%nat.
Proof.
  intros H. apply strip_prefix_Some in H. subst s.
  split; [now exists p|apply length_app].
Qed.

Lemma strip_prefix_ci_takes p s r :
  strip_prefix_ci p s = Some r ->
  is_suffix r s /\ List.length s = (List.length p + List.length r)%nat.
Proof.
  revert s. induction p as [|x p IH]; intros s; cbn [strip_prefix_ci].
  - intros [= ->]. split; [apply is_suffix_refl|reflexivity].
  - destruct s as [|y s]; [discriminate|].
    destruct (N.eqb (canon x) (canon y)); [|discriminate].
    intros H. apply IH in H as [S L]. split; [now apply is_suffix_tl|].
    cbn [List.length]. lia.
Qed.

Lemma first_at_monotone {A : Type} (f : jsString -> option A) s t :
  is_suffix t s -> first_at f s = None -> first_at f t = None.
Proof. apply first_at_none_suffix. Qed.

(** The font patterns *)

Lemma exec_at_font role s :
  exec_at (Generator.re_font role) s =
  match strip_prefix (js "<a:" ++ role ++ js ">") s with
  | Some s1 => first_at (fun t => typeface_value t []) s1
  | None => None
  end.
Proof.
  unfold exec_at, Generator.re_font. rewrite run_seq_of_cons, run_lit.
  destruct (strip_prefix _ s) as [s1|]; [|reflexivity].
  rewrite run_seq_of_cons. cbn [run]. apply lazy_any_first_at.
Qed.

Lemma typeface_value_at t :
  option_map (fun x => captured 1 (fst x)) (typeface_value t []) = typeface_at t.
Proof.
  rewrite typeface_value_eq. unfold typeface_at.
  destruct (strip_prefix _ t) as [r|]; [|reflexivity].
  destruct (quoted r); reflexivity.
Qed.

Lemma font_of_refines role themeXml :
  Generator.font_of role themeXml = spec_font role themeXml.
Proof.
  unfold Generator.font_of, spec_font, after_first.
  transitivity (option_map (fun x => captured 1 (fst x))
                  (first_at (exec_at (Generator.re_font role)) themeXml)).
  { pose proof (found_groups_first_at (Generator.re_font role) themeXml) as F.
    unfold found_groups in F.
    destruct (search _ themeXml); destruct (first_at _ themeXml); cbn in *; congruence. }
  rewrite first_at_map.
  rewrite (first_at_ext _
             (fun t => match strip_prefix (js "<a:" ++ role ++ js ">") t with
                       | Some s1 => first_at typeface_at s1
                       | None => None
                       end)).
  - apply (first_at_collapse _ (List.length (js "<a:" ++ role ++ js ">"))).
    + apply strip_prefix_takes.
    + intros s t. apply first_at_none_suffix.
  - intros t. rewrite exec_at_font. destruct (strip_prefix _ t) as [s1|]; [|reflexivity].
    rewrite first_at_map. apply first_at_ext. apply typeface_value_at.
Qed.

Lemma fonts_refine themeXml :
  Generator.extractFontsFromTheme themeXml = spec_fonts themeXml.
Proof.
  unfold Generator.extractFontsFromTheme, spec_fonts. now rewrite !font_of_refines.
Qed.
(** The colour patterns *)

Lemma strip_class_skipn n p s :
  strip_class n p s =
  if Nat.eqb (List.length (firstn n s)) n && forallb p (firstn n s)
  then Some (skipn n s) else None.
Proof.
  revert s. induction n as [|n IH]; intros s; [reflexivity|].
  destruct s as [|a s]; [reflexivity|]. cbn [strip_class firstn skipn List.length forallb].
  rewrite IH. change (Nat.eqb (S ?x) (S n)) with (Nat.eqb x n).
  destruct (p a); [reflexivity|]. now rewrite andb_false_r.
Qed.

Lemma unit_ci_quote q : unit_ci 34 q = N.eqb q 34.
Proof.
  unfold unit_ci, canon, canonicalize.
  change (between 97 122 34) with false. cbn [snd].
  destruct (between 97 122 q) eqn:B; cbn [snd]; [|apply N.eqb_sym].
  unfold between in B. apply andb_true_iff in B as [B1 B2].
  apply N.leb_le in B1, B2.
  destruct (N.eqb_spec 34 (q - 32)); destruct (N.eqb_spec q 34); try reflexivity; lia.
Qed.

Lemma after_val_at t :
  option_map (fun x => captured 1 (fst x)) (after_val t []) = token_at t.
Proof.
  rewrite after_val_eq. unfold token_at.
  destruct (strip_prefix_ci _ t) as [r|]; [|reflexivity].
  rewrite strip_class_skipn.
  destruct (Nat.eqb (List.length (firstn 6 r)) 6) eqn:L; cbn [andb].
  - destruct (forallb Generator.hex_ci (firstn 6 r)); cbn [andb].
    + destruct (skipn 6 r) as [|q s5] eqn:K; [reflexivity|].
      rewrite unit_ci_quote. destruct (N.eqb q 34); [|reflexivity].
      cbn [option_map fst captured group Nat.eqb]. f_equal.
      rewrite <- K, length_skipn. apply Nat.eqb_eq in L. rewrite length_firstn in L.
      f_equal. lia.
    + now destruct (skipn 6 r).
  - now destruct (skipn 6 r).
Qed.

Lemma color_of_refines role content :
  Generator.color_of role content = spec_color role content.
Proof.
  rewrite color_of_found. unfold spec_color, after_first_ci.
  rewrite found_groups_first_at.
  assert (option_map (fun x => captured 1 (fst x))
            (first_at (exec_at (Generator.re_color role)) content)
          = match first_at (strip_prefix_ci (js "<a:" ++ role ++ js ">")) content with
            | Some rest => first_at token_at rest
            | None => None
            end) as E.
  { rewrite first_at_map.
    rewrite (first_at_ext _
               (fun t => match strip_prefix_ci (js "<a:" ++ role ++ js ">") t with
                         | Some s1 => first_at token_at s1
                         | None => None
                         end)).
    - apply (first_at_collapse _ (List.length (js "<a:" ++ role ++ js ">"))).
      + apply strip_prefix_ci_takes.
      + intros s t. apply first_at_none_suffix.
    - intros t. rewrite exec_at_color.
      destruct (strip_prefix_ci _ t) as [s1|]; [|reflexivity].
      rewrite lazy_any_first_at, first_at_map. apply first_at_ext. apply after_val_at. }
  destruct (first_at (strip_prefix_ci _) content) as [rest|].
  - rewrite <- E. now destruct (first_at (exec_at _) content) as [[c r]|].
  - now destruct (first_at (exec_at _) content) as [[c r]|].
Qed.
(** The scheme pattern *)

Lemma before_first_scan p pre t0 :
  option_map (fun x : captures * jsString => captured 1 (fst x))
    (first_at (fun t => match strip_prefix p t with
                        | Some r =>
                            Some ([(1%nat, firstn (List.length (pre ++ t0) - List.length t)
                                             (pre ++ t0))], r)
                        | None => None
                        end) t0)
  = option_map (app pre) (before_first p t0).
Proof.
  revert pre. induction t0 as [|a t0 IH]; intros pre; cbn [first_at before_first].
  - destruct (strip_prefix p []); [|reflexivity].
    cbn. now rewrite app_nil_r, Nat.sub_0_r, firstn_all.
  - destruct (strip_prefix p (a :: t0)) as [r|].
    + cbn [option_map fst captured group Nat.eqb]. f_equal.
      change (List.length (a :: t0)) with (List.length ([] ++ a :: t0)).
      rewrite firstn_before. cbn [List.length].
      now rewrite Nat.sub_0_r, firstn_all, app_nil_r.
    + specialize (IH (pre ++ [a])). rewrite <- app_assoc in IH. cbn [app] in IH.
      rewrite IH. destruct (before_first p t0); cbn [option_map]; [|reflexivity].
      now rewrite <- app_assoc.
Qed.

Lemma exec_at_scheme s :
  option_map (fun x => captured 1 (fst x)) (exec_at Generator.re_clrScheme s) =
  match strip_prefix (js "<a:clrScheme") s with
  | Some s1 =>
      match drop_while (none_of 62) s1 with
      | _ :: s2 => before_first (js "</a:clrScheme>") s2
      | [] => None
      end
  | None => None
  end.
Proof.
  unfold exec_at, Generator.re_clrScheme. rewrite run_seq_of_cons, run_lit.
  destruct (strip_prefix _ s) as [s1|]; [|reflexivity].
  rewrite run_seq_of_cons. cbn [run]. rewrite star_exact.
  - destruct (drop_while (none_of 62) s1) as [|q s2] eqn:D; [reflexivity|].
    pose proof (drop_while_head _ _ _ _ D) as Q. unfold none_of in Q.
    apply negb_false_iff in Q.
    rewrite run_seq_of_cons. cbn [run]. unfold unit_is at 1. rewrite Q.
    rewrite run_seq_of_cons. cbn [run]. rewrite lazy_any_first_at.
    rewrite (first_at_ext _
               (fun t => match strip_prefix (js "</a:clrScheme>") t with
                         | Some r =>
                             Some ([(1%nat, firstn (List.length ([] ++ s2) - List.length t)
                                              ([] ++ s2))], r)
                         | None => None
                         end)).
    + rewrite before_first_scan. now destruct (before_first _ s2).
    + intros t. cbn [seq_of]. rewrite run_lit. reflexivity.
  - intros a t c' Ha. rewrite run_seq_of_cons. cbn [run]. unfold unit_is, none_of in *.
    apply negb_true_iff in Ha. now rewrite Ha.
Qed.

Lemma before_first_none p s : before_first p s = None <-> after_first p s = None.
Proof.
  unfold after_first. induction s as [|a s IH]; cbn [before_first first_at].
  - destruct (strip_prefix p []); split; congruence.
  - destruct (strip_prefix p (a :: s)); [split; congruence|].
    destruct (before_first p s); destruct (first_at (strip_prefix p) s);
      split; try congruence; intros H; [now apply IH in H|].
    destruct IH as [IH _]. now specialize (IH eq_refl).
Qed.

Lemma before_first_monotone p s t :
  is_suffix t s -> before_first p s = None -> before_first p t = None.
Proof.
  intros Ht H. apply before_first_none. apply before_first_none in H.
  eapply first_at_none_suffix; eassumption.
Qed.

Lemma drop_while_suffix p s : is_suffix (drop_while p s) s.
Proof.
  induction s as [|a s IH]; cbn [drop_while]; [apply is_suffix_refl|].
  destruct (p a); [now apply is_suffix_tl|apply is_suffix_refl].
Qed.

Lemma drop_while_of_suffix p s t :
  is_suffix t s ->
  drop_while p t = drop_while p s \/ is_suffix (drop_while p t) (tl (drop_while p s)).
Proof.
  induction s as [|a s IH]; intros Ht.
  - destruct Ht as (pre & H). symmetry in H. apply app_eq_nil in H as [_ ->]. now left.
  - apply is_suffix_cons in Ht as [->|Ht]; [now left|].
    cbn [drop_while]. destruct (p a).
    + now apply IH.
    + right. cbn [tl]. eapply is_suffix_trans; [apply drop_while_suffix|exact Ht].
Qed.

Lemma scheme_rest_monotone s t :
  is_suffix t s ->
  match drop_while (none_of 62) s with
  | _ :: s2 => before_first (js "</a:clrScheme>") s2
  | [] => None
  end = None ->
  match drop_while (none_of 62) t with
  | _ :: s2 => before_first (js "</a:clrScheme>") s2
  | [] => None
  end = None.
Proof.
  intros Ht H. destruct (drop_while_of_suffix (none_of 62) s t Ht) as [E|E].
  - now rewrite E.
  - destruct (drop_while (none_of 62) t) as [|q t2]; [reflexivity|].
    destruct (drop_while (none_of 62) s) as [|q' s2]; cbn [tl] in E.
    + destruct E as (pre & E). now destruct pre.
    + apply (before_first_monotone _ s2); [|exact H].
      eapply is_suffix_trans; [|exact E]. now exists [q].
Qed.

Lemma scheme_content_refines themeXml :
  scheme_content themeXml = spec_scheme themeXml.
Proof.
  unfold scheme_content, spec_scheme, after_first.
  transitivity (option_map (fun x => captured 1 (fst x))
                  (first_at (exec_at Generator.re_clrScheme) themeXml)).
  { pose proof (found_groups_first_at Generator.re_clrScheme themeXml) as F.
    unfold found_groups in F.
    destruct (search _ themeXml); destruct (first_at _ themeXml); cbn in *; congruence. }
  rewrite first_at_map.
  rewrite (first_at_ext _ _ _ exec_at_scheme).
  apply (first_at_collapse _ (List.length (js "<a:clrScheme"))).
  - apply strip_prefix_takes.
  - apply scheme_rest_monotone.
Qed.

Lemma colors_refine themeXml :
  Generator.extractColorsFromTheme themeXml = spec_colors themeXml.
Proof.
  pose proof (scheme_content_refines themeXml) as E.
  unfold Generator.extractColorsFromTheme, spec_colors, scheme_content in *.
  destruct (search Generator.re_clrScheme themeXml) as [m|]; rewrite <- E.
  - now rewrite !color_of_refines.
  - reflexivity.
Qed.

(** X11. [extractColorsFromTheme] is this scan of the theme. The scheme
    content is what lies between the first [>] after the first
    [<a:clrScheme] and the first [</a:clrScheme>] after it. In that content
    the colour of a role is the first [val] attribute of six hexadecimal
    digits found after the first [<a:ROLE>] tag, in any letter case and
    wherever it stands - inside the element of the role or beyond it -
    lower-cased behind a number sign. Text, background, primary and
    secondary are the colours of [dk1], [lt1], [accent1] and [accent2], each
    falling back to its default; accent is always the default; without a
    scheme all five are the defaults. *)
Theorem theme_colours_by_scanning (themeXml : jsString) :
  Generator.extractColorsFromTheme themeXml = spec_colors themeXml.
Proof. apply colors_refine. Qed.

(** X12. [extractFontsFromTheme] is this scan of the theme: the title font
    is the value of the first [typeface] attribute with a value that is not
    empty found after the first [<a:majorFont>] tag, wherever it stands, and
    "Calibri" when there is none; the body font is the same for
    [<a:minorFont>]. *)
Theorem theme_fonts_by_scanning (themeXml : jsString) :
  Generator.extractFontsFromTheme themeXml = spec_fonts themeXml.
Proof. apply fonts_refine. Qed.

(** Well-formed results *)

Lemma token_at_valid t hex : token_at t = Some hex -> valid_hex hex = true.
Proof.
  unfold token_at, valid_hex.
  destruct (strip_prefix_ci _ t) as [r|]; [|discriminate].
  destruct (skipn 6 r) as [|q s5]; [discriminate|].
  destruct (Nat.eqb (List.length (firstn 6 r)) 6 && forallb Generator.hex_ci (firstn 6 r)
            && N.eqb q 34) eqn:E; [|discriminate].
  intros [= <-]. apply andb_true_iff in E as [E _]. exact E.
Qed.

Lemma lower_hex_unit c : Generator.hex_ci c = true -> lower_hex (lower_unit c) = true.
Proof.
  unfold Generator.hex_ci, lower_hex, lower_unit, canon, canonicalize, is_digit, between.
  intros H.
  repeat match goal with
         | |- context [N.leb ?a ?b] => destruct (N.leb_spec a b)
         | H : context [N.leb ?a ?b] |- _ => destruct (N.leb_spec a b)
         | |- context [N.eqb ?a ?b] => destruct (N.eqb_spec a b)
         | _ => progress cbn [andb orb negb snd] in *
         end; try reflexivity; try discriminate; try lia.
Qed.

Lemma spec_color_hex role content v :
  spec_color role content = Some v -> hex_colour v = true.
Proof.
  unfold spec_color. destruct (after_first_ci _ content) as [rest|]; [|discriminate].
  destruct (first_at token_at rest) as [hex|] eqn:F; [|discriminate].
  intros [= <-]. apply first_at_some in F as (t & _ & T). apply token_at_valid in T.
  unfold valid_hex in T. apply andb_true_iff in T as [L H].
  unfold hex_colour, toLowerCase. rewrite length_map, L.
  change (N.eqb 35 35) with true. cbn [andb].
  apply forallb_forall. intros x Hx. apply in_map_iff in Hx as (y & <- & Hy).
  apply lower_hex_unit. rewrite forallb_forall in H. now apply H.
Qed.

Lemma or_default_hex o d :
  (forall v, o = Some v -> hex_colour v = true) -> hex_colour d = true ->
  hex_colour (or_default o d) = true.
Proof. intros H Hd. destruct o as [v|]; cbn; [now apply H|exact Hd]. Qed.

Lemma take_while_forallb p s : forallb p (take_while p s) = true.
Proof.
  induction s as [|a s IH]; [reflexivity|]. cbn [take_while].
  destruct (p a) eqn:E; [|reflexivity]. cbn [forallb]. now rewrite E, IH.
Qed.

Lemma spec_font_named role themeXml v :
  spec_font role themeXml = Some v -> v <> [] /\ forallb (none_of 34) v = true.
Proof.
  unfold spec_font. destruct (after_first _ themeXml) as [rest|]; [|discriminate].
  intros F. apply first_at_some in F as (t & _ & T). unfold typeface_at in T.
  destruct (strip_prefix _ t) as [r|]; [|discriminate]. unfold quoted in T.
  pose proof (take_while_forallb (none_of 34) r) as W.
  destruct (take_while (none_of 34) r) as [|a w]; [discriminate|].
  destruct (drop_while (none_of 34) r); [discriminate|].
  injection T as <-. split; [discriminate|exact W].
Qed.

Lemma after_first_includes p s : after_first p s = None <-> includes s p = false.
Proof.
  unfold after_first. induction s as [|a s IH]; cbn [first_at includes]; unfold startsWith.
  - destruct (strip_prefix p []); cbn; split; congruence.
  - destruct (strip_prefix p (a :: s)); cbn [orb]; [split; congruence|exact IH].
Qed.

(** X13. Whatever the theme, the five colours [extractColorsFromTheme]
    returns are each a number sign followed by six lower-case hexadecimal
    digits, and the two font names [extractFontsFromTheme] returns are not
    empty and hold no double quote. *)
Theorem theme_values_well_formed (themeXml : jsString) :
  (hex_colour (Colors.primary (Generator.extractColorsFromTheme themeXml)) = true /\
   hex_colour (Colors.secondary (Generator.extractColorsFromTheme themeXml)) = true /\
   hex_colour (Colors.accent (Generator.extractColorsFromTheme themeXml)) = true /\
   hex_colour (Colors.text (Generator.extractColorsFromTheme themeXml)) = true /\
   hex_colour (Colors.background (Generator.extractColorsFromTheme themeXml)) = true) /\
  (Fonts.title (Generator.extractFontsFromTheme themeXml) <> [] /\
   forallb (none_of 34) (Fonts.title (Generator.extractFontsFromTheme themeXml)) = true /\
   Fonts.body (Generator.extractFontsFromTheme themeXml) <> [] /\
   forallb (none_of 34) (Fonts.body (Generator.extractFontsFromTheme themeXml)) = true).
Proof.
  rewrite colors_refine, fonts_refine. split.
  - unfold spec_colors. destruct (spec_scheme themeXml) as [content|];
      [|repeat split; reflexivity].
    cbn [Colors.primary Colors.secondary Colors.accent Colors.text Colors.background].
    repeat split; try reflexivity;
      (apply or_default_hex; [apply spec_color_hex|reflexivity]).
  - unfold spec_fonts. cbn [Fonts.title Fonts.body].
    destruct (spec_font (js "majorFont") themeXml) as [v|] eqn:F1;
      destruct (spec_font (js "minorFont") themeXml) as [w|] eqn:F2; cbn [or_default];
      try (apply spec_font_named in F1 as [N1 Q1]);
      try (apply spec_font_named in F2 as [N2 Q2]);
      repeat split; try assumption; try discriminate; reflexivity.
Qed.

Lemma spec_scheme_absent themeXml :
  includes themeXml (js "<a:clrScheme") = false \/
  includes themeXml (js "</a:clrScheme>") = false ->
  spec_scheme themeXml = None.
Proof.
  unfold spec_scheme. intros [H|H].
  - apply after_first_includes in H. now rewrite H.
  - apply after_first_includes in H.
    destruct (after_first (js "<a:clrScheme") themeXml) as [s1|] eqn:A; [|reflexivity].
    destruct (drop_while (none_of 62) s1) as [|q s2] eqn:D; [reflexivity|].
    apply before_first_none. apply (first_at_none_suffix _ themeXml); [|exact H].
    apply first_at_some in A as (u & Hu & Su). apply strip_prefix_takes in Su as [Su _].
    eapply is_suffix_trans; [|exact Hu]. eapply is_suffix_trans; [|exact Su].
    eapply is_suffix_trans; [|apply (drop_while_suffix (none_of 62) s1)].
    rewrite D. now exists [q].
Qed.

(** X14. A theme that holds no [<a:clrScheme] opening, or no
    [</a:clrScheme>] closing, gives the five default colours. *)
Theorem no_scheme_default_colours (themeXml : jsString) :
  includes themeXml (js "<a:clrScheme") = false \/
  includes themeXml (js "</a:clrScheme>") = false ->
  Generator.extractColorsFromTheme themeXml = defaultColors.
Proof.
  intros H. rewrite colors_refine. unfold spec_colors.
  now rewrite (spec_scheme_absent _ H).
Qed.

Lemma no_scheme_default_colours_witness :
  Generator.extractColorsFromTheme
    (jq "<a:theme name='Plain'><a:themeElements><a:clrScheme name='Cut'><a:dk1><a:srgbClr val='112233'/></a:dk1></a:themeElements></a:theme>")
  = defaultColors.
Proof.
  apply (no_scheme_default_colours
           (jq "<a:theme name='Plain'><a:themeElements><a:clrScheme name='Cut'><a:dk1><a:srgbClr val='112233'/></a:dk1></a:themeElements></a:theme>")).
  right. vm_compute. reflexivity.
Defined.

Lemma spec_font_absent role themeXml :
  includes themeXml (js "<a:" ++ role ++ js ">") = false \/
  includes themeXml (jq "typeface='") = false ->
  spec_font role themeXml = None.
Proof.
  unfold spec_font. intros [H|H].
  - apply after_first_includes in H. now rewrite H.
  - destruct (after_first (js "<a:" ++ role ++ js ">") themeXml) as [rest|] eqn:A;
      [|reflexivity].
    apply first_at_fails. intros t Ht. unfold typeface_at.
    apply after_first_includes in H.
    rewrite (first_at_none _ _ H t); [reflexivity|].
    apply first_at_some in A as (u & Hu & Su). apply strip_prefix_takes in Su as [Su _].
    eapply is_suffix_trans; [exact Ht|]. eapply is_suffix_trans; eassumption.
Qed.

(** X15. A theme that holds no [<a:majorFont>] tag, or no [typeface]
    attribute, gives the title font "Calibri"; the same for [<a:minorFont>]
    and the body font. *)
Theorem no_font_element_default (themeXml : jsString) :
  (includes themeXml (js "<a:majorFont>") = false \/
   includes themeXml (jq "typeface='") = false ->
   Fonts.title (Generator.extractFontsFromTheme themeXml) = js "Calibri") /\
  (includes themeXml (js "<a:minorFont>") = false \/
   includes themeXml (jq "typeface='") = false ->
   Fonts.body (Generator.extractFontsFromTheme themeXml) = js "Calibri").
Proof.
  rewrite fonts_refine. unfold spec_fonts. cbn [Fonts.title Fonts.body].
  split; intros H.
  - now rewrite (spec_font_absent (js "majorFont") _ H).
  - now rewrite (spec_font_absent (js "minorFont") _ H).
Qed.

Lemma no_font_element_default_witness :
  Fonts.title
    (Generator.extractFontsFromTheme
       (jq "<a:fontScheme name='Office'><a:minorFont><a:latin typeface='Georgia'/></a:minorFont></a:fontScheme>"))
  = js "Calibri".
Proof.
  apply (proj1 (no_font_element_default
                  (jq "<a:fontScheme name='Office'><a:minorFont><a:latin typeface='Georgia'/></a:minorFont></a:fontScheme>"))).
  left. vm_compute. reflexivity.
Defined.

(** ** The provider calls of the server *)

Lemma existsb_absent x s : existsb (N.eqb x) s = false -> ~ In x s.
Proof.
  intros H Hin. assert (existsb (N.eqb x) s = true) as E.
  { apply existsb_exists. exists x. split; [exact Hin|apply N.eqb_refl]. }
  congruence.
Qed.

Lemma split_last_trailing x s post :
  ~ In x post ->
  split_last x (s ++ post)
  = option_map (fun mr => (fst mr, snd mr ++ post)) (split_last x s).
Proof.
  intros H. induction s as [|a s IH]; cbn [app split_last].
  - now rewrite (split_last_absent _ _ H).
  - rewrite IH. destruct (split_last x s) as [[m r]|]; cbn [option_map fst snd];
      [reflexivity|].
    destruct (N.eqb x a); reflexivity.
Qed.

Lemma object_text_trailing s post :
  ~ In 125%N post -> object_text (s ++ post) = object_text s.
Proof.
  intros H. unfold object_text. destruct (from_first 123 s) as [q|] eqn:E.
  - rewrite (from_first_app _ _ _ _ E), (split_last_trailing _ _ _ H).
    now destruct (split_last 125 q) as [[m r]|].
  - rewrite (from_first_app_none _ _ _ E).
    destruct (from_first 123 post) as [r|] eqn:F; [|reflexivity].
    rewrite split_last_absent; [reflexivity|].
    intros Hin. apply H. eapply from_first_units; eassumption.
Qed.

Lemma object_text_leading pre s :
  ~ In 123%N pre -> object_text (pre ++ s) = object_text s.
Proof.
  intros H. unfold object_text.
  assert (from_first 123 (pre ++ s) = from_first 123 s) as ->; [|reflexivity].
  induction pre as [|a pre IH]; cbn [app from_first]; [reflexivity|].
  destruct (N.eqb_spec 123 a) as [E|_].
  - exfalso. apply H. left. now symmetry.
  - apply IH. intros Hin. apply H. now right.
Qed.

Lemma object_text_surrounded pre j post :
  existsb (N.eqb 123) pre = false -> existsb (N.eqb 125) post = false ->
  object_text (pre ++ j ++ post) = object_text j.
Proof.
  intros Hpre Hpost.
  rewrite (object_text_leading _ _ (existsb_absent _ _ Hpre)).
  apply object_text_trailing, existsb_absent, Hpost.
Qed.

Lemma parseObject_eq syn absent text :
  LlmService.parseObject syn absent text =
  match object_text text with
  | None => throw absent
  | Some t =>
      match JSON_parse t with
      | None => throw (syn t)
      | Some structure => ret structure
      end
  end.
Proof.
  unfold LlmService.parseObject. rewrite <- search_object.
  now destruct (search Generator.re_object text).
Qed.

Lemma object_text_opens text t : object_text text = Some t -> exists s, t = 123%N :: s.
Proof.
  unfold object_text. destruct (from_first 123 text) as [r|]; [|discriminate].
  destruct (split_last 125 r) as [[m q]|]; [|discriminate]. intros [= <-]. eauto.
Qed.

Lemma parseObject_object syn absent text v :
  LlmService.parseObject syn absent text = inr v -> exists ps, v = VObj ps.
Proof.
  rewrite parseObject_eq. destruct (object_text text) as [t|] eqn:E; [|discriminate].
  destruct (object_text_opens _ _ E) as (s & ->).
  destruct (JSON_parse (123%N :: s)) as [w|] eqn:P; [|discriminate].
  intros [= <-]. eapply JSON_parse_object; exact P.
Qed.

(** X16. Whatever the provider answered, a structure [callGemini] returns
    is a JSON object whose [slides] is an array. *)
Theorem gemini_structure_is_validated
    (syn : jsString -> jsString) (rd : option value -> jsString -> jsString)
    (response : outcome jsString) (slideStructure : value) :
  LlmService.callGemini syn rd response = inr slideStructure ->
  exists props items named,
    slideStructure = VObj props /\
    get (js "slides") slideStructure = Some (VArr items named).
Proof.
  unfold LlmService.callGemini.
  destruct response as [m|text]; cbn [bind]; [discriminate|].
  destruct (LlmService.parseObject syn _ text) as [m|v] eqn:P; cbn [bind]; [discriminate|].
  destruct (parseObject_object _ _ _ _ P) as (ps & ->).
  cbn [LlmService.read bind ret].
  destruct (get (js "slides") (VObj ps)) as [[| | | |items named|]|] eqn:G;
    cbn [truthy_opt truthy isArray negb orb];
    try discriminate;
    try (destruct (negb _); discriminate).
  intros [= <-]. exists ps, items, named. split; [reflexivity|exact G].
Qed.

Lemma gemini_structure_is_validated_witness :
  exists props items named,
    VObj [ (js "slides", VArr [] []) ] = VObj props /\
    get (js "slides") (VObj [ (js "slides", VArr [] []) ]) = Some (VArr items named).
Proof.
  apply (gemini_structure_is_validated (fun _ => []) (fun _ _ => [])
           (inr (jq "Sure! {'slides': []}"))).
  vm_compute. reflexivity.
Defined.

(** X17. Text around the object does not matter to the server: when what
    precedes holds no opening brace and what follows holds no closing
    brace - a Markdown code fence, a greeting - [callGemini] gives for the
    answer what it gives for the object text alone, and so does
    [callOpenAI] for the content of the first choice. *)
Theorem prose_around_object_is_ignored
    (syn : jsString -> jsString) (rd : option value -> jsString -> jsString)
    (nf : value -> jsString) (so : value -> jsString)
    (pre j post : jsString) :
  existsb (N.eqb 123) pre = false ->
  existsb (N.eqb 125) post = false ->
  LlmService.callGemini syn rd (inr (pre ++ j ++ post))
  = LlmService.callGemini syn rd (inr j) /\
  LlmService.callOpenAI syn rd nf so (inr (chat_reply (pre ++ j ++ post)))
  = LlmService.callOpenAI syn rd nf so (inr (chat_reply j)).
Proof.
  intros Hpre Hpost.
  assert (forall absent, LlmService.parseObject syn absent (pre ++ j ++ post)
                         = LlmService.parseObject syn absent j) as E.
  { intros absent. now rewrite !parseObject_eq, (object_text_surrounded _ _ _ Hpre Hpost). }
  split.
  - unfold LlmService.callGemini. cbn [bind]. now rewrite E.
  - unfold LlmService.callOpenAI, chat_reply. cbn. now rewrite E.
Qed.

Lemma prose_around_object_is_ignored_witness :
  LlmService.callGemini (fun _ => []) (fun _ _ => [])
    (inr (fenced (jq "{'slides': [{'layout': 'title', 'title': 'Plan'}]}")))
  = LlmService.callGemini (fun _ => []) (fun _ _ => [])
      (inr (jq "{'slides': [{'layout': 'title', 'title': 'Plan'}]}")).
Proof.
  apply (proj1 (prose_around_object_is_ignored (fun _ => []) (fun _ _ => [])
                  (fun _ => []) (fun _ => [])
                  (js "```json" ++ [10%N])
                  (jq "{'slides': [{'layout': 'title', 'title': 'Plan'}]}")
                  ([10%N] ++ js "```") eq_refl eq_refl)).
Defined.

(** X18. The two providers are not checked alike. For an answer whose
    object text parses to a value with no [slides] array, [callGemini]
    throws "LLM generation failed: Invalid slide structure from LLM", while
    [callOpenAI], given that answer as the content of the first choice,
    returns the value as it is. *)
Theorem providers_validate_differently
    (syn : jsString -> jsString) (rd : option value -> jsString -> jsString)
    (nf : value -> jsString) (so : value -> jsString)
    (text t : jsString) (structure : value) :
  object_text text = Some t ->
  JSON_parse t = Some structure ->
  isArray (get (js "slides") structure) = false ->
  LlmService.callGemini syn rd (inr text)
  = throw (js "LLM generation failed: Invalid slide structure from LLM") /\
  LlmService.callOpenAI syn rd nf so (inr (chat_reply text)) = inr structure.
Proof.
  intros T P A.
  destruct (object_text_opens _ _ T) as (s & ->).
  destruct (JSON_parse_object _ _ P) as (ps & ->).
  split.
  - unfold LlmService.callGemini. cbn [bind]. rewrite parseObject_eq, T, P.
    cbn [bind ret LlmService.read]. rewrite A, orb_true_r. reflexivity.
  - unfold LlmService.callOpenAI, chat_reply. cbn. now rewrite parseObject_eq, T, P.
Qed.

Lemma providers_validate_differently_witness :
  LlmService.callGemini (fun _ => []) (fun _ _ => []) (inr (jq "{'title': 'Plan'}"))
  = throw (js "LLM generation failed: Invalid slide structure from LLM") /\
  LlmService.callOpenAI (fun _ => []) (fun _ _ => []) (fun _ => []) (fun _ => [])
    (inr (chat_reply (jq "{'title': 'Plan'}")))
  = inr (VObj [ (js "title", VStr (js "Plan")) ]).
Proof.
  apply (providers_validate_differently (fun _ => []) (fun _ _ => [])
           (fun _ => []) (fun _ => [])
           (jq "{'title': 'Plan'}") (jq "{'title': 'Plan'}")
           (VObj [ (js "title", VStr (js "Plan")) ])).
  - vm_compute. reflexivity.
  - vm_compute. reflexivity.
  - reflexivity.
Defined.

(** X19. An answer that holds no opening brace followed by a closing brace
    makes [callGemini] throw "LLM generation failed: No valid JSON found in
    LLM response" and [callOpenAI] throw "OpenAI generation failed: No valid
    JSON found in OpenAI response"; a provider other than "gemini" and
    "openai" makes [callLLM] throw "Unsupported LLM provider", not wrapped. *)
Theorem no_object_no_structure
    (syn : jsString -> jsString) (rd : option value -> jsString -> jsString)
    (nf : value -> jsString) (so : value -> jsString) :
  (forall text, object_span text = false ->
     LlmService.callGemini syn rd (inr text)
     = throw (js "LLM generation failed: No valid JSON found in LLM response") /\
     LlmService.callOpenAI syn rd nf so (inr (chat_reply text))
     = throw (js "OpenAI generation failed: No valid JSON found in OpenAI response")) /\
  (forall provider response fetched,
     eqs provider (js "gemini") = false -> eqs provider (js "openai") = false ->
     LlmService.callLLM syn rd nf so provider response fetched
     = throw (js "Unsupported LLM provider")).
Proof.
  split.
  - intros text H. apply object_text_span in H. split.
    + unfold LlmService.callGemini. cbn [bind]. now rewrite parseObject_eq, H.
    + unfold LlmService.callOpenAI, chat_reply. cbn. now rewrite parseObject_eq, H.
  - intros provider response fetched G O. unfold LlmService.callLLM. now rewrite G, O.
Qed.

Lemma no_object_no_structure_witness :
  LlmService.callGemini (fun _ => []) (fun _ _ => []) (inr (js "I cannot help with that."))
  = throw (js "LLM generation failed: No valid JSON found in LLM response").
Proof.
  apply (proj1 (proj1 (no_object_no_structure (fun _ => []) (fun _ _ => [])
                         (fun _ => []) (fun _ => []))
                  (js "I cannot help with that.") eq_refl)).
Defined.

(** ** The deck the server writes *)

Lemma slide_at_first low msg info s :
  exists placed, BackendGenerator.slide_at low msg info 0 s = inr placed.
Proof. unfold BackendGenerator.slide_at. cbn [Nat.eqb bind ret]. eauto. Qed.

Lemma slide_at_bare low msg info i s :
  BackendGenerator.SlideData.layout s = None ->
  BackendGenerator.slide_at low msg info (S i) s = inl (msg s).
Proof.
  intros H. unfold BackendGenerator.slide_at, BackendGenerator.layout_includes.
  cbn [Nat.eqb]. now rewrite H.
Qed.

Lemma slide_at_layout low msg info i s l :
  BackendGenerator.SlideData.layout s = Some l ->
  exists placed, BackendGenerator.slide_at low msg info i s = inr placed.
Proof.
  intros H. unfold BackendGenerator.slide_at, BackendGenerator.layout_includes.
  rewrite H. destruct (Nat.eqb i 0); cbn [bind ret]; [eauto|].
  destruct (includes (low l) (js "title")); cbn [bind ret]; [eauto|].
  destruct (_ || _); cbn [bind ret]; eauto.
Qed.

Lemma slides_from_later low msg info l :
  forall i,
    match find (fun s => match BackendGenerator.SlideData.layout s with
                         | Some _ => false
                         | None => true
                         end) l with
    | None => exists placed,
        BackendGenerator.slides_from low msg info (S i) l = inr placed
    | Some s => BackendGenerator.slides_from low msg info (S i) l = inl (msg s)
    end.
Proof.
  induction l as [|s l IH]; intros i; cbn [find BackendGenerator.slides_from].
  - eauto.
  - destruct (BackendGenerator.SlideData.layout s) as [lay|] eqn:L.
    + destruct (slide_at_layout low msg info (S i) s lay L) as (placed & ->).
      cbn [bind]. specialize (IH (S i)).
      destruct (find _ l) as [b|].
      * now rewrite IH.
      * destruct IH as (others & ->). cbn [bind ret]. eauto.
    + now rewrite (slide_at_bare low msg info i s L).
Qed.

Lemma slides_from_length low msg info l :
  forall i placed,
    BackendGenerator.slides_from low msg info i l = inr placed ->
    List.length placed = List.length l.
Proof.
  induction l as [|s l IH]; intros i placed; cbn [BackendGenerator.slides_from].
  - now intros [= <-].
  - destruct (BackendGenerator.slide_at low msg info i s) as [m|p]; cbn [bind]; [discriminate|].
    destruct (BackendGenerator.slides_from low msg info (S i) l) as [m|others] eqn:E;
      cbn [bind ret]; [discriminate|].
    intros [= <-]. cbn [List.length]. f_equal. eapply IH; exact E.
Qed.

(** X20. When the deck file can be written, the server generates the
    deck exactly when every slide after the first names a layout: the
    first slide never needs one. If so, the deck has one slide per slide
    of the structure and goes to the path made for it; otherwise the call
    throws "Failed to generate presentation: " followed by the message of
    the type error raised on the first slide that names none. *)
Theorem later_slides_need_layout
    (low : jsString -> jsString)
    (msg : BackendGenerator.SlideData.t -> jsString) (outputPath : jsString)
    (slideStructure : BackendGenerator.SlideStructure.t)
    (templateInfo : Backend.templateInfo) :
  (first_bare (BackendGenerator.SlideStructure.slides slideStructure) = None ->
   exists pres,
     BackendGenerator.generatePresentation low msg outputPath (inr tt) slideStructure templateInfo
     = inr pres /\
     List.length (BackendGenerator.Pres.slides pres)
     = List.length (BackendGenerator.SlideStructure.slides slideStructure) /\
     BackendGenerator.Pres.outputPath pres = outputPath) /\
  (forall s,
     first_bare (BackendGenerator.SlideStructure.slides slideStructure) = Some s ->
     BackendGenerator.generatePresentation low msg outputPath (inr tt) slideStructure templateInfo
     = throw (js "Failed to generate presentation: " ++ msg s)).
Proof.
  unfold first_bare, BackendGenerator.generatePresentation.
  destruct (BackendGenerator.SlideStructure.slides slideStructure) as [|s0 l];
    cbn [tl BackendGenerator.slides_from].
  - split; [|discriminate]. intros _. cbn [bind ret]. eexists. repeat split.
  - destruct (slide_at_first low msg templateInfo s0) as (p0 & ->). cbn [bind].
    pose proof (slides_from_later low msg templateInfo l 0) as H.
    pose proof (slides_from_length low msg templateInfo l 1) as L.
    destruct (find _ l) as [b|].
    + split; [discriminate|]. intros s [= <-]. now rewrite H.
    + split; [|discriminate]. intros _. destruct H as (others & E).
      rewrite E in *. cbn [bind ret]. eexists. repeat split.
      cbn [BackendGenerator.Pres.slides List.length]. f_equal. now apply L.
Qed.

Lemma later_slides_need_layout_witness :
  BackendGenerator.generatePresentation toLowerCase (fun _ => js "no layout")
    (js "uploads/presentation-1.pptx") (inr tt)
    {| BackendGenerator.SlideStructure.presentationTitle := None;
       BackendGenerator.SlideStructure.slides :=
         [ {| BackendGenerator.SlideData.layout := None;
              BackendGenerator.SlideData.title := Some (js "Plan");
              BackendGenerator.SlideData.content := None;
              BackendGenerator.SlideData.image := None;
              BackendGenerator.SlideData.notes := None |};
           {| BackendGenerator.SlideData.layout := None;
              BackendGenerator.SlideData.title := Some (js "Next");
              BackendGenerator.SlideData.content := None;
              BackendGenerator.SlideData.image := None;
              BackendGenerator.SlideData.notes := None |} ] |}
    {| Backend.colors := []; Backend.fonts := []; Backend.layouts := [];
       Backend.images := [];
       Backend.slideSize := {| SlideSize.width := 10; SlideSize.height := 7.5 |}%Q |}
  = throw (js "Failed to generate presentation: no layout").
Proof.
  apply (proj2 (later_slides_need_layout toLowerCase (fun _ => js "no layout")
                  (js "uploads/presentation-1.pptx") _ _)
           {| BackendGenerator.SlideData.layout := None;
              BackendGenerator.SlideData.title := Some (js "Next");
              BackendGenerator.SlideData.content := None;
              BackendGenerator.SlideData.image := None;
              BackendGenerator.SlideData.notes := None |}).
  reflexivity.
Defined.

Lemma forallb_app_true {A : Type} (p : A -> bool) a b :
  forallb p a = true -> forallb p b = true -> forallb p (a ++ b) = true.
Proof. intros Ha Hb. rewrite forallb_app. now rewrite Ha, Hb. Qed.

Lemma createTitleSlide_in_area s c1 c2 :
  forallb placed_in_area (BackendGenerator.createTitleSlide s c1 c2) = true.
Proof.
  unfold BackendGenerator.createTitleSlide.
  destruct (BackendGenerator.SlideData.content s) as [c|]; [|reflexivity].
  destruct (BackendGenerator.has_content (Some c) && Nat.ltb 0 (BackendGenerator.content_length c));
    reflexivity.
Qed.

Lemma createSectionSlide_in_area s c1 c2 :
  forallb placed_in_area (BackendGenerator.createSectionSlide s c1 c2) = true.
Proof. reflexivity. Qed.

Lemma createContentSlide_in_area low s c1 c2 info :
  forallb placed_in_area (BackendGenerator.createContentSlide low s c1 c2 info) = true.
Proof.
  unfold BackendGenerator.createContentSlide.
  repeat apply forallb_app_true; try reflexivity.
  - destruct (BackendGenerator.SlideData.content s) as [[items|[|a text]]|];
      try reflexivity;
      destruct (BackendGenerator.present (BackendGenerator.SlideData.image s)); reflexivity.
  - destruct (BackendGenerator.SlideData.image s) as [[|a wanted]|]; try reflexivity.
    destruct (find _ (Backend.images info)); reflexivity.
Qed.

Lemma slide_at_cases low msg info i s placed :
  BackendGenerator.slide_at low msg info i s = inr placed ->
  exists body,
    placed = body ++ match BackendGenerator.SlideData.notes s with
                     | Some ((_ :: _) as n) => [BackendGenerator.addNotes n]
                     | _ => []
                     end /\
    (body = BackendGenerator.createTitleSlide s
              (BackendGenerator.color_or (Backend.colors info) 0 (js "#1F4E79"))
              (BackendGenerator.color_or (Backend.colors info) 1 (js "#FFFFFF")) \/
     body = BackendGenerator.createSectionSlide s
              (BackendGenerator.color_or (Backend.colors info) 0 (js "#1F4E79"))
              (BackendGenerator.color_or (Backend.colors info) 1 (js "#FFFFFF")) \/
     body = BackendGenerator.createContentSlide low s
              (BackendGenerator.color_or (Backend.colors info) 0 (js "#1F4E79"))
              (BackendGenerator.color_or (Backend.colors info) 3 (js "#000000")) info).
Proof.
  unfold BackendGenerator.slide_at.
  destruct (Nat.eqb i 0).
  - intros H. eexists. split; [|left; reflexivity].
    injection H as H. rewrite <- H. reflexivity.
  - destruct (BackendGenerator.layout_includes low msg s (js "title")) as [m|[|]];
      [discriminate| |].
    + intros H. eexists. split; [|left; reflexivity].
      injection H as H. rewrite <- H. reflexivity.
    + destruct (BackendGenerator.layout_includes low msg s (js "section")) as [m|sec];
        [discriminate|].
      destruct (sec || (BackendGenerator.present (BackendGenerator.SlideData.title s)
                        && negb (BackendGenerator.has_content
                                   (BackendGenerator.SlideData.content s)))) eqn:C;
        intros H.
      * eexists. split; [|right; left; reflexivity].
        cbn [bind ret] in H. rewrite C in H. injection H as H. rewrite <- H. reflexivity.
      * eexists. split; [|right; right; reflexivity].
        cbn [bind ret] in H. rewrite C in H. injection H as H. rewrite <- H. reflexivity.
Qed.

Lemma slide_at_in_area low msg info i s placed :
  BackendGenerator.slide_at low msg info i s = inr placed ->
  forallb placed_in_area placed = true.
Proof.
  intros H. apply slide_at_cases in H as (body & -> & B).
  apply forallb_app_true.
  - destruct B as [->|[->| ->]];
      [apply createTitleSlide_in_area|reflexivity|apply createContentSlide_in_area].
  - destruct (BackendGenerator.SlideData.notes s) as [[|a n]|]; reflexivity.
Qed.

Lemma slides_from_Forall2 low msg info (P : nat -> BackendGenerator.SlideData.t ->
                                        list BackendGenerator.directive -> Prop) l :
  (forall i s placed, BackendGenerator.slide_at low msg info i s = inr placed -> P i s placed) ->
  forall i placed,
    BackendGenerator.slides_from low msg info i l = inr placed ->
    Forall2 (fun s ds => exists j, P j s ds) l placed.
Proof.
  intros H. induction l as [|s l IH]; intros i placed; cbn [BackendGenerator.slides_from].
  - intros [= <-]. constructor.
  - destruct (BackendGenerator.slide_at low msg info i s) as [m|p] eqn:E; cbn [bind];
      [discriminate|].
    destruct (BackendGenerator.slides_from low msg info (S i) l) as [m|others] eqn:F;
      cbn [bind ret]; [discriminate|].
    intros [= <-]. constructor; [exists i; now apply H|eapply IH; exact F].
Qed.

Lemma generated_slides low msg path written structure info pres :
  BackendGenerator.generatePresentation low msg path written structure info = inr pres ->
  BackendGenerator.slides_from low msg info 0 (BackendGenerator.SlideStructure.slides structure)
  = inr (BackendGenerator.Pres.slides pres).
Proof.
  unfold BackendGenerator.generatePresentation.
  destruct (BackendGenerator.slides_from low msg info 0 _) as [m|placed]; cbn [bind];
    [discriminate|].
  destruct written as [m|u]; cbn [bind ret]; [discriminate|]. now intros [= <-].
Qed.

(** X21. Whatever the structure and the template, every text, bullet
    list, rectangle and image of a deck the server generates lies in the
    area 10 inches wide and 7.5 inches high that starts at the top left
    corner of the slide. *)
Theorem server_frames_in_area
    (low : jsString -> jsString)
    (msg : BackendGenerator.SlideData.t -> jsString) (outputPath : jsString)
    (written : outcome unit) (slideStructure : BackendGenerator.SlideStructure.t)
    (templateInfo : Backend.templateInfo) (pres : BackendGenerator.Pres.t) :
  BackendGenerator.generatePresentation low msg outputPath written slideStructure templateInfo
  = inr pres ->
  forallb (forallb placed_in_area) (BackendGenerator.Pres.slides pres) = true.
Proof.
  intros H. apply generated_slides in H.
  apply (slides_from_Forall2 low msg templateInfo
           (fun _ _ placed => forallb placed_in_area placed = true)) in H;
    [|intros i s placed; apply slide_at_in_area].
  induction H as [|s ds l placed (j & E) _ IH]; [reflexivity|].
  cbn [forallb]. now rewrite E, IH.
Qed.

Lemma server_frames_in_area_witness :
  forallb (forallb placed_in_area)
    [ [ BackendGenerator.addText (Some (js "Plan"))
          {| BackendGenerator.Options.x := 1; BackendGenerator.Options.y := 2.5;
             BackendGenerator.Options.w := 8; BackendGenerator.Options.h := 1.5;
             BackendGenerator.Options.fontSize := 36;
             BackendGenerator.Options.bold := Some true;
             BackendGenerator.Options.color := js "#1F4E79";
             BackendGenerator.Options.align := Some (js "center");
             BackendGenerator.Options.fontFace := js "Calibri";
             BackendGenerator.Options.lineSpacing := None |}%Q;
        BackendGenerator.addShape (js "rect")
          {| BackendGenerator.Frame.x := 0; BackendGenerator.Frame.y := 6.5;
             BackendGenerator.Frame.w := 10; BackendGenerator.Frame.h := 1 |}%Q
          (js "#1F4E79");
        BackendGenerator.addNotes (js "Welcome") ] ] = true.
Proof.
  apply (server_frames_in_area toLowerCase (fun _ => []) (js "uploads/presentation-1.pptx") (inr tt)
           {| BackendGenerator.SlideStructure.presentationTitle := Some (js "Plan");
              BackendGenerator.SlideStructure.slides :=
                [ {| BackendGenerator.SlideData.layout := None;
                     BackendGenerator.SlideData.title := Some (js "Plan");
                     BackendGenerator.SlideData.content := None;
                     BackendGenerator.SlideData.image := None;
                     BackendGenerator.SlideData.notes := Some (js "Welcome") |} ] |}
           {| Backend.colors := []; Backend.fonts := []; Backend.layouts := [];
              Backend.images := [];
              Backend.slideSize := {| SlideSize.width := 10; SlideSize.height := 7.5 |}%Q |}
           {| BackendGenerator.Pres.layout := js "LAYOUT_WIDE";
              BackendGenerator.Pres.title := js "Plan";
              BackendGenerator.Pres.slides := _;
              BackendGenerator.Pres.outputPath := js "uploads/presentation-1.pptx" |}).
  reflexivity.
Defined.

Lemma rectangles_app a b : rectangles (a ++ b) = rectangles a ++ rectangles b.
Proof. apply flat_map_app. Qed.

Lemma pictures_app a b : pictures (a ++ b) = pictures a ++ pictures b.
Proof. apply flat_map_app. Qed.

Lemma notes_of_app a b : notes_of (a ++ b) = notes_of a ++ notes_of b.
Proof. apply flat_map_app. Qed.

Lemma createTitleSlide_placed s c1 c2 :
  (exists t o rest, BackendGenerator.createTitleSlide s c1 c2
                    = BackendGenerator.addText t o :: rest) /\
  rectangles (BackendGenerator.createTitleSlide s c1 c2) = [c1] /\
  notes_of (BackendGenerator.createTitleSlide s c1 c2) = [] /\
  pictures (BackendGenerator.createTitleSlide s c1 c2) = [].
Proof.
  unfold BackendGenerator.createTitleSlide.
  split; [eexists; eexists; eexists; reflexivity|].
  destruct (BackendGenerator.SlideData.content s) as [c|]; [|repeat split].
  destruct (BackendGenerator.has_content (Some c)
            && Nat.ltb 0 (BackendGenerator.content_length c)); repeat split.
Qed.

Lemma createContentSlide_placed low s c1 c2 info :
  (exists t o rest, BackendGenerator.createContentSlide low s c1 c2 info
                    = BackendGenerator.addText t o :: rest) /\
  rectangles (BackendGenerator.createContentSlide low s c1 c2 info) = [c1] /\
  notes_of (BackendGenerator.createContentSlide low s c1 c2 info) = [] /\
  (List.length (pictures (BackendGenerator.createContentSlide low s c1 c2 info)) <= 1)%nat.
Proof.
  unfold BackendGenerator.createContentSlide.
  split; [eexists; eexists; eexists; reflexivity|].
  rewrite !rectangles_app, !notes_of_app, !pictures_app.
  destruct (BackendGenerator.SlideData.content s) as [[items|[|a text]]|];
    destruct (BackendGenerator.SlideData.image s) as [[|b wanted]|];
    try destruct (find _ (Backend.images info));
    cbn; repeat split; lia.
Qed.

Lemma slide_at_placed low msg info i s placed :
  BackendGenerator.slide_at low msg info i s = inr placed ->
  well_placed (BackendGenerator.color_or (Backend.colors info) 0 (js "#1F4E79")) s placed.
Proof.
  intros H. apply slide_at_cases in H as (body & -> & B).
  assert (forall c,
            (exists t o rest, body = BackendGenerator.addText t o :: rest) /\
            rectangles body = [c] /\ notes_of body = [] /\
            (List.length (pictures body) <= 1)%nat ->
            well_placed c s
              (body ++ match BackendGenerator.SlideData.notes s with
                       | Some ((_ :: _) as n) => [BackendGenerator.addNotes n]
                       | _ => []
                       end)) as W.
  { intros c ((t & o & rest & ->) & R & N & P). unfold well_placed, wanted_notes.
    rewrite rectangles_app, notes_of_app, pictures_app, R, N.
    destruct (BackendGenerator.SlideData.notes s) as [[|a n]|]; cbn [app];
      (split; [eexists; eexists; eexists; reflexivity|]); cbn;
      rewrite ?app_nil_r; repeat split; try reflexivity; exact P. }
  apply W. destruct B as [->|[->| ->]].
  - destruct (createTitleSlide_placed s
                (BackendGenerator.color_or (Backend.colors info) 0 (js "#1F4E79"))
                (BackendGenerator.color_or (Backend.colors info) 1 (js "#FFFFFF")))
      as (A & R & N & P).
    repeat split; try assumption. rewrite P. cbn. lia.
  - split; [eexists; eexists; eexists; reflexivity|]. cbn. repeat split. lia.
  - apply createContentSlide_placed.
Qed.

(** X22. A deck the server generates follows the structure slide by
    slide, in order: each deck slide starts with a title text and holds
    exactly one rectangle, filled with the primary colour (the first colour
    of the template, or #1F4E79), the notes of its slide when these are not
    empty and no notes otherwise, and one image at most. *)
Theorem server_deck_follows_structure
    (low : jsString -> jsString)
    (msg : BackendGenerator.SlideData.t -> jsString) (outputPath : jsString)
    (written : outcome unit) (slideStructure : BackendGenerator.SlideStructure.t)
    (templateInfo : Backend.templateInfo) (pres : BackendGenerator.Pres.t) :
  BackendGenerator.generatePresentation low msg outputPath written slideStructure templateInfo
  = inr pres ->
  Forall2 (well_placed (BackendGenerator.color_or (Backend.colors templateInfo) 0
                          (js "#1F4E79")))
          (BackendGenerator.SlideStructure.slides slideStructure)
          (BackendGenerator.Pres.slides pres).
Proof.
  intros H. apply generated_slides in H.
  apply (slides_from_Forall2 low msg templateInfo
           (fun _ s placed =>
              well_placed (BackendGenerator.color_or (Backend.colors templateInfo) 0
                             (js "#1F4E79")) s placed)) in H;
    [|intros i s placed; apply slide_at_placed].
  induction H as [|s ds l placed (j & E) _ IH]; constructor; assumption.
Qed.

Lemma server_deck_follows_structure_witness :
  Forall2 (well_placed (js "#1F4E79"))
    [ {| BackendGenerator.SlideData.layout := None;
         BackendGenerator.SlideData.title := Some (js "Plan");
         BackendGenerator.SlideData.content := None;
         BackendGenerator.SlideData.image := None;
         BackendGenerator.SlideData.notes := Some (js "Welcome") |} ]
    [ [ BackendGenerator.addText (Some (js "Plan"))
          {| BackendGenerator.Options.x := 1; BackendGenerator.Options.y := 2.5;
             BackendGenerator.Options.w := 8; BackendGenerator.Options.h := 1.5;
             BackendGenerator.Options.fontSize := 36;
             BackendGenerator.Options.bold := Some true;
             BackendGenerator.Options.color := js "#1F4E79";
             BackendGenerator.Options.align := Some (js "center");
             BackendGenerator.Options.fontFace := js "Calibri";
             BackendGenerator.Options.lineSpacing := None |}%Q;
        BackendGenerator.addShape (js "rect")
          {| BackendGenerator.Frame.x := 0; BackendGenerator.Frame.y := 6.5;
             BackendGenerator.Frame.w := 10; BackendGenerator.Frame.h := 1 |}%Q
          (js "#1F4E79");
        BackendGenerator.addNotes (js "Welcome") ] ].
Proof.
  apply (server_deck_follows_structure toLowerCase (fun _ => []) (js "uploads/presentation-1.pptx")
           (inr tt)
           {| BackendGenerator.SlideStructure.presentationTitle := Some (js "Plan");
              BackendGenerator.SlideStructure.slides :=
                [ {| BackendGenerator.SlideData.layout := None;
                     BackendGenerator.SlideData.title := Some (js "Plan");
                     BackendGenerator.SlideData.content := None;
                     BackendGenerator.SlideData.image := None;
                     BackendGenerator.SlideData.notes := Some (js "Welcome") |} ] |}
           {| Backend.colors := []; Backend.fonts := []; Backend.layouts := [];
              Backend.images := [];
              Backend.slideSize := {| SlideSize.width := 10; SlideSize.height := 7.5 |}%Q |}
           {| BackendGenerator.Pres.layout := js "LAYOUT_WIDE";
              BackendGenerator.Pres.title := js "Plan";
              BackendGenerator.Pres.slides := _;
              BackendGenerator.Pres.outputPath := js "uploads/presentation-1.pptx" |}).
  reflexivity.
Defined.

(** ** Layout names and the layout of content slides *)

Lemma exec_at_name s :
  option_map (fun x => captured 1 (fst x)) (exec_at Generator.re_name s)
  = attribute_at (jq "name='") s.
Proof.
  unfold exec_at, Generator.re_name, attribute_at. rewrite run_seq_of_cons, run_lit.
  destruct (strip_prefix _ s) as [r|]; [|reflexivity].
  rewrite run_seq_of_cons. unfold seq_of, plus. cbn [run].
  unfold quoted. destruct r as [|a r]; [reflexivity|].
  cbn [take_while drop_while]. destruct (none_of 34 a) eqn:E; [|reflexivity].
  rewrite star_exact.
  - destruct (drop_while (none_of 34) r) as [|q rest] eqn:D; [reflexivity|].
    pose proof (drop_while_head _ _ _ _ D) as Q. unfold none_of in Q.
    apply negb_false_iff in Q. unfold unit_is. rewrite Q. unfold accept.
    cbn [option_map fst captured group Nat.eqb]. f_equal. rewrite <- D.
    pose proof (firstn_take_while (none_of 34) (a :: r)) as F.
    cbn [take_while drop_while] in F. rewrite E in F. exact F.
  - intros b t c' Hb. cbn [run]. unfold unit_is, none_of in *.
    apply negb_true_iff in Hb. now rewrite Hb.
Qed.

Lemma layout_name_refines mkBox layoutXml :
  exists tb cb,
    Generator.extractLayoutPositions_with mkBox layoutXml
    = Some {| Layout.name := spec_layout_name layoutXml;
              Layout.titleBox := tb; Layout.contentBox := cb |}.
Proof.
  unfold Generator.extractLayoutPositions_with, spec_layout_name.
  eexists. eexists. f_equal. f_equal.
  rewrite <- (first_at_ext _ _ layoutXml exec_at_name), <- first_at_map.
  pose proof (found_groups_first_at Generator.re_name layoutXml) as F.
  unfold found_groups in F.
  destruct (search Generator.re_name layoutXml) as [m|];
    destruct (first_at (exec_at Generator.re_name) layoutXml) as [[c r]|];
    cbn in *; congruence.
Qed.

(** X23. In both copies of the generator the name of an extracted layout
    is the value of the first [name] attribute with a value that is not
    empty found anywhere in the layout text - that of the slide element
    or, failing it, of a shape - and "Content Layout" when there is none;
    the layout of the master is always named "Master Layout". *)
Theorem layout_name_by_scanning (layoutXml : jsString) :
  (exists tb cb,
     Generator.extractLayoutPositions layoutXml
     = Some {| Layout.name := spec_layout_name layoutXml;
               Layout.titleBox := tb; Layout.contentBox := cb |}) /\
  (exists tb cb,
     GeneratorCopy.extractLayoutPositions layoutXml
     = Some {| Layout.name := spec_layout_name layoutXml;
               Layout.titleBox := tb; Layout.contentBox := cb |}) /\
  (exists tb cb,
     Generator.extractMasterLayout layoutXml
     = Some {| Layout.name := js "Master Layout";
               Layout.titleBox := tb; Layout.contentBox := cb |}).
Proof.
  split; [apply layout_name_refines|]. split; [apply layout_name_refines|].
  unfold Generator.extractMasterLayout. eexists. eexists. reflexivity.
Qed.

Lemma read_layouts_keeps extract files names :
  forall acc layouts,
    Generator.read_layouts extract files names acc = inr layouts ->
    exists more, layouts = acc ++ more.
Proof.
  induction names as [|n names IH]; intros acc layouts; cbn [Generator.read_layouts].
  - intros [= <-]. exists []. now rewrite app_nil_r.
  - destruct (file n files) as [[m|p]|]; cbn [bind].
    + discriminate.
    + destruct (extract (as_text p)).
      * intros H. apply IH in H as (more & ->). rewrite <- app_assoc. eauto.
      * apply IH.
    + apply IH.
Qed.

Lemma chooseLayout_master m rest type :
  Generator.named_title m = false ->
  eqs type (js "title") = false ->
  Generator.chooseLayout type (m :: rest) = m.
Proof.
  intros N T. unfold Generator.chooseLayout. rewrite T. cbn [andb].
  destruct (Nat.ltb 1 (List.length (m :: rest))); [|reflexivity].
  cbn [find]. now rewrite N.
Qed.

(** X24. When the archive holds a slide master that can be read and the
    extraction succeeds, the layout list of the template description starts
    with the layout of the master, and for every slide type other than
    "title" the layout [createPresentationWithTemplate] chooses is that
    layout, whatever the layout files hold: the layouts read from the
    layout files can be chosen for slides of type "title" only. What the
    chosen boxes then become on the slide (a zero coordinate gives way to
    the fallback, the first slide takes the title geometry) is not part of
    this property. *)
Theorem master_layout_is_chosen
    (files : list (jsString * outcome payload)) (p : payload)
    (t : TemplateData.t) (type : jsString) :
  file (js "ppt/slideMasters/slideMaster1.xml") files = Some (inr p) ->
  Generator.extractTemplateData_try Generator.extractLayoutPositions (Archive files)
  = inr t ->
  eqs type (js "title") = false ->
  exists master rest,
    Generator.extractMasterLayout (as_text p) = Some master /\
    TemplateData.layouts (Generator.extractTemplateData (Archive files)) = master :: rest /\
    Generator.chooseLayout type
      (TemplateData.layouts (Generator.extractTemplateData (Archive files))) = master.
Proof.
  intros F E T. unfold Generator.extractTemplateData. rewrite E.
  unfold Generator.extractTemplateData_try in E. cbn [loadAsync bind ret] in E.
  destruct (Generator.read_theme files) as [m|theme]; cbn [bind] in E; [discriminate|].
  unfold Generator.read_master in E. rewrite F in E. cbn [bind] in E.
  unfold Generator.extractMasterLayout in *. cbn [bind ret] in E.
  destruct (Generator.read_layouts _ files _ _) as [m|layouts] eqn:L; cbn [bind] in E;
    [discriminate|].
  destruct (Generator.read_images files _ []) as [m|images]; cbn [bind ret] in E;
    [discriminate|].
  injection E as <-. cbn [TemplateData.layouts].
  apply read_layouts_keeps in L as (more & ->). cbn [app].
  eexists. exists more. split; [reflexivity|]. split; [reflexivity|].
  apply chooseLayout_master; [reflexivity|exact T].
Qed.

Lemma master_layout_is_chosen_witness :
  exists master rest,
    Generator.extractMasterLayout wide_master = Some master /\
    TemplateData.layouts
      (Generator.extractTemplateData
         (Archive [ (js "ppt/slideMasters/slideMaster1.xml",
                     inr {| as_text := wide_master; as_base64 := [] |});
                    (js "ppt/slideLayouts/slideLayout1.xml",
                     inr {| as_text := wide_layout; as_base64 := [] |}) ]))
    = master :: rest /\
    Generator.chooseLayout (js "bullets")
      (TemplateData.layouts
         (Generator.extractTemplateData
            (Archive [ (js "ppt/slideMasters/slideMaster1.xml",
                        inr {| as_text := wide_master; as_base64 := [] |});
                       (js "ppt/slideLayouts/slideLayout1.xml",
                        inr {| as_text := wide_layout; as_base64 := [] |}) ])))
    = master.
Proof.
  eapply (master_layout_is_chosen
            [ (js "ppt/slideMasters/slideMaster1.xml",
               inr {| as_text := wide_master; as_base64 := [] |});
              (js "ppt/slideLayouts/slideLayout1.xml",
               inr {| as_text := wide_layout; as_base64 := [] |}) ]
            {| as_text := wide_master; as_base64 := [] |} _ (js "bullets")).
  - reflexivity.
  - vm_compute. reflexivity.
  - reflexivity.
Defined.

(** ** The prompt *)

(** X25. The prompt sent to the provider reads the text only through its
    first 4000 code units and the fact that it is longer or not: two texts
    that agree on both give the same prompt, so what lies beyond never
    reaches the provider. The prompt is at most 4449 units longer than the
    guidance. *)
Theorem prompt_reads_4000_units (text text' guidance : jsString) :
  (firstn 4000 text = firstn 4000 text' ->
   Nat.ltb 4000 (List.length text) = Nat.ltb 4000 (List.length text') ->
   StructurePrompt.prompt text guidance = StructurePrompt.prompt text' guidance) /\
  (List.length (StructurePrompt.prompt text guidance) <= 4449 + List.length guidance)%nat.
Proof.
  split.
  - intros H L. unfold StructurePrompt.prompt, substring0. now rewrite H, L.
  - unfold StructurePrompt.prompt, substring0.
    pose proof (firstn_le_length 4000 text) as Hcut.
    remember (firstn 4000 text) as cut eqn:Ecut. clear Ecut.
    remember (match guidance with
              | [] => []
              | _ :: _ => 10%N :: jq "Guidance: '" ++ guidance ++ jq "'"
              end) as line eqn:Eline.
    assert (List.length line <= 13 + List.length guidance)%nat as Hline.
    { subst line. destruct guidance as [|g guidance]; [cbn; lia|].
      cbn [List.length]. rewrite !length_app. cbn [List.length]. 
      change (List.length (jq "Guidance: '")) with 11%nat.
      change (List.length (jq "'")) with 1%nat. lia. }
    clear Eline. cbn [join]. rewrite !length_app.
    repeat match goal with
           | |- context [List.length (js ?s)] =>
               let n := eval vm_compute in (List.length (js s)) in
               change (List.length (js s)) with n
           | |- context [List.length (jq ?s)] =>
               let n := eval vm_compute in (List.length (jq s)) in
               change (List.length (jq s)) with n
           end.
    destruct (Nat.ltb 4000 (List.length text)); cbn [List.length];
      change (List.length (js "...")) with 3%nat; lia.
Qed.

Lemma prompt_reads_4000_units_witness :
  StructurePrompt.prompt (repeat 97%N 4001 ++ js "the end") (js "pitch deck")
  = StructurePrompt.prompt (repeat 97%N 4001 ++ js "another end") (js "pitch deck").
Proof.
  apply (proj1 (prompt_reads_4000_units (repeat 97%N 4001 ++ js "the end")
                  (repeat 97%N 4001 ++ js "another end") (js "pitch deck"))).
  - vm_compute. reflexivity.
  - vm_compute. reflexivity.
Defined.

(** ** The content box of a layout *)




